(** * Event reconciliation of [contract_event_recorders.py]

    A shallow embedding of the trade, transfer and cancellation recorders
    and of the five SQL statements they execute, followed by the properties
    of the reconciliation engine.

    - Python values that flow through the recorders are [pyval]s; the
      [args] payload of an event is a dict, modelled as [gmap string pyval].
    - The persistent store is three tables, each a list of rows.  Columns
      are assumed NOT NULL.  The store itself never fails; only the
      encoding of a Python value for a numeric column can.
    - Every recorder runs in a state-and-exception monad over a [World]:
      the store, the trace of calls made to external collaborators (chain
      look-ups with their answers, statements sent to the store), and the
      log.  State changes made before an exception is raised persist, as
      each statement is executed on its own connection without a
      surrounding transaction. *)

From Stdlib Require Import ZArith.
From Stdlib.Strings Require Import Byte.
From stdpp Require Import base numbers gmap list strings.

#[local] Open Scope Z_scope.

(** ** Python values and exceptions *)

Abbreviation bytes := (list Byte.byte).

#[global] Instance byte_eq_dec : EqDecision Byte.byte := Byte.byte_eq_dec.

Inductive pyval :=
| PNone
| PInt (n : Z)
| PStr (text : string)
| PBytes (b : bytes).

#[global] Instance pyval_eq_dec : EqDecision pyval.
Proof. solve_decision. Defined.

Inductive exn :=
| KeyError (key : string)
| TypeError (site : string)
| AttributeError (site : string)
| DataError (site : string)
| OtherError (site : string).

Inductive result (A : Type) :=
| Ok (a : A)
| Raise (e : exn).
Arguments Ok {A} a.
Arguments Raise {A} e.

Definition result_bind {A B} (r : result A) (k : A → result B) : result B :=
  match r with
  | Ok a => k a
  | Raise e => Raise e
  end.

Notation "'let?' x ':=' r 'in' k" := (result_bind r (λ x, k))
  (at level 10, x name, r at level 100, k at level 200, only parsing).

(** [d[k]] on a dict. *)
Definition getitem (d : gmap string pyval) (k : string) : result pyval :=
  match d !! k with
  | Some x => Ok x
  | None => Raise (KeyError k)
  end.

(** ** Enumerations of [order_enums]

    Only the members the recorders name are known: [OrderSource.OFFCHAIN],
    [OrderSource.ONCHANIN] (spelled as the recorder spells it) and the
    three states that [UPDATE_ORDER_FILL_STMT] mentions. *)

Inductive OrderSource := OFFCHAIN | ONCHANIN.
Inductive OrderState := OPEN | FILLED | CANCELED.

#[global] Instance OrderSource_eq_dec : EqDecision OrderSource.
Proof. solve_decision. Defined.
#[global] Instance OrderState_eq_dec : EqDecision OrderState.
Proof. solve_decision. Defined.

(** ** Persisted schema *)

Record order_row := {
  source : OrderSource;
  signature : bytes;
  token_give : bytes;
  amount_give : Z;
  token_get : bytes;
  amount_get : Z;
  expires : Z;
  nonce : Z;
  user : bytes;
  state : OrderState;
  sig_v : Z;
  sig_r : bytes;
  sig_s : bytes;
  date : Z;
  amount_fill : Z;
  updated : Z
}.

Record trade_row := {
  trade_block_number : Z;
  trade_transaction_hash : bytes;
  trade_log_index : Z;
  trade_token_give : bytes;
  trade_amount_give : Z;
  trade_token_get : bytes;
  trade_amount_get : Z;
  trade_addr_give : bytes;
  trade_addr_get : bytes;
  trade_date : Z
}.

Record transfer_row := {
  transfer_block_number : Z;
  transfer_transaction_hash : bytes;
  transfer_log_index : Z;
  transfer_direction : string;
  transfer_token : bytes;
  transfer_user : bytes;
  transfer_amount : Z;
  transfer_balance_after : Z;
  transfer_date : Z
}.

Record Store := {
  orders : list order_row;
  trades : list trade_row;
  transfers : list transfer_row
}.

(** The status an executed statement reports: command tag, oid, row count
    (the text [INSERT 0 1] of the driver, already split). *)
Record status := {
  command : string;
  oid : Z;
  count : nat
}.

(** ** The statements *)

(** [FETCH_AFFECTED_ORDERS_STMT]: the [WHERE] clause, then the [SELECT]. *)
Definition affected_by (p1 p2 : bytes) (p3 : Z) (o : order_row) : Prop :=
  user o = p1 ∧ (token_give o = p2 ∨ token_get o = p2) ∧ p3 ≤ expires o.

#[global] Instance affected_by_dec p1 p2 p3 o : Decision (affected_by p1 p2 p3 o).
Proof. unfold affected_by. apply _. Defined.

Definition FETCH_AFFECTED_ORDERS_STMT (p1 p2 : bytes) (p3 : Z)
    (tbl : list order_row) : list order_row :=
  filter (affected_by p1 p2 p3) tbl.

(** [UPDATE_ORDER_FILL_STMT]: the [SET] list applied to one row (every
    right-hand side reads the row as it was), then the [UPDATE] over the
    rows selected by [WHERE "signature" = $3]. *)
Definition update_order_fill_row (p1 p2 : Z) (o : order_row) : order_row :=
  {| source := source o;
     signature := signature o;
     token_give := token_give o;
     amount_give := amount_give o;
     token_get := token_get o;
     amount_get := amount_get o;
     expires := expires o;
     nonce := nonce o;
     user := user o;
     state := match state o with
              | FILLED | CANCELED => state o
              | OPEN =>
                  if amount_get o <=? Z.max (amount_fill o) p1
                  then FILLED else OPEN
              end;
     sig_v := sig_v o;
     sig_r := sig_r o;
     sig_s := sig_s o;
     date := date o;
     amount_fill := Z.max (amount_fill o) p1;
     updated := p2 |}.

Definition UPDATE_ORDER_FILL_STMT (p1 p2 : Z) (p3 : bytes)
    (tbl : list order_row) : list order_row * status :=
  ((λ o, if decide (signature o = p3) then update_order_fill_row p1 p2 o else o)
     <$> tbl,
   {| command := "UPDATE"; oid := 0;
      count := length (filter (λ o, signature o = p3) tbl) |}).

(** Modelled from the spec: the constraint [index_trades_on_event_identifier]
    is declared outside the recorders; the persisted schema has [trades]
    unique on (transaction_hash, log_index). *)
Definition index_trades_on_event_identifier (a b : trade_row) : Prop :=
  trade_transaction_hash a = trade_transaction_hash b
  ∧ trade_log_index a = trade_log_index b.

#[global] Instance index_trades_dec a b :
  Decision (index_trades_on_event_identifier a b).
Proof. unfold index_trades_on_event_identifier. apply _. Defined.

(** Modelled from the spec: the constraint
    [index_transfers_on_event_identifier] is declared outside the recorders;
    the persisted schema has [transfers] unique on
    (transaction_hash, log_index). *)
Definition index_transfers_on_event_identifier (a b : transfer_row) : Prop :=
  transfer_transaction_hash a = transfer_transaction_hash b
  ∧ transfer_log_index a = transfer_log_index b.

#[global] Instance index_transfers_dec a b :
  Decision (index_transfers_on_event_identifier a b).
Proof. unfold index_transfers_on_event_identifier. apply _. Defined.

(** Modelled from the spec: the constraint [index_orders_on_signature] is
    declared outside the recorders; the persisted schema has [orders] keyed
    by signature. *)
Definition index_orders_on_signature (a b : order_row) : Prop :=
  signature a = signature b.

#[global] Instance index_orders_dec a b :
  Decision (index_orders_on_signature a b).
Proof. unfold index_orders_on_signature. apply _. Defined.

(** [INSERT_TRADE_STMT]: [ON CONFLICT ... DO NOTHING]. *)
Definition INSERT_TRADE_STMT (row : trade_row) (tbl : list trade_row)
    : list trade_row * status :=
  if decide (Exists (index_trades_on_event_identifier row) tbl)
  then (tbl, {| command := "INSERT"; oid := 0; count := 0 |})
  else (tbl ++ [row], {| command := "INSERT"; oid := 0; count := 1 |}).

(** [INSERT_TRANSFER_STMT]: [ON CONFLICT ... DO NOTHING]. *)
Definition INSERT_TRANSFER_STMT (row : transfer_row) (tbl : list transfer_row)
    : list transfer_row * status :=
  if decide (Exists (index_transfers_on_event_identifier row) tbl)
  then (tbl, {| command := "INSERT"; oid := 0; count := 0 |})
  else (tbl ++ [row], {| command := "INSERT"; oid := 0; count := 1 |}).

(** [UPSERT_CANCELED_ORDER_STMT].  [row] carries the sixteen values of the
    [VALUES] list; the [DO UPDATE SET] list writes [$10], [$15] and [$16],
    which are the [state], [amount_fill] and [updated] of [row], into an
    existing row that passes the [WHERE] clause. *)
Definition upsert_canceled_hits (row o : order_row) : Prop :=
  signature o = signature row ∧ state o = OPEN.

#[global] Instance upsert_canceled_hits_dec row o :
  Decision (upsert_canceled_hits row o).
Proof. unfold upsert_canceled_hits. apply _. Defined.

Definition upsert_canceled_row (row o : order_row) : order_row :=
  {| source := source o;
     signature := signature o;
     token_give := token_give o;
     amount_give := amount_give o;
     token_get := token_get o;
     amount_get := amount_get o;
     expires := expires o;
     nonce := nonce o;
     user := user o;
     state := state row;
     sig_v := sig_v o;
     sig_r := sig_r o;
     sig_s := sig_s o;
     date := date o;
     amount_fill := amount_fill row;
     updated := updated row |}.

Definition UPSERT_CANCELED_ORDER_STMT (row : order_row) (tbl : list order_row)
    : list order_row * status :=
  if decide (Exists (index_orders_on_signature row) tbl)
  then ((λ o, if decide (upsert_canceled_hits row o)
              then upsert_canceled_row row o else o) <$> tbl,
        {| command := "INSERT"; oid := 0;
           count := length (filter (upsert_canceled_hits row) tbl) |})
  else (tbl ++ [row], {| command := "INSERT"; oid := 0; count := 1 |}).

(** Modelled from the spec: [utils.parse_insert_status] is not part of the
    recorders; the store reports insert-versus-conflict, and the recorders
    take the third component of the parsed status as the number of rows
    written. *)
Definition parse_insert_status (st : status) : string * Z * nat :=
  (command st, oid st, count st).

(** Python's [bool] on a row count. *)
Definition bool_of_count (n : nat) : bool := negb (n =? 0)%nat.

(** ** The world the recorders run in *)

Inductive call :=
| CallBlockTimestamp (block : pyval) (answer : result Z)
| CallOrderFills (maker : string) (sig : bytes) (answer : result Z)
| ExecFetchAffectedOrders (p1 p2 : bytes) (p3 : Z)
| ExecUpdateOrderFill (p1 p2 : Z) (p3 : bytes)
| ExecInsertTrade (row : trade_row)
| ExecInsertTransfer (row : transfer_row)
| ExecUpsertCanceledOrder (row : order_row).

Inductive level := DEBUG | INFO | WARN.

Record log_record := {
  log_level : level;
  log_format : string;
  log_args : list pyval
}.

Record World := {
  db : Store;
  calls : list call;
  logs : list log_record
}.

(** The contract handle passed to every recorder.  Its fill accessor is an
    external look-up: the answer may depend on everything that happened
    before, and the look-up may fail. *)
Record Contract := {
  orderFills : list call → string → bytes → result Z
}.

(** Collaborators the recorders import but do not define. *)
Class Collaborators := {
  (** [utils.coerce_to_int] *)
  coerce_to_int : pyval → result Z;
  (** [order_hash.make_order_hash], yielding the hash as hex text *)
  make_order_hash : gmap string pyval → result pyval;
  (** [contract_event_utils.block_timestamp (App().web3, ·)] *)
  block_timestamp : list call → pyval → result Z;
  (** [Web3.toBytes(hexstr=x)] for an [x] that is not [None] *)
  decode_hex : pyval → result bytes;
  (** [Web3.toBytes(text=x)] for an [x] that is not [None] *)
  encode_text : pyval → result bytes;
  (** [Web3.toHex] on bytes *)
  toHex : bytes → string;
  (** [int(x)] for an [x] that is neither an [int] nor [None] *)
  int_of_other : pyval → result Z;
  (** how the store driver encodes a Python value for a numeric column *)
  db_numeric : pyval → result Z
}.

(** ** The recorder monad: state over [World], with exceptions *)

Definition M (A : Type) : Type := World → World * result A.

Definition ret {A} (a : A) : M A := λ w, (w, Ok a).

Definition bind {A B} (m : M A) (k : A → M B) : M B :=
  λ w, match m w with
       | (w', Ok a) => k a w'
       | (w', Raise e) => (w', Raise e)
       end.

Definition lift {A} (r : result A) : M A := λ w, (w, r).

Notation "'let*' x ':=' m 'in' k" := (bind m (λ x, k))
  (at level 10, x name, m at level 100, k at level 200, only parsing).

Definition with_orders (tbl : list order_row) (s : Store) : Store :=
  {| orders := tbl; trades := trades s; transfers := transfers s |}.

Definition with_trades (tbl : list trade_row) (s : Store) : Store :=
  {| orders := orders s; trades := tbl; transfers := transfers s |}.

Definition with_transfers (tbl : list transfer_row) (s : Store) : Store :=
  {| orders := orders s; trades := trades s; transfers := tbl |}.

(** An entry of the log. *)
Definition logged (l : level) (format : string) (values : list pyval)
    (w : World) : World :=
  {| db := db w; calls := calls w;
     logs := logs w ++ [ {| log_level := l; log_format := format;
                            log_args := values |} ] |}.

(** [logger.debug], [logger.info], [logger.warn] *)
Definition log (l : level) (format : string) (values : list pyval) : M unit :=
  λ w, (logged l format values w, Ok tt).

(** An entry of the call trace. *)
Definition traced (c : call) (w : World) : World :=
  {| db := db w; calls := calls w ++ [c]; logs := logs w |}.

Definition on_db (f : Store → Store) (w : World) : World :=
  {| db := f (db w); calls := calls w; logs := logs w |}.

Definition ZERO_ADDR : string := "0x0000000000000000000000000000000000000000".

(** A chain event: [blockNumber], [transactionHash], [logIndex] and the
    [args] dict. *)
Record event := {
  blockNumber : pyval;
  transactionHash : pyval;
  logIndex : pyval;
  args : gmap string pyval
}.

Section Recorders.
Context `{Collaborators}.

(** [Web3.toBytes(hexstr=x)]: exactly one of its arguments must be given,
    so [None] is a [TypeError]. *)
Definition toBytes_hexstr (x : pyval) : result bytes :=
  match x with
  | PNone => Raise (TypeError "toBytes")
  | _ => decode_hex x
  end.

(** [Web3.toBytes(text=x)]: [None] is a [TypeError] as above. *)
Definition toBytes_text (x : pyval) : result bytes :=
  match x with
  | PNone => Raise (TypeError "toBytes")
  | _ => encode_text x
  end.

(** [Web3.toBytes(b)] on bytes returns them. *)
Definition toBytes_primitive (b : bytes) : bytes := b.

(** Python's [int]. *)
Definition int (x : pyval) : result Z :=
  match x with
  | PInt n => Ok n
  | PNone => Raise (TypeError "int")
  | _ => int_of_other x
  end.

(** [datetime.fromtimestamp (block_timestamp (App().web3, block), tz=None)]:
    one chain look-up, recorded with its answer; a date is kept as its
    timestamp. *)
Definition date_of_block (block : pyval) : M Z :=
  λ w, let answer := block_timestamp (calls w) block in
       (traced (CallBlockTimestamp block answer) w, answer).

(** [order_fills(order_maker, order_signature)] *)
Definition order_fills (contract : Contract) (maker : string) (sig : bytes)
    : M Z :=
  λ w, let answer := orderFills contract (calls w) maker sig in
       (traced (CallOrderFills maker sig answer) w, answer).

(** [conn.fetch(FETCH_AFFECTED_ORDERS_STMT, ...)] *)
Definition fetch_affected_orders (order_maker coin_addr : pyval)
    (expiring_at : Z) : M (list order_row) :=
  let* p1 := lift (toBytes_hexstr order_maker) in
  let* p2 := lift (toBytes_hexstr coin_addr) in
  λ w, (traced (ExecFetchAffectedOrders p1 p2 expiring_at) w,
        Ok (FETCH_AFFECTED_ORDERS_STMT p1 p2 expiring_at (orders (db w)))).

(** [conn.execute(UPDATE_ORDER_FILL_STMT, *update_args)] *)
Definition execute_UPDATE_ORDER_FILL (p1 p2 : Z) (p3 : bytes) : M status :=
  λ w, let '(tbl, st) := UPDATE_ORDER_FILL_STMT p1 p2 p3 (orders (db w)) in
       (traced (ExecUpdateOrderFill p1 p2 p3) (on_db (with_orders tbl) w),
        Ok st).

(** One turn of the loop of [update_order_fills]. *)
Definition update_order_fill (contract : Contract) (order : order_row)
    : M unit :=
  let order_maker := toHex (user order) in
  let order_signature := toBytes_primitive (signature order) in
  let* updated_at := date_of_block (PStr "latest") in
  let* amount_fill := order_fills contract order_maker order_signature in
  let* _ := execute_UPDATE_ORDER_FILL amount_fill updated_at order_signature in
  ret tt.

Fixpoint update_order_fills (contract : Contract) (orders : list order_row)
    : M unit :=
  match orders with
  | [] => ret tt
  | order :: rest =>
      let* _ := update_order_fill contract order in
      update_order_fills contract rest
  end.

(** The tuple [insert_args] of [record_trade]. *)
Definition trade_args : Type :=
  Z * bytes * Z * bytes * pyval * bytes * pyval * bytes * bytes * Z.

Definition trade_insert_args (ev : event) (block_number log_index date : Z)
    : result trade_args :=
  let? p2 := toBytes_hexstr (transactionHash ev) in
  let? p4 := result_bind (getitem (args ev) "tokenGive") toBytes_hexstr in
  let? p5 := getitem (args ev) "amountGive" in
  let? p6 := result_bind (getitem (args ev) "tokenGet") toBytes_hexstr in
  let? p7 := getitem (args ev) "amountGet" in
  let? p8 := result_bind (getitem (args ev) "give") toBytes_hexstr in
  let? p9 := result_bind (getitem (args ev) "get") toBytes_hexstr in
  Ok (block_number, p2, log_index, p4, p5, p6, p7, p8, p9, date).

(** The driver's encoding of [insert_args]: the two amounts arrive as the
    event carries them. *)
Definition encode_trade_row (a : trade_args) : result trade_row :=
  let '(p1, p2, p3, p4, p5, p6, p7, p8, p9, p10) := a in
  let? amount_give := db_numeric p5 in
  let? amount_get := db_numeric p7 in
  Ok {| trade_block_number := p1; trade_transaction_hash := p2;
        trade_log_index := p3; trade_token_give := p4;
        trade_amount_give := amount_give; trade_token_get := p6;
        trade_amount_get := amount_get; trade_addr_give := p8;
        trade_addr_get := p9; trade_date := p10 |}.

(** [connection.execute(INSERT_TRADE_STMT, *insert_args)] *)
Definition execute_INSERT_TRADE (a : trade_args) : M status :=
  let* row := lift (encode_trade_row a) in
  λ w, let '(tbl, st) := INSERT_TRADE_STMT row (trades (db w)) in
       (traced (ExecInsertTrade row) (on_db (with_trades tbl) w), Ok st).

Definition record_trade (contract : Contract) (event_name : string)
    (ev : event) : M bool :=
  let* block_number := lift (coerce_to_int (blockNumber ev)) in
  let* log_index := lift (coerce_to_int (logIndex ev)) in
  let* date := date_of_block (blockNumber ev) in
  let* insert_args :=
    lift (trade_insert_args ev block_number log_index date) in
  let* insert_retval := execute_INSERT_TRADE insert_args in
  let '(_, _, did_insert) := parse_insert_status insert_retval in
  let* _ := if bool_of_count did_insert
            then log DEBUG "recorded trade txid=%s, logidx=%i"
                   [transactionHash ev; PInt log_index]
            else ret tt in
  ret (bool_of_count did_insert).

Definition process_trade (contract : Contract) (event_name : string)
    (ev : event) : M unit :=
  let* _ := log DEBUG "received trade txid=%s" [transactionHash ev] in
  let* did_insert := record_trade contract event_name ev in
  if did_insert then
    let* log_index := lift (coerce_to_int (logIndex ev)) in
    let* _ := log INFO "recorded trade txid=%s, logidx=%i"
                [transactionHash ev; PInt log_index] in
    let* block_number := lift (coerce_to_int (blockNumber ev)) in
    let* order_maker := lift (getitem (args ev) "get") in
    let* tokenGive := lift (getitem (args ev) "tokenGive") in
    let* coin_addr :=
      if bool_decide (tokenGive ≠ PStr ZERO_ADDR)
      then lift (getitem (args ev) "tokenGive")
      else lift (getitem (args ev) "tokenGet") in
    let* affected_orders :=
      fetch_affected_orders order_maker coin_addr block_number in
    let* _ :=
      if bool_decide (0 < length affected_orders)%nat
      then
        let* _ := log DEBUG "updating up to %i orders for trade txid=%s"
                    [PInt (Z.of_nat (length affected_orders));
                     transactionHash ev] in
        update_order_fills contract affected_orders
      else
        log WARN "No orders found for user='%s' and token='%s'"
          [order_maker; coin_addr] in
    log DEBUG "done order updates for txid=%s" [transactionHash ev]
  else
    log DEBUG "duplicate trade txid=%s" [transactionHash ev].

(** The tuple [insert_args] of [record_transfer]. *)
Definition transfer_args : Type :=
  Z * bytes * Z * string * bytes * bytes * pyval * pyval * Z.

Definition transfer_insert_args (transfer_direction : string) (ev : event)
    (block_number log_index date : Z) : result transfer_args :=
  let? p2 := toBytes_hexstr (transactionHash ev) in
  let? p5 := result_bind (getitem (args ev) "token") toBytes_hexstr in
  let? p6 := result_bind (getitem (args ev) "user") toBytes_hexstr in
  let? p7 := getitem (args ev) "amount" in
  let? p8 := getitem (args ev) "balance" in
  Ok (block_number, p2, log_index, transfer_direction, p5, p6, p7, p8, date).

Definition encode_transfer_row (a : transfer_args) : result transfer_row :=
  let '(p1, p2, p3, p4, p5, p6, p7, p8, p9) := a in
  let? amount := db_numeric p7 in
  let? balance_after := db_numeric p8 in
  Ok {| transfer_block_number := p1; transfer_transaction_hash := p2;
        transfer_log_index := p3; transfer_direction := p4;
        transfer_token := p5; transfer_user := p6;
        transfer_amount := amount;
        transfer_balance_after := balance_after;
        transfer_date := p9 |}.

(** [connection.execute(INSERT_TRANSFER_STMT, *insert_args)] *)
Definition execute_INSERT_TRANSFER (a : transfer_args) : M status :=
  let* row := lift (encode_transfer_row a) in
  λ w, let '(tbl, st) := INSERT_TRANSFER_STMT row (transfers (db w)) in
       (traced (ExecInsertTransfer row) (on_db (with_transfers tbl) w), Ok st).

Definition record_transfer (transfer_direction : string) (ev : event)
    : M bool :=
  let* block_number := lift (coerce_to_int (blockNumber ev)) in
  let* log_index := lift (coerce_to_int (logIndex ev)) in
  let* date := date_of_block (PInt block_number) in
  let* insert_args :=
    lift (transfer_insert_args transfer_direction ev block_number log_index
            date) in
  let* insert_retval := execute_INSERT_TRANSFER insert_args in
  let '(_, _, did_insert) := parse_insert_status insert_retval in
  ret (bool_of_count did_insert).

Definition record_deposit (contract : Contract) (event_name : string)
    (ev : event) : M bool :=
  let* did_insert := record_transfer "DEPOSIT" ev in
  let* _ := if did_insert
            then
              let* log_index := lift (coerce_to_int (logIndex ev)) in
              log INFO "recorded deposit txid=%s, logidx=%i"
                [transactionHash ev; PInt log_index]
            else ret tt in
  ret did_insert.

Definition record_withdraw (contract : Contract) (event_name : string)
    (ev : event) : M bool :=
  let* did_insert := record_transfer "WITHDRAW" ev in
  let* _ := if did_insert
            then
              let* log_index := lift (coerce_to_int (logIndex ev)) in
              log INFO "recorded withdraw txid=%s, logidx=%i"
                [transactionHash ev; PInt log_index]
            else ret tt in
  ret did_insert.

(** The provenance test of [record_cancel]:
    ["r" in order and order["r"] is not None]. *)
Definition cancel_source (order : gmap string pyval) : OrderSource :=
  if bool_decide (is_Some (order !! "r"))
     && bool_decide (order !! "r" ≠ Some PNone)
  then OFFCHAIN
  else ONCHANIN.

(** The tuple [upsert_args] of [record_cancel]. *)
Definition upsert_args : Type :=
  OrderSource * bytes * bytes * pyval * bytes * pyval * pyval * pyval * bytes
  * OrderState * Z * bytes * bytes * Z * pyval * Z.

Definition cancel_upsert_args (order : gmap string pyval)
    (source : OrderSource) (signature : pyval) (date : Z)
    : result upsert_args :=
  let? p2 := toBytes_hexstr signature in
  let? p3 := result_bind (getitem order "tokenGive") toBytes_hexstr in
  let? p4 := getitem order "amountGive" in
  let? p5 := result_bind (getitem order "tokenGet") toBytes_hexstr in
  let? p6 := getitem order "amountGet" in
  let? p7 := getitem order "expires" in
  let? p8 := getitem order "nonce" in
  let? p9 := result_bind (getitem order "user") toBytes_hexstr in
  let? p11 := result_bind (getitem order "v") int in
  let? p12 := result_bind (getitem order "r") toBytes_text in
  let? p13 := result_bind (getitem order "s") toBytes_text in
  let? p15 := getitem order "amountGet" in
  Ok (source, p2, p3, p4, p5, p6, p7, p8, p9, CANCELED, p11, p12, p13, date,
      p15, date).

(** The driver's encoding of [upsert_args]: the amounts, expiry and nonce
    arrive as the event carries them. *)
Definition encode_order_row (a : upsert_args) : result order_row :=
  let '(p1, p2, p3, p4, p5, p6, p7, p8, p9, p10, p11, p12, p13, p14, p15,
        p16) := a in
  let? amount_give := db_numeric p4 in
  let? amount_get := db_numeric p6 in
  let? expires := db_numeric p7 in
  let? nonce := db_numeric p8 in
  let? amount_fill := db_numeric p15 in
  Ok {| source := p1; signature := p2; token_give := p3;
        amount_give := amount_give; token_get := p5;
        amount_get := amount_get; expires := expires;
        nonce := nonce; user := p9; state := p10; sig_v := p11;
        sig_r := p12; sig_s := p13; date := p14;
        amount_fill := amount_fill; updated := p16 |}.

(** [connection.execute(UPSERT_CANCELED_ORDER_STMT, *upsert_args)] *)
Definition execute_UPSERT_CANCELED_ORDER (a : upsert_args) : M status :=
  let* row := lift (encode_order_row a) in
  λ w, let '(tbl, st) := UPSERT_CANCELED_ORDER_STMT row (orders (db w)) in
       (traced (ExecUpsertCanceledOrder row) (on_db (with_orders tbl) w),
        Ok st).

Definition record_cancel (contract : Contract) (event_name : string)
    (ev : event) : M bool :=
  let order := args ev in
  let* order_maker := lift (getitem order "user") in
  let* signature := lift (make_order_hash order) in
  let* date := date_of_block (blockNumber ev) in
  let source := cancel_source order in
  let* upsert_args := lift (cancel_upsert_args order source signature date) in
  let* upsert_retval := execute_UPSERT_CANCELED_ORDER upsert_args in
  let '(_, _, did_upsert) := parse_insert_status upsert_retval in
  let* _ := if bool_of_count did_upsert
            then log DEBUG "recorded order cancel signature=%s" [signature]
            else ret tt in
  ret (bool_of_count did_upsert).

End Recorders.

(** The calls of one completed turn of the loop of [update_order_fills]:
    the timestamp look-up, the fill look-up for the order's maker and
    signature, and the update carrying the two answers. *)
Definition refresh_calls `{Collaborators} (order : order_row)
    (ts amount : Z) : list call :=
  [CallBlockTimestamp (PStr "latest") (Ok ts);
   CallOrderFills (toHex (user order)) (signature order) (Ok amount);
   ExecUpdateOrderFill amount ts (signature order)].

(** The calls of the completed turns for the first orders of a list, given
    the (timestamp, amount) answers they received. *)
Fixpoint refresh_trace `{Collaborators} (affected : list order_row)
    (answers : list (Z * Z)) : list call :=
  match affected, answers with
  | order :: affected, (ts, amount) :: answers =>
      refresh_calls order ts amount ++ refresh_trace affected answers
  | _, _ => []
  end.

(** The table after those turns. *)
Fixpoint refresh_rows (affected : list order_row) (answers : list (Z * Z))
    (tbl : list order_row) : list order_row :=
  match affected, answers with
  | order :: affected, (ts, amount) :: answers =>
      refresh_rows affected answers
        (UPDATE_ORDER_FILL_STMT amount ts (signature order) tbl).1
  | _, _ => tbl
  end.

(** A sequence of executions of [UPDATE_ORDER_FILL_STMT] for one signature,
    each with its amount and its timestamp. *)
Definition apply_fills (p3 : bytes) (fills : list (Z * Z))
    (tbl : list order_row) : list order_row :=
  foldl (λ acc fill, (UPDATE_ORDER_FILL_STMT fill.1 fill.2 p3 acc).1) tbl fills.

(** The largest of a list of amounts and a starting amount. *)
Definition max_amount (start : Z) (amounts : list Z) : Z :=
  foldl Z.max start amounts.

(** The columns of an order other than [amount_fill], [state] and
    [updated]. *)
Definition same_terms (o o' : order_row) : Prop :=
  source o' = source o ∧ signature o' = signature o
  ∧ token_give o' = token_give o ∧ amount_give o' = amount_give o
  ∧ token_get o' = token_get o ∧ amount_get o' = amount_get o
  ∧ expires o' = expires o ∧ nonce o' = nonce o ∧ user o' = user o
  ∧ sig_v o' = sig_v o ∧ sig_r o' = sig_r o ∧ sig_s o' = sig_s o
  ∧ date o' = date o.

(** The terminal states. *)
Definition terminal (st : OrderState) : Prop := st = FILLED ∨ st = CANCELED.

(** What the unique constraints guarantee of a table. *)
Definition orders_unique (tbl : list order_row) : Prop :=
  NoDup (signature <$> tbl).

Definition trade_identifier (row : trade_row) : bytes * Z :=
  (trade_transaction_hash row, trade_log_index row).

Definition transfer_identifier (row : transfer_row) : bytes * Z :=
  (transfer_transaction_hash row, transfer_log_index row).

Definition trades_unique (tbl : list trade_row) : Prop :=
  NoDup (trade_identifier <$> tbl).

Definition transfers_unique (tbl : list transfer_row) : Prop :=
  NoDup (transfer_identifier <$> tbl).

(** Which calls of a trace touch the orders: a fill look-up, the
    affected-order query, a fill update, a cancellation upsert. *)
Definition order_call (c : call) : bool :=
  match c with
  | CallOrderFills _ _ _ | ExecFetchAffectedOrders _ _ _
  | ExecUpdateOrderFill _ _ _ | ExecUpsertCanceledOrder _ => true
  | CallBlockTimestamp _ _ | ExecInsertTrade _ | ExecInsertTransfer _ => false
  end.

(** Which calls of a trace are statements sent to the store. *)
Definition store_call (c : call) : bool :=
  match c with
  | CallBlockTimestamp _ _ | CallOrderFills _ _ _ => false
  | _ => true
  end.

(** ** Writes and deliveries *)

(** One writing statement executed on the store. *)
Inductive store_step : Store → Store → Prop :=
| step_insert_trade row s :
    store_step s (with_trades (INSERT_TRADE_STMT row (trades s)).1 s)
| step_insert_transfer row s :
    store_step s (with_transfers (INSERT_TRANSFER_STMT row (transfers s)).1 s)
| step_update_order_fill p1 p2 p3 s :
    store_step s (with_orders (UPDATE_ORDER_FILL_STMT p1 p2 p3 (orders s)).1 s)
| step_upsert_canceled_order row s :
    state row = CANCELED →
    store_step s (with_orders (UPSERT_CANCELED_ORDER_STMT row (orders s)).1 s).

(** One event handed to its recorder. *)
Inductive delivery :=
| Trade (contract : Contract) (event_name : string) (ev : event)
| Deposit (contract : Contract) (event_name : string) (ev : event)
| Withdraw (contract : Contract) (event_name : string) (ev : event)
| Cancel (contract : Contract) (event_name : string) (ev : event).

(** The world a recorder leaves, whether it returned or raised. *)
Definition deliver `{Collaborators} (d : delivery) (w : World) : World :=
  match d with
  | Trade contract n ev => (process_trade contract n ev w).1
  | Deposit contract n ev => (record_deposit contract n ev w).1
  | Withdraw contract n ev => (record_withdraw contract n ev w).1
  | Cancel contract n ev => (record_cancel contract n ev w).1
  end.

(** Recorders run one after another, each from the world the previous one
    left. *)
Definition deliver_all `{Collaborators} (ds : list delivery) (w : World)
    : World :=
  foldl (λ acc d, deliver d acc) w ds.

(** The status of an order agrees with its filled amount: FILLED rows have
    reached their get-amount, OPEN rows have not. *)
Definition status_agrees (o : order_row) : Prop :=
  (state o = FILLED → amount_get o ≤ amount_fill o)
  ∧ (state o = OPEN → amount_fill o < amount_get o).

(** How a store may differ from an earlier one: facts are only appended;
    every order is still there, at its place, with its terms, and with its
    status if that was terminal. *)
Definition evolves (s s' : Store) : Prop :=
  trades s `prefix_of` trades s'
  ∧ transfers s `prefix_of` transfers s'
  ∧ ∀ i o, orders s !! i = Some o →
      ∃ o', orders s' !! i = Some o' ∧ same_terms o o'
        ∧ (terminal (state o) → state o' = state o).

(** The keys [record_trade], [record_transfer] and [record_cancel] read
    from the arguments of an event. *)
Definition trade_keys : list string :=
  ["tokenGive"; "amountGive"; "tokenGet"; "amountGet"; "give"; "get"].

Definition transfer_keys : list string :=
  ["token"; "user"; "amount"; "balance"].

Definition cancel_keys : list string :=
  ["user"; "tokenGive"; "amountGive"; "tokenGet"; "amountGet"; "expires";
   "nonce"; "v"; "r"; "s"].

(** ** Test doubles

    Concrete collaborators, events and tables on which the recorders can be
    run. *)
Module Demo.

#[export] Instance collaborators : Collaborators := {|
  coerce_to_int x :=
    match x with PInt n => Ok n | _ => Raise (TypeError "coerce_to_int") end;
  make_order_hash order := getitem order "user";
  block_timestamp history block :=
    match block with
    | PInt n => Ok (1500000000 + n)
    | PStr _ => Ok (1500000000 + Z.of_nat (length history))
    | _ => Raise (OtherError "block_timestamp")
    end;
  decode_hex x :=
    match x with
    | PStr t => Ok (String.list_byte_of_string t)
    | _ => Raise (TypeError "decode_hex")
    end;
  encode_text x :=
    match x with
    | PStr t => Ok (String.list_byte_of_string t)
    | _ => Raise (AttributeError "encode")
    end;
  toHex b := String.string_of_list_byte b;
  int_of_other _ := Raise (OtherError "int");
  db_numeric x :=
    match x with PInt n => Ok n | _ => Raise (DataError "numeric") end
|}.

(** A contract whose accessor answers 60 for every order but those of the
    maker ["0xdead"], for which the look-up fails. *)
Definition contract : Contract :=
  {| orderFills _ maker _ :=
       if bool_decide (maker = "0xdead")
       then Raise (OtherError "orderFills") else Ok 60 |}.

Definition order (sig maker : string) (st : OrderState) (get fill : Z)
    : order_row :=
  {| source := OFFCHAIN;
     signature := String.list_byte_of_string sig;
     token_give := String.list_byte_of_string "0xaa";
     amount_give := 5;
     token_get := String.list_byte_of_string ZERO_ADDR;
     amount_get := get;
     expires := 900;
     nonce := 1;
     user := String.list_byte_of_string maker;
     state := st;
     sig_v := 27;
     sig_r := [Byte.x01];
     sig_s := [Byte.x02];
     date := 1500000000;
     amount_fill := fill;
     updated := 1500000000 |}.

Definition store (tbl : list order_row) : Store :=
  {| orders := tbl; trades := []; transfers := [] |}.

Definition world (tbl : list order_row) : World :=
  {| db := store tbl; calls := []; logs := [] |}.

(** A trade in which the maker ["0xbeef"] gives the token ["0xaa"]. *)
Definition trade : event :=
  {| blockNumber := PInt 800;
     transactionHash := PStr "0xabc";
     logIndex := PInt 3;
     args := <["tokenGive" := PStr "0xaa"]>
             (<["amountGive" := PInt 5]>
             (<["tokenGet" := PStr ZERO_ADDR]>
             (<["amountGet" := PInt 100]>
             (<["give" := PStr "0xf00d"]>
             (<["get" := PStr "0xbeef"]> ∅))))) |}.

(** A deposit. *)
Definition deposit : event :=
  {| blockNumber := PInt 801;
     transactionHash := PStr "0xdef";
     logIndex := PInt 0;
     args := <["token" := PStr "0xaa"]>
             (<["user" := PStr "0xbeef"]>
             (<["amount" := PInt 7]>
             (<["balance" := PInt 70]> ∅))) |}.

(** The terms of a cancellation without signature components. *)
Definition cancel_terms : gmap string pyval :=
  <["tokenGive" := PStr "0xaa"]>
  (<["amountGive" := PInt 5]>
  (<["tokenGet" := PStr ZERO_ADDR]>
  (<["amountGet" := PInt 100]>
  (<["expires" := PInt 900]>
  (<["nonce" := PInt 1]>
  (<["user" := PStr "0xbeef"]> ∅)))))).

(** A cancellation carrying textual signature components. *)
Definition cancel_offchain : event :=
  {| blockNumber := PInt 802;
     transactionHash := PStr "0x123";
     logIndex := PInt 1;
     args := <["v" := PInt 27]>
             (<["r" := PStr "rr"]> (<["s" := PStr "ss"]> cancel_terms)) |}.

(** A cancellation whose [r] is [None]. *)
Definition cancel_onchain : event :=
  {| blockNumber := PInt 802;
     transactionHash := PStr "0x123";
     logIndex := PInt 1;
     args := <["v" := PInt 27]>
             (<["r" := PNone]> (<["s" := PNone]> cancel_terms)) |}.

End Demo.

(** * Properties *)

(** ** The fill update, statement level *)

Lemma UPDATE_ORDER_FILL_lookup p1 p2 p3 (tbl : list order_row) i :
  (UPDATE_ORDER_FILL_STMT p1 p2 p3 tbl).1 !! i
  = (λ o, if decide (signature o = p3) then update_order_fill_row p1 p2 o else o)
      <$> tbl !! i.
Proof. simpl. apply list_lookup_fmap. Qed.

Lemma UPDATE_ORDER_FILL_hit p1 p2 p3 (tbl : list order_row) i o :
  tbl !! i = Some o → signature o = p3 →
  (UPDATE_ORDER_FILL_STMT p1 p2 p3 tbl).1 !! i
  = Some (update_order_fill_row p1 p2 o).
Proof.
  intros Hi Hsig. rewrite UPDATE_ORDER_FILL_lookup, Hi. simpl.
  by rewrite decide_True.
Qed.

Lemma UPDATE_ORDER_FILL_miss p1 p2 p3 (tbl : list order_row) i o :
  tbl !! i = Some o → signature o ≠ p3 →
  (UPDATE_ORDER_FILL_STMT p1 p2 p3 tbl).1 !! i = Some o.
Proof.
  intros Hi Hsig. rewrite UPDATE_ORDER_FILL_lookup, Hi. simpl.
  by rewrite decide_False.
Qed.

Lemma UPDATE_ORDER_FILL_no_match p1 p2 p3 (tbl : list order_row) :
  (∀ o, o ∈ tbl → signature o ≠ p3) →
  UPDATE_ORDER_FILL_STMT p1 p2 p3 tbl
  = (tbl, {| command := "UPDATE"; oid := 0; count := 0 |}).
Proof.
  intros Hno. unfold UPDATE_ORDER_FILL_STMT. f_equal.
  - induction tbl as [|o tbl IH]; [done|]. rewrite fmap_cons. f_equal.
    + rewrite decide_False; [done|]. apply Hno. left.
    + apply IH. intros o' Ho'. apply Hno. by right.
  - f_equal. induction tbl as [|o tbl IH]; [done|].
    rewrite filter_cons_False.
    + apply IH. intros o' Ho'. apply Hno. by right.
    + apply Hno. left.
Qed.

Lemma update_order_fill_row_terms p1 p2 o :
  same_terms o (update_order_fill_row p1 p2 o).
Proof. by repeat split. Qed.

Lemma update_order_fill_row_state p1 p2 o :
  state (update_order_fill_row p1 p2 o)
  = match state o with
    | OPEN => if bool_decide (amount_get o ≤ Z.max (amount_fill o) p1)
              then FILLED else OPEN
    | st => st
    end.
Proof.
  simpl. destruct (state o); try done.
  destruct (Z.leb_spec (amount_get o) (Z.max (amount_fill o) p1)).
  - by rewrite bool_decide_true.
  - rewrite bool_decide_false; [done|lia].
Qed.

(** C4: the status rule of the fill update.  A row matched by signature
    gets the filled amount [max (current, new)]; a FILLED or CANCELED row
    keeps its status; an OPEN row becomes FILLED when the resulting filled
    amount reaches the get-amount and stays OPEN otherwise.  When no row
    has the signature the table is returned as it was and the statement
    reports zero rows. *)
Theorem update_order_fill_status p1 p2 p3 (tbl : list order_row) :
  (∀ i o, tbl !! i = Some o → signature o = p3 →
     ∃ o', (UPDATE_ORDER_FILL_STMT p1 p2 p3 tbl).1 !! i = Some o'
       ∧ amount_fill o' = Z.max (amount_fill o) p1
       ∧ (terminal (state o) → state o' = state o)
       ∧ (state o = OPEN → amount_get o ≤ amount_fill o' → state o' = FILLED)
       ∧ (state o = OPEN → amount_fill o' < amount_get o → state o' = OPEN))
  ∧ ((∀ o, o ∈ tbl → signature o ≠ p3) →
     UPDATE_ORDER_FILL_STMT p1 p2 p3 tbl
     = (tbl, {| command := "UPDATE"; oid := 0; count := 0 |})).
Proof.
  split; [|apply UPDATE_ORDER_FILL_no_match].
  intros i o Hi Hsig. eexists. split; [by apply UPDATE_ORDER_FILL_hit|].
  split; [done|]. rewrite update_order_fill_row_state.
  cbn [amount_fill update_order_fill_row]. unfold terminal.
  repeat split.
  - by intros [-> | ->].
  - intros -> Hle. by rewrite bool_decide_true.
  - intros -> Hlt. rewrite bool_decide_false; [done|lia].
Qed.

Lemma update_order_fill_status_witness :
  let o := Demo.order "0x01" "0xbeef" OPEN 100 0 in
  ∃ o', (UPDATE_ORDER_FILL_STMT 60 7 (signature o) [o]).1 !! 0%nat = Some o'
    ∧ amount_fill o' = 60 ∧ state o' = OPEN.
Proof.
  intros o.
  destruct (proj1 (update_order_fill_status 60 7 (signature o) [o])
              0%nat o eq_refl eq_refl) as (o' & Hrow & Hfill & _ & _ & Hopen).
  exists o'. split; [exact Hrow|]. split; [exact Hfill|].
  apply Hopen; [reflexivity|]. rewrite Hfill. reflexivity.
Defined.

(** The scenario of the specification: get-amount 100, fills of 60, 100 and
    then a stale 40. *)
Example fill_scenario :
  let o := Demo.order "0x01" "0xbeef" OPEN 100 0 in
  (λ o', (amount_fill o', state o', updated o'))
    <$> apply_fills (signature o) [(60, 11)] [o] = [(60, OPEN, 11)]
  ∧ (λ o', (amount_fill o', state o', updated o'))
      <$> apply_fills (signature o) [(60, 11); (100, 12)] [o]
    = [(100, FILLED, 12)]
  ∧ (λ o', (amount_fill o', state o', updated o'))
      <$> apply_fills (signature o) [(60, 11); (100, 12); (40, 13)] [o]
    = [(100, FILLED, 13)].
Proof. by vm_compute. Qed.

Lemma apply_fills_cons p3 fill fills (tbl : list order_row) :
  apply_fills p3 (fill :: fills) tbl
  = apply_fills p3 fills (UPDATE_ORDER_FILL_STMT fill.1 fill.2 p3 tbl).1.
Proof. reflexivity. Qed.

Lemma apply_fills_row p3 fills : ∀ (tbl : list order_row) i o,
  tbl !! i = Some o → signature o = p3 →
  ∃ o', apply_fills p3 fills tbl !! i = Some o'
    ∧ signature o' = p3
    ∧ amount_fill o' = max_amount (amount_fill o) fills.*1.
Proof.
  induction fills as [|[a t] fills IH]; intros tbl i o Hi Hsig.
  - exists o. by repeat split.
  - rewrite apply_fills_cons.
    pose proof (UPDATE_ORDER_FILL_hit a t p3 tbl i o Hi Hsig) as Hrow.
    destruct (IH _ _ _ Hrow Hsig) as (o' & Ho' & Hsig' & Hfill).
    exists o'. by repeat split.
Qed.

(** C5: after any sequence of fill updates for an order's signature, with
    amounts [a1 .. an], the stored filled amount is the largest of
    [a1 .. an] and the initial filled amount; and no single fill update,
    for whatever signature, lowers the filled amount of any row. *)
Theorem fill_amount_is_max (tbl : list order_row) i o :
  tbl !! i = Some o →
  (∀ fills, ∃ o', apply_fills (signature o) fills tbl !! i = Some o'
      ∧ amount_fill o' = max_amount (amount_fill o) fills.*1)
  ∧ (∀ p1 p2 p3, ∃ o', (UPDATE_ORDER_FILL_STMT p1 p2 p3 tbl).1 !! i = Some o'
      ∧ amount_fill o ≤ amount_fill o').
Proof.
  intros Hi. split.
  - intros fills.
    destruct (apply_fills_row (signature o) fills tbl i o Hi eq_refl)
      as (o' & Ho' & _ & Hfill).
    by exists o'.
  - intros p1 p2 p3. destruct (decide (signature o = p3)) as [Hsig|Hsig].
    + eexists. split; [by apply UPDATE_ORDER_FILL_hit|]. simpl. lia.
    + exists o. split; [by apply UPDATE_ORDER_FILL_miss|]. lia.
Qed.

Lemma fill_amount_is_max_witness :
  let o := Demo.order "0x01" "0xbeef" OPEN 100 10 in
  ∃ o', apply_fills (signature o) [(60, 11); (30, 12); (80, 13)] [o] !! 0%nat
        = Some o'
    ∧ amount_fill o' = 80.
Proof.
  intros o.
  destruct (proj1 (fill_amount_is_max [o] 0%nat o eq_refl)
              [(60, 11); (30, 12); (80, 13)]) as (o' & Hrow & Hfill).
  exists o'. split; [exact Hrow|]. rewrite Hfill. reflexivity.
Defined.

(** ** The cancellation upsert, statement level *)

Lemma UPSERT_CANCELED_ORDER_fresh row (tbl : list order_row) :
  (∀ o, o ∈ tbl → signature o ≠ signature row) →
  UPSERT_CANCELED_ORDER_STMT row tbl
  = (tbl ++ [row], {| command := "INSERT"; oid := 0; count := 1 |}).
Proof.
  intros Hfresh. unfold UPSERT_CANCELED_ORDER_STMT.
  rewrite decide_False; [done|].
  rewrite Exists_exists. intros (o & Ho & Hsig).
  by apply (Hfresh o Ho).
Qed.

Lemma UPSERT_CANCELED_ORDER_conflict row (tbl : list order_row) i o :
  tbl !! i = Some o → signature o = signature row →
  UPSERT_CANCELED_ORDER_STMT row tbl
  = ((λ o, if decide (upsert_canceled_hits row o)
           then upsert_canceled_row row o else o) <$> tbl,
     {| command := "INSERT"; oid := 0;
        count := length (filter (upsert_canceled_hits row) tbl) |}).
Proof.
  intros Hi Hsig. unfold UPSERT_CANCELED_ORDER_STMT.
  rewrite decide_True; [done|].
  rewrite Exists_exists. exists o. split; [|done].
  by eapply list_elem_of_lookup_2.
Qed.

Lemma UPSERT_CANCELED_ORDER_keeps row (tbl : list order_row) i o :
  tbl !! i = Some o → state o ≠ OPEN →
  (UPSERT_CANCELED_ORDER_STMT row tbl).1 !! i = Some o.
Proof.
  intros Hi Hst. unfold UPSERT_CANCELED_ORDER_STMT. case_decide; simpl.
  - rewrite list_lookup_fmap, Hi. simpl. rewrite decide_False; [done|].
    by intros [_ ?].
  - by apply lookup_app_l_Some.
Qed.

Lemma UPSERT_CANCELED_ORDER_cancels row (tbl : list order_row) i o :
  tbl !! i = Some o → signature o = signature row → state o = OPEN →
  (UPSERT_CANCELED_ORDER_STMT row tbl).1 !! i
  = Some (upsert_canceled_row row o).
Proof.
  intros Hi Hsig Hst.
  rewrite (UPSERT_CANCELED_ORDER_conflict row tbl i o Hi Hsig). simpl.
  rewrite list_lookup_fmap, Hi. simpl. by rewrite decide_True.
Qed.

Lemma terminal_not_OPEN st : terminal st → st ≠ OPEN.
Proof. by intros [-> | ->]. Qed.

(** C1, as stated, fails: a fill update raises the stored filled amount of
    a CANCELED order whose stored amount is below the new one. *)
Lemma terminal_fill_frozen_counterexample :
  ¬ (∀ p1 p2 p3 (tbl : list order_row) i o,
       tbl !! i = Some o → terminal (state o) →
       ∃ o', (UPDATE_ORDER_FILL_STMT p1 p2 p3 tbl).1 !! i = Some o'
         ∧ state o' = state o ∧ amount_fill o' = amount_fill o).
Proof.
  intros Hclaim.
  pose (o := Demo.order "0x01" "0xbeef" CANCELED 100 0).
  destruct (Hclaim 60 7 (signature o) [o] 0%nat o eq_refl (or_intror eq_refl))
    as (o' & Hrow & _ & Hfill).
  vm_compute in Hrow. injection Hrow as <-. vm_compute in Hfill.
  discriminate Hfill.
Qed.

(** ** Running the recorders *)

Section Runs.
Context `{Collaborators}.

Lemma date_of_block_run block w :
  date_of_block block w
  = (traced (CallBlockTimestamp block (block_timestamp (calls w) block)) w,
     block_timestamp (calls w) block).
Proof. reflexivity. Qed.

Lemma record_trade_run contract n ev w :
  record_trade contract n ev w
  = match coerce_to_int (blockNumber ev) with
    | Raise e => (w, Raise e)
    | Ok bn =>
      match coerce_to_int (logIndex ev) with
      | Raise e => (w, Raise e)
      | Ok li =>
        let answer := block_timestamp (calls w) (blockNumber ev) in
        let w1 := traced (CallBlockTimestamp (blockNumber ev) answer) w in
        match answer with
        | Raise e => (w1, Raise e)
        | Ok ts =>
          match result_bind (trade_insert_args ev bn li ts) encode_trade_row with
          | Raise e => (w1, Raise e)
          | Ok row =>
            let ins := INSERT_TRADE_STMT row (trades (db w)) in
            let w2 := traced (ExecInsertTrade row)
                        (on_db (with_trades ins.1) w1) in
            if bool_of_count (count ins.2)
            then (logged DEBUG "recorded trade txid=%s, logidx=%i"
                    [transactionHash ev; PInt li] w2, Ok true)
            else (w2, Ok false)
          end
        end
      end
    end.
Proof.
  unfold record_trade, bind, lift.
  destruct (coerce_to_int (blockNumber ev)) as [bn|]; [|done].
  destruct (coerce_to_int (logIndex ev)) as [li|]; [|done].
  rewrite date_of_block_run. cbv zeta.
  destruct (block_timestamp (calls w) (blockNumber ev)) as [ts|]; [|done].
  destruct (trade_insert_args ev bn li ts) as [a|]; [|done]. simpl.
  unfold execute_INSERT_TRADE, bind, lift.
  destruct (encode_trade_row a) as [row|]; [|done].
  simpl. destruct (INSERT_TRADE_STMT row (trades (db w))) as [tbl st]. simpl.
  by destruct (bool_of_count (count st)).
Qed.

Lemma process_trade_run contract n ev w :
  process_trade contract n ev w
  = let w0 := logged DEBUG "received trade txid=%s" [transactionHash ev] w in
    match record_trade contract n ev w0 with
    | (w1, Raise e) => (w1, Raise e)
    | (w1, Ok false) =>
        (logged DEBUG "duplicate trade txid=%s" [transactionHash ev] w1, Ok tt)
    | (w1, Ok true) =>
        (let* log_index := lift (coerce_to_int (logIndex ev)) in
         let* _ := log INFO "recorded trade txid=%s, logidx=%i"
                     [transactionHash ev; PInt log_index] in
         let* block_number := lift (coerce_to_int (blockNumber ev)) in
         let* order_maker := lift (getitem (args ev) "get") in
         let* tokenGive := lift (getitem (args ev) "tokenGive") in
         let* coin_addr :=
           if bool_decide (tokenGive ≠ PStr ZERO_ADDR)
           then lift (getitem (args ev) "tokenGive")
           else lift (getitem (args ev) "tokenGet") in
         let* affected_orders :=
           fetch_affected_orders order_maker coin_addr block_number in
         let* _ :=
           if bool_decide (0 < length affected_orders)%nat
           then
             let* _ := log DEBUG "updating up to %i orders for trade txid=%s"
                         [PInt (Z.of_nat (length affected_orders));
                          transactionHash ev] in
             update_order_fills contract affected_orders
           else
             log WARN "No orders found for user='%s' and token='%s'"
               [order_maker; coin_addr] in
         log DEBUG "done order updates for txid=%s" [transactionHash ev]) w1
    end.
Proof.
  unfold process_trade. unfold bind at 1. unfold log at 1. unfold bind at 1.
  cbv zeta.
  destruct (record_trade contract n ev _) as [w1 [[|]|e]]; reflexivity.
Qed.

(** *** The trade fact *)

Lemma INSERT_TRADE_conflict row (tbl : list trade_row) :
  Exists (index_trades_on_event_identifier row) tbl →
  INSERT_TRADE_STMT row tbl
  = (tbl, {| command := "INSERT"; oid := 0; count := 0 |}).
Proof. intros Hex. unfold INSERT_TRADE_STMT. by rewrite decide_True. Qed.

Lemma INSERT_TRADE_fresh row (tbl : list trade_row) :
  ¬ Exists (index_trades_on_event_identifier row) tbl →
  INSERT_TRADE_STMT row tbl
  = (tbl ++ [row], {| command := "INSERT"; oid := 0; count := 1 |}).
Proof. intros Hex. unfold INSERT_TRADE_STMT. by rewrite decide_False. Qed.

Lemma index_trades_identifier row o :
  index_trades_on_event_identifier row o
  ↔ trade_identifier o = trade_identifier row.
Proof.
  unfold index_trades_on_event_identifier, trade_identifier. split.
  - intros [-> ->]. done.
  - intros [= -> ->]. done.
Qed.

Lemma trades_conflict_known row (tbl : list trade_row) :
  Exists (index_trades_on_event_identifier row) tbl
  ↔ trade_identifier row ∈ (trade_identifier <$> tbl).
Proof.
  rewrite Exists_exists, list_elem_of_fmap. split.
  - intros (o & Ho & Hid). exists o. split; [|done].
    symmetry. by apply index_trades_identifier.
  - intros (o & Hid & Ho). exists o. split; [done|].
    by apply index_trades_identifier.
Qed.

Lemma trade_row_identifier ev bn li ts row :
  result_bind (trade_insert_args ev bn li ts) encode_trade_row = Ok row →
  ∃ h, toBytes_hexstr (transactionHash ev) = Ok h
    ∧ trade_identifier row = (h, li).
Proof.
  unfold trade_insert_args, encode_trade_row, result_bind.
  repeat (case_match; try discriminate). intros ?. simplify_eq.
  by eexists.
Qed.

Lemma trade_row_any_date ev bn li ts ts' row :
  result_bind (trade_insert_args ev bn li ts) encode_trade_row = Ok row →
  ∃ row', result_bind (trade_insert_args ev bn li ts') encode_trade_row
          = Ok row'
    ∧ trade_identifier row' = trade_identifier row.
Proof.
  unfold trade_insert_args, encode_trade_row, result_bind.
  repeat (case_match; try discriminate).
  all: intros ?; simplify_eq; try congruence; by eexists.
Qed.

Lemma on_db_with_trades_id w :
  on_db (with_trades (trades (db w))) w = w.
Proof. by destruct w as [[? ? ?] ? ?]. Qed.

Lemma bool_of_count_0 : bool_of_count 0 = false.
Proof. reflexivity. Qed.

Lemma bool_of_count_1 : bool_of_count 1 = true.
Proof. reflexivity. Qed.

(** A run of [record_trade] touches neither the orders nor the transfers,
    and makes no call that concerns an order. *)
Lemma record_trade_frame contract n ev w w1 r :
  record_trade contract n ev w = (w1, r) →
  orders (db w1) = orders (db w) ∧ transfers (db w1) = transfers (db w)
  ∧ ∃ new, calls w1 = calls w ++ new ∧ Forall (λ c, order_call c = false) new.
Proof.
  rewrite record_trade_run. cbv zeta.
  repeat (case_match; try discriminate); intros ?; simplify_eq; simpl;
    (split; [done|split; [done|]]).
  all: try (exists []; split; [by rewrite app_nil_r | by constructor]).
  all: try (eexists [_]; split; [done | by repeat constructor]).
  all: eexists [_; _]; split; [by rewrite <- app_assoc | by repeat constructor].
Qed.

(** What a run of [record_trade] that returns has done. *)
Lemma record_trade_returns contract n ev w w1 b :
  record_trade contract n ev w = (w1, Ok b) →
  ∃ bn li ts row h,
    coerce_to_int (blockNumber ev) = Ok bn
    ∧ coerce_to_int (logIndex ev) = Ok li
    ∧ result_bind (trade_insert_args ev bn li ts) encode_trade_row = Ok row
    ∧ toBytes_hexstr (transactionHash ev) = Ok h
    ∧ trade_identifier row = (h, li)
    ∧ (if b
       then ((trade_identifier row ∉ (trade_identifier <$> trades (db w)))
             ∧ trades (db w1) = trades (db w) ++ [row])
       else (trade_identifier row ∈ (trade_identifier <$> trades (db w))
             ∧ db w1 = db w)).
Proof.
  rewrite record_trade_run. cbv zeta.
  destruct (coerce_to_int (blockNumber ev)) as [bn|] eqn:Hbn; [|done].
  destruct (coerce_to_int (logIndex ev)) as [li|] eqn:Hli; [|done].
  destruct (block_timestamp (calls w) (blockNumber ev)) as [ts|]; [|done].
  destruct (result_bind _ encode_trade_row) as [row|] eqn:Hrow; [|done].
  destruct (trade_row_identifier _ _ _ _ _ Hrow) as (h & Hh & Hid).
  intros Hrun. exists bn, li, ts, row, h. do 5 (split; [done|]).
  destruct (decide (Exists (index_trades_on_event_identifier row)
                      (trades (db w)))) as [Hex|Hex].
  - rewrite (INSERT_TRADE_conflict _ _ Hex) in Hrun. simpl in Hrun.
    simplify_eq. split; [by apply trades_conflict_known|].
    simpl. by destruct (db w).
  - rewrite (INSERT_TRADE_fresh _ _ Hex) in Hrun. simpl in Hrun.
    simplify_eq. split; [by rewrite <- trades_conflict_known|done].
Qed.

(** A run of [record_trade] for an event whose fact is already stored. *)
Lemma record_trade_known contract n ev w bn li ts0 row0 :
  coerce_to_int (blockNumber ev) = Ok bn →
  coerce_to_int (logIndex ev) = Ok li →
  result_bind (trade_insert_args ev bn li ts0) encode_trade_row = Ok row0 →
  trade_identifier row0 ∈ (trade_identifier <$> trades (db w)) →
  ∃ w1 r, record_trade contract n ev w = (w1, r)
    ∧ db w1 = db w
    ∧ logs w1 = logs w
    ∧ match block_timestamp (calls w) (blockNumber ev) with
      | Ok ts => r = Ok false
                 ∧ ∃ row, calls w1 = calls w
                            ++ [CallBlockTimestamp (blockNumber ev) (Ok ts);
                                ExecInsertTrade row]
      | Raise e => r = Raise e
                   ∧ calls w1 = calls w
                       ++ [CallBlockTimestamp (blockNumber ev) (Raise e)]
      end.
Proof.
  intros Hbn Hli Hrow0 Hknown. rewrite record_trade_run, Hbn, Hli. cbv zeta.
  destruct (block_timestamp (calls w) (blockNumber ev)) as [ts|e].
  - destruct (trade_row_any_date _ _ _ _ ts _ Hrow0) as (row & -> & Hid).
    rewrite INSERT_TRADE_conflict
      by (apply trades_conflict_known; by rewrite Hid).
    simpl. eexists _, _. split; [done|]. simpl.
    repeat split; [by destruct (db w)|]. exists row. by rewrite <- app_assoc.
  - eexists _, _. by split.
Qed.

(** A run of [process_trade] for an event whose fact is already stored:
    the store is left as it was and no call concerns an order. *)
Lemma process_trade_known contract n ev w bn li ts0 row0 :
  coerce_to_int (blockNumber ev) = Ok bn →
  coerce_to_int (logIndex ev) = Ok li →
  result_bind (trade_insert_args ev bn li ts0) encode_trade_row = Ok row0 →
  trade_identifier row0 ∈ (trade_identifier <$> trades (db w)) →
  ∃ w1 r, process_trade contract n ev w = (w1, r)
    ∧ db w1 = db w
    ∧ (∃ new, calls w1 = calls w ++ new
              ∧ Forall (λ c, order_call c = false) new)
    ∧ match block_timestamp (calls w) (blockNumber ev) with
      | Ok ts =>
          r = Ok tt
          ∧ logs w1 = logs w
              ++ [ {| log_level := DEBUG;
                      log_format := "received trade txid=%s";
                      log_args := [transactionHash ev] |};
                   {| log_level := DEBUG;
                      log_format := "duplicate trade txid=%s";
                      log_args := [transactionHash ev] |} ]
      | Raise e => r = Raise e
      end.
Proof.
  intros Hbn Hli Hrow0 Hknown. rewrite process_trade_run. cbv zeta.
  set (w0 := logged DEBUG "received trade txid=%s" [transactionHash ev] w).
  destruct (record_trade_known contract n ev w0 bn li ts0 row0 Hbn Hli Hrow0
              Hknown) as (w1 & r & -> & Hdb & Hlogs & Hr).
  change (calls w0) with (calls w) in Hr.
  destruct (block_timestamp (calls w) (blockNumber ev)) as [ts|e].
  - destruct Hr as (-> & row & Hcalls). eexists _, _. split; [done|].
    simpl. rewrite Hdb, Hcalls, Hlogs. simpl.
    split; [done|]. split; [|by rewrite <- app_assoc].
    eexists. split; [done|]. by repeat constructor.
  - destruct Hr as (-> & Hcalls). eexists _, _. split; [done|].
    rewrite Hdb, Hcalls. simpl. split; [done|]. split; [|done].
    eexists. split; [done|]. by repeat constructor.
Qed.

End Runs.

(** *** Uniqueness of identifiers *)

Lemma identifier_absent_count {A K} `{EqDecision K} (f : A → K)
    (l : list A) k :
  k ∉ f <$> l → filter (λ x, f x = k) l = [].
Proof.
  induction l as [|x l IH]; [done|]. rewrite fmap_cons, not_elem_of_cons.
  intros [Hne Hnotin]. rewrite filter_cons_False by done. by apply IH.
Qed.

Lemma identifier_present_count {A K} `{EqDecision K} (f : A → K)
    (l : list A) k :
  NoDup (f <$> l) → k ∈ f <$> l →
  length (filter (λ x, f x = k) l) = 1%nat.
Proof.
  induction l as [|x l IH]; [by intros _ ?%elem_of_nil|].
  rewrite fmap_cons, NoDup_cons. intros [Hnotin Hnodup] Hin.
  destruct (decide (f x = k)) as [Heq|Hne].
  - rewrite filter_cons_True by done. simpl.
    rewrite identifier_absent_count; [done|]. by rewrite <- Heq.
  - rewrite filter_cons_False by done. apply IH; [done|].
    apply elem_of_cons in Hin as [Hin|Hin]; [congruence|done].
Qed.

Lemma identifier_fresh_unique {A K} (f : A → K) (l : list A) x :
  NoDup (f <$> l) → f x ∉ f <$> l → NoDup (f <$> (l ++ [x])).
Proof.
  intros Hnodup Hfresh. rewrite fmap_app. apply NoDup_app.
  split; [done|]. split; [|apply NoDup_singleton].
  intros k Hk ->%list_elem_of_singleton. done.
Qed.

(** *** The transfer fact *)

Section TransferRuns.
Context `{Collaborators}.

Lemma record_transfer_run direction ev w :
  record_transfer direction ev w
  = match coerce_to_int (blockNumber ev) with
    | Raise e => (w, Raise e)
    | Ok bn =>
      match coerce_to_int (logIndex ev) with
      | Raise e => (w, Raise e)
      | Ok li =>
        let answer := block_timestamp (calls w) (PInt bn) in
        let w1 := traced (CallBlockTimestamp (PInt bn) answer) w in
        match answer with
        | Raise e => (w1, Raise e)
        | Ok ts =>
          match result_bind (transfer_insert_args direction ev bn li ts)
                  encode_transfer_row with
          | Raise e => (w1, Raise e)
          | Ok row =>
            let ins := INSERT_TRANSFER_STMT row (transfers (db w)) in
            (traced (ExecInsertTransfer row)
               (on_db (with_transfers ins.1) w1),
             Ok (bool_of_count (count ins.2)))
          end
        end
      end
    end.
Proof.
  unfold record_transfer, bind, lift.
  destruct (coerce_to_int (blockNumber ev)) as [bn|]; [|done].
  destruct (coerce_to_int (logIndex ev)) as [li|]; [|done].
  rewrite date_of_block_run. cbv zeta.
  destruct (block_timestamp (calls w) (PInt bn)) as [ts|]; [|done].
  destruct (transfer_insert_args direction ev bn li ts) as [a|]; [|done].
  simpl. unfold execute_INSERT_TRANSFER, bind, lift.
  destruct (encode_transfer_row a) as [row|]; [|done].
  simpl. by destruct (INSERT_TRANSFER_STMT row (transfers (db w))).
Qed.

Lemma record_deposit_run contract n ev w :
  record_deposit contract n ev w
  = match record_transfer "DEPOSIT" ev w with
    | (w1, Raise e) => (w1, Raise e)
    | (w1, Ok false) => (w1, Ok false)
    | (w1, Ok true) =>
        match coerce_to_int (logIndex ev) with
        | Ok li =>
            (logged INFO "recorded deposit txid=%s, logidx=%i"
               [transactionHash ev; PInt li] w1, Ok true)
        | Raise e => (w1, Raise e)
        end
    end.
Proof.
  unfold record_deposit. unfold bind at 1.
  destruct (record_transfer "DEPOSIT" ev w) as [w1 [[|]|e]]; try done.
  unfold bind, lift. by destruct (coerce_to_int (logIndex ev)).
Qed.

Lemma record_withdraw_run contract n ev w :
  record_withdraw contract n ev w
  = match record_transfer "WITHDRAW" ev w with
    | (w1, Raise e) => (w1, Raise e)
    | (w1, Ok false) => (w1, Ok false)
    | (w1, Ok true) =>
        match coerce_to_int (logIndex ev) with
        | Ok li =>
            (logged INFO "recorded withdraw txid=%s, logidx=%i"
               [transactionHash ev; PInt li] w1, Ok true)
        | Raise e => (w1, Raise e)
        end
    end.
Proof.
  unfold record_withdraw. unfold bind at 1.
  destruct (record_transfer "WITHDRAW" ev w) as [w1 [[|]|e]]; try done.
  unfold bind, lift. by destruct (coerce_to_int (logIndex ev)).
Qed.

Lemma INSERT_TRANSFER_conflict row (tbl : list transfer_row) :
  Exists (index_transfers_on_event_identifier row) tbl →
  INSERT_TRANSFER_STMT row tbl
  = (tbl, {| command := "INSERT"; oid := 0; count := 0 |}).
Proof. intros Hex. unfold INSERT_TRANSFER_STMT. by rewrite decide_True. Qed.

Lemma INSERT_TRANSFER_fresh row (tbl : list transfer_row) :
  ¬ Exists (index_transfers_on_event_identifier row) tbl →
  INSERT_TRANSFER_STMT row tbl
  = (tbl ++ [row], {| command := "INSERT"; oid := 0; count := 1 |}).
Proof. intros Hex. unfold INSERT_TRANSFER_STMT. by rewrite decide_False. Qed.

Lemma transfers_conflict_known row (tbl : list transfer_row) :
  Exists (index_transfers_on_event_identifier row) tbl
  ↔ transfer_identifier row ∈ (transfer_identifier <$> tbl).
Proof.
  rewrite Exists_exists, list_elem_of_fmap.
  unfold index_transfers_on_event_identifier, transfer_identifier.
  split; intros (o & Ho1 & Ho2); exists o.
  - destruct Ho2 as [-> ->]. done.
  - by simplify_eq.
Qed.

Lemma transfer_row_identifier direction ev bn li ts row :
  result_bind (transfer_insert_args direction ev bn li ts) encode_transfer_row
  = Ok row →
  ∃ h, toBytes_hexstr (transactionHash ev) = Ok h
    ∧ transfer_identifier row = (h, li).
Proof.
  unfold transfer_insert_args, encode_transfer_row, result_bind.
  repeat (case_match; try discriminate). intros ?. simplify_eq.
  by eexists.
Qed.

Lemma transfer_row_any_date direction direction' ev bn bn' li ts ts' row :
  result_bind (transfer_insert_args direction ev bn li ts) encode_transfer_row
  = Ok row →
  ∃ row', result_bind (transfer_insert_args direction' ev bn' li ts')
            encode_transfer_row = Ok row'
    ∧ transfer_identifier row' = transfer_identifier row.
Proof.
  unfold transfer_insert_args, encode_transfer_row, result_bind.
  repeat (case_match; try discriminate).
  all: intros ?; simplify_eq; try congruence; by eexists.
Qed.

(** A run of [record_transfer] touches neither the orders nor the trades,
    and makes no call that concerns an order. *)
Lemma record_transfer_frame direction ev w w1 r :
  record_transfer direction ev w = (w1, r) →
  orders (db w1) = orders (db w) ∧ trades (db w1) = trades (db w)
  ∧ logs w1 = logs w
  ∧ ∃ new, calls w1 = calls w ++ new ∧ Forall (λ c, order_call c = false) new.
Proof.
  rewrite record_transfer_run. cbv zeta.
  repeat (case_match; try discriminate); intros ?; simplify_eq; simpl;
    (do 3 (split; [done|])).
  all: try (exists []; split; [by rewrite app_nil_r | by constructor]).
  all: try (eexists [_]; split; [done | by repeat constructor]).
  all: eexists [_; _]; split; [by rewrite <- app_assoc | by repeat constructor].
Qed.

(** What a run of [record_transfer] that returns has done. *)
Lemma record_transfer_returns direction ev w w1 b :
  record_transfer direction ev w = (w1, Ok b) →
  ∃ bn li ts row h,
    coerce_to_int (blockNumber ev) = Ok bn
    ∧ coerce_to_int (logIndex ev) = Ok li
    ∧ result_bind (transfer_insert_args direction ev bn li ts)
        encode_transfer_row = Ok row
    ∧ toBytes_hexstr (transactionHash ev) = Ok h
    ∧ transfer_identifier row = (h, li)
    ∧ (if b
       then ((transfer_identifier row
                ∉ (transfer_identifier <$> transfers (db w)))
             ∧ transfers (db w1) = transfers (db w) ++ [row])
       else (transfer_identifier row
               ∈ (transfer_identifier <$> transfers (db w))
             ∧ db w1 = db w)).
Proof.
  rewrite record_transfer_run. cbv zeta.
  destruct (coerce_to_int (blockNumber ev)) as [bn|] eqn:Hbn; [|done].
  destruct (coerce_to_int (logIndex ev)) as [li|] eqn:Hli; [|done].
  destruct (block_timestamp (calls w) (PInt bn)) as [ts|]; [|done].
  destruct (result_bind _ encode_transfer_row) as [row|] eqn:Hrow; [|done].
  destruct (transfer_row_identifier _ _ _ _ _ _ Hrow) as (h & Hh & Hid).
  intros Hrun. exists bn, li, ts, row, h. do 5 (split; [done|]).
  destruct (decide (Exists (index_transfers_on_event_identifier row)
                      (transfers (db w)))) as [Hex|Hex].
  - rewrite (INSERT_TRANSFER_conflict _ _ Hex) in Hrun. simpl in Hrun.
    simplify_eq. split; [by apply transfers_conflict_known|].
    simpl. by destruct (db w).
  - rewrite (INSERT_TRANSFER_fresh _ _ Hex) in Hrun. simpl in Hrun.
    simplify_eq. split; [by rewrite <- transfers_conflict_known|done].
Qed.

(** A run of [record_transfer] for an event whose fact is already stored,
    under whichever direction it was stored. *)
Lemma record_transfer_known direction direction0 ev w bn li ts0 row0 :
  coerce_to_int (blockNumber ev) = Ok bn →
  coerce_to_int (logIndex ev) = Ok li →
  result_bind (transfer_insert_args direction0 ev bn li ts0)
    encode_transfer_row = Ok row0 →
  transfer_identifier row0 ∈ (transfer_identifier <$> transfers (db w)) →
  ∃ w1 r, record_transfer direction ev w = (w1, r)
    ∧ db w1 = db w
    ∧ match block_timestamp (calls w) (PInt bn) with
      | Ok ts => r = Ok false
      | Raise e => r = Raise e
      end.
Proof.
  intros Hbn Hli Hrow0 Hknown. rewrite record_transfer_run, Hbn, Hli.
  cbv zeta.
  destruct (block_timestamp (calls w) (PInt bn)) as [ts|e].
  - destruct (transfer_row_any_date _ direction _ _ bn _ _ ts _ Hrow0)
      as (row & -> & Hid).
    rewrite INSERT_TRANSFER_conflict
      by (apply transfers_conflict_known; by rewrite Hid).
    simpl. eexists _, _. split; [done|]. simpl.
    split; [by destruct (db w)|done].
  - eexists _, _. by split.
Qed.

End TransferRuns.

(** ** Idempotent recording *)

Section Idempotence.
Context `{Collaborators}.

Lemma trade_redelivery contract n ev w w1 b :
  record_trade contract n ev w = (w1, Ok b) →
  trades_unique (trades (db w)) →
  ∃ h li,
    toBytes_hexstr (transactionHash ev) = Ok h
    ∧ coerce_to_int (logIndex ev) = Ok li
    ∧ trades_unique (trades (db w1))
    ∧ length (filter (λ row, trade_identifier row = (h, li))
                (trades (db w1))) = 1%nat
    ∧ ∀ contract' n' w2,
        (∀ row, row ∈ trades (db w1) → row ∈ trades (db w2)) →
        (∃ w3 r, record_trade contract' n' ev w2 = (w3, r)
           ∧ db w3 = db w2
           ∧ r = match block_timestamp (calls w2) (blockNumber ev) with
                 | Ok _ => Ok false
                 | Raise e => Raise e
                 end)
        ∧ (∃ w3 r, process_trade contract' n' ev w2 = (w3, r)
             ∧ db w3 = db w2
             ∧ (∃ new, calls w3 = calls w2 ++ new
                       ∧ Forall (λ c, order_call c = false) new)
             ∧ r = match block_timestamp (calls w2) (blockNumber ev) with
                   | Ok _ => Ok tt
                   | Raise e => Raise e
                   end).
Proof.
  intros Hrun Hunique.
  destruct (record_trade_returns _ _ _ _ _ _ Hrun)
    as (bn & li & ts & row & h & Hbn & Hli & Hrow & Hh & Hid & Hb).
  exists h, li. do 2 (split; [done|]).
  assert (trades_unique (trades (db w1))
          ∧ trade_identifier row ∈ (trade_identifier <$> trades (db w1)))
    as [Hunique1 Hin1].
  { destruct b.
    - destruct Hb as [Hfresh ->]. split.
      + by apply identifier_fresh_unique.
      + rewrite fmap_app. apply elem_of_app. right. by left.
    - destruct Hb as [Hknown ->]. done. }
  split; [done|]. split.
  { rewrite <- Hid. by apply identifier_present_count. }
  intros contract' n' w2 Hgrow.
  assert (trade_identifier row ∈ (trade_identifier <$> trades (db w2)))
    as Hin2.
  { apply list_elem_of_fmap in Hin1 as (row1 & Hid1 & Hrow1).
    apply list_elem_of_fmap. exists row1. split; [done|]. by apply Hgrow. }
  split.
  - destruct (record_trade_known contract' n' ev w2 bn li ts row Hbn Hli Hrow
                Hin2) as (w3 & r & Hrun2 & Hdb & _ & Hr).
    exists w3, r. do 2 (split; [done|]).
    destruct (block_timestamp (calls w2) (blockNumber ev)); by destruct Hr.
  - destruct (process_trade_known contract' n' ev w2 bn li ts row Hbn Hli Hrow
                Hin2) as (w3 & r & Hrun2 & Hdb & Hcalls & Hr).
    exists w3, r. do 3 (split; [done|]).
    destruct (block_timestamp (calls w2) (blockNumber ev)); [by destruct Hr|done].
Qed.

Lemma transfer_redelivery direction ev w w1 b :
  record_transfer direction ev w = (w1, Ok b) →
  transfers_unique (transfers (db w)) →
  ∃ h li bn,
    toBytes_hexstr (transactionHash ev) = Ok h
    ∧ coerce_to_int (logIndex ev) = Ok li
    ∧ coerce_to_int (blockNumber ev) = Ok bn
    ∧ transfers_unique (transfers (db w1))
    ∧ length (filter (λ row, transfer_identifier row = (h, li))
                (transfers (db w1))) = 1%nat
    ∧ ∀ w2,
        (∀ row, row ∈ transfers (db w1) → row ∈ transfers (db w2)) →
        let again {A} (ok : A) : result A :=
          match block_timestamp (calls w2) (PInt bn) with
          | Ok _ => Ok ok
          | Raise e => Raise e
          end in
        (∀ direction', ∃ w3,
            record_transfer direction' ev w2 = (w3, again false)
            ∧ db w3 = db w2)
        ∧ (∀ contract' n', ∃ w3,
            record_deposit contract' n' ev w2 = (w3, again false)
            ∧ db w3 = db w2 ∧ logs w3 = logs w2)
        ∧ (∀ contract' n', ∃ w3,
            record_withdraw contract' n' ev w2 = (w3, again false)
            ∧ db w3 = db w2 ∧ logs w3 = logs w2).
Proof.
  intros Hrun Hunique.
  destruct (record_transfer_returns _ _ _ _ _ Hrun)
    as (bn & li & ts & row & h & Hbn & Hli & Hrow & Hh & Hid & Hb).
  exists h, li, bn. do 3 (split; [done|]).
  assert (transfers_unique (transfers (db w1))
          ∧ transfer_identifier row
              ∈ (transfer_identifier <$> transfers (db w1)))
    as [Hunique1 Hin1].
  { destruct b.
    - destruct Hb as [Hfresh ->]. split.
      + by apply identifier_fresh_unique.
      + rewrite fmap_app. apply elem_of_app. right. by left.
    - destruct Hb as [Hknown ->]. done. }
  split; [done|]. split.
  { rewrite <- Hid. by apply identifier_present_count. }
  intros w2 Hgrow again.
  assert (transfer_identifier row
            ∈ (transfer_identifier <$> transfers (db w2))) as Hin2.
  { apply list_elem_of_fmap in Hin1 as (row1 & Hid1 & Hrow1).
    apply list_elem_of_fmap. exists row1. split; [done|]. by apply Hgrow. }
  assert (∀ direction', ∃ w3,
            record_transfer direction' ev w2 = (w3, again bool false)
            ∧ db w3 = db w2 ∧ logs w3 = logs w2) as Hagain.
  { intros direction'.
    destruct (record_transfer_known direction' direction ev w2 bn li ts row
                Hbn Hli Hrow Hin2) as (w3 & r & Hrun2 & Hdb & Hr).
    exists w3. split; [|split; [done|]].
    - rewrite Hrun2. f_equal. subst again. simpl.
      by destruct (block_timestamp (calls w2) (PInt bn)).
    - by apply record_transfer_frame in Hrun2 as (_ & _ & ? & _). }
  split; [|split].
  - intros direction'. destruct (Hagain direction') as (w3 & ? & ? & _).
    by exists w3.
  - intros contract' n'. destruct (Hagain "DEPOSIT") as (w3 & Hrun2 & ? & ?).
    exists w3. rewrite record_deposit_run, Hrun2. subst again. simpl.
    by destruct (block_timestamp (calls w2) (PInt bn)).
  - intros contract' n'. destruct (Hagain "WITHDRAW") as (w3 & Hrun2 & ? & ?).
    exists w3. rewrite record_withdraw_run, Hrun2. subst again. simpl.
    by destruct (block_timestamp (calls w2) (PInt bn)).
Qed.

(** [process_trade] goes on to the orders only after an insert that
    reported true. *)
Lemma process_trade_gate contract n ev w w1 r :
  record_trade contract n ev
    (logged DEBUG "received trade txid=%s" [transactionHash ev] w) = (w1, r) →
  r ≠ Ok true →
  ∃ w2 r2, process_trade contract n ev w = (w2, r2)
    ∧ db w2 = db w1 ∧ calls w2 = calls w1.
Proof.
  intros Hrun Hr. rewrite process_trade_run. cbv zeta. rewrite Hrun.
  destruct r as [[|]|e]; [done| |]; by eexists _, _.
Qed.

End Idempotence.

Section IdempotenceClaim.
Context `{Collaborators}.

(** C2: a trade or transfer event delivered twice leaves exactly one fact
    row.  Once a delivery of the event has gone through [record_trade]
    (resp. [record_transfer]), the table holds exactly one row with the
    event's (transaction hash, log index); every later delivery, in any
    world that still holds the rows, leaves the whole store as it was and
    reports false (or raises what the timestamp look-up raised); and
    [process_trade] makes no call that concerns an order unless the insert
    reported true, so a duplicate delivery mutates no order. *)
Theorem duplicate_delivery_absorbed :
  (∀ contract n ev w w1 b,
     record_trade contract n ev w = (w1, Ok b) →
     trades_unique (trades (db w)) →
     ∃ h li,
       toBytes_hexstr (transactionHash ev) = Ok h
       ∧ coerce_to_int (logIndex ev) = Ok li
       ∧ trades_unique (trades (db w1))
       ∧ length (filter (λ row, trade_identifier row = (h, li))
                   (trades (db w1))) = 1%nat
       ∧ ∀ contract' n' w2,
           (∀ row, row ∈ trades (db w1) → row ∈ trades (db w2)) →
           (∃ w3 r, record_trade contract' n' ev w2 = (w3, r)
              ∧ db w3 = db w2
              ∧ r = match block_timestamp (calls w2) (blockNumber ev) with
                    | Ok _ => Ok false
                    | Raise e => Raise e
                    end)
           ∧ (∃ w3 r, process_trade contract' n' ev w2 = (w3, r)
                ∧ db w3 = db w2
                ∧ (∃ new, calls w3 = calls w2 ++ new
                          ∧ Forall (λ c, order_call c = false) new)
                ∧ r = match block_timestamp (calls w2) (blockNumber ev) with
                      | Ok _ => Ok tt
                      | Raise e => Raise e
                      end))
  ∧ (∀ contract n ev w w1 r,
       record_trade contract n ev
         (logged DEBUG "received trade txid=%s" [transactionHash ev] w)
       = (w1, r) →
       r ≠ Ok true →
       (∃ new, calls w1 = calls w ++ new
               ∧ Forall (λ c, order_call c = false) new)
       ∧ orders (db w1) = orders (db w)
       ∧ ∃ w2 r2, process_trade contract n ev w = (w2, r2)
           ∧ db w2 = db w1 ∧ calls w2 = calls w1)
  ∧ (∀ direction ev w w1 b,
       record_transfer direction ev w = (w1, Ok b) →
       transfers_unique (transfers (db w)) →
       ∃ h li bn,
         toBytes_hexstr (transactionHash ev) = Ok h
         ∧ coerce_to_int (logIndex ev) = Ok li
         ∧ coerce_to_int (blockNumber ev) = Ok bn
         ∧ transfers_unique (transfers (db w1))
         ∧ length (filter (λ row, transfer_identifier row = (h, li))
                     (transfers (db w1))) = 1%nat
         ∧ ∀ w2,
             (∀ row, row ∈ transfers (db w1) → row ∈ transfers (db w2)) →
             let again {A} (ok : A) : result A :=
               match block_timestamp (calls w2) (PInt bn) with
               | Ok _ => Ok ok
               | Raise e => Raise e
               end in
             (∀ direction', ∃ w3,
                 record_transfer direction' ev w2 = (w3, again false)
                 ∧ db w3 = db w2)
             ∧ (∀ contract' n', ∃ w3,
                 record_deposit contract' n' ev w2 = (w3, again false)
                 ∧ db w3 = db w2 ∧ logs w3 = logs w2)
             ∧ (∀ contract' n', ∃ w3,
                 record_withdraw contract' n' ev w2 = (w3, again false)
                 ∧ db w3 = db w2 ∧ logs w3 = logs w2)).
Proof.
  split; [|split].
  - apply trade_redelivery.
  - intros contract n ev w w1 r Hrun Hr.
    destruct (record_trade_frame _ _ _ _ _ _ Hrun) as (Horders & _ & Hcalls).
    split; [done|]. split; [done|]. by eapply process_trade_gate.
  - apply transfer_redelivery.
Qed.

End IdempotenceClaim.

Lemma duplicate_delivery_absorbed_witness :
  let w1 := (record_trade (H := Demo.collaborators) Demo.contract "Trade"
               Demo.trade (Demo.world [])).1 in
  length (trades (db w1)) = 1%nat
  ∧ ∃ w3, process_trade (H := Demo.collaborators) Demo.contract "Trade"
            Demo.trade w1 = (w3, Ok tt)
      ∧ db w3 = db w1.
Proof.
  intros w1. split; [reflexivity|].
  assert (record_trade (H := Demo.collaborators) Demo.contract "Trade"
            Demo.trade (Demo.world []) = (w1, Ok true)) as Hrun
    by (by vm_compute).
  destruct (proj1 (duplicate_delivery_absorbed (H := Demo.collaborators))
              Demo.contract "Trade" Demo.trade (Demo.world []) w1 true Hrun
              (NoDup_nil_2))
    as (h & li & _ & _ & _ & _ & Hagain).
  destruct (Hagain Demo.contract "Trade" w1 (λ _ Hrow, Hrow))
    as (_ & w3 & r & Hrun2 & Hdb & _ & Hr).
  exists w3. split; [|exact Hdb]. rewrite Hrun2, Hr. reflexivity.
Defined.

(** A deposit delivered twice: one row, and the second delivery returns
    false without logging. *)
Example deposit_delivered_twice :
  let first := record_deposit (H := Demo.collaborators) Demo.contract
                 "Deposit" Demo.deposit (Demo.world []) in
  let second := record_deposit (H := Demo.collaborators) Demo.contract
                  "Deposit" Demo.deposit first.1 in
  first.2 = Ok true ∧ second.2 = Ok false
  ∧ length (transfers (db second.1)) = 1%nat
  ∧ db second.1 = db first.1 ∧ logs second.1 = logs first.1.
Proof. vm_compute. done. Qed.

(** ** Cancellations *)

Section CancelRuns.
Context `{Collaborators}.

Lemma record_cancel_run contract n ev w :
  record_cancel contract n ev w
  = match getitem (args ev) "user" with
    | Raise e => (w, Raise e)
    | Ok _ =>
      match make_order_hash (args ev) with
      | Raise e => (w, Raise e)
      | Ok signature =>
        let answer := block_timestamp (calls w) (blockNumber ev) in
        let w1 := traced (CallBlockTimestamp (blockNumber ev) answer) w in
        match answer with
        | Raise e => (w1, Raise e)
        | Ok date =>
          match cancel_upsert_args (args ev) (cancel_source (args ev))
                  signature date with
          | Raise e => (w1, Raise e)
          | Ok a =>
            match encode_order_row a with
            | Raise e => (w1, Raise e)
            | Ok row =>
              let ups := UPSERT_CANCELED_ORDER_STMT row (orders (db w)) in
              let w2 := traced (ExecUpsertCanceledOrder row)
                          (on_db (with_orders ups.1) w1) in
              if bool_of_count (count ups.2)
              then (logged DEBUG "recorded order cancel signature=%s"
                      [signature] w2, Ok true)
              else (w2, Ok false)
            end
          end
        end
      end
    end.
Proof.
  unfold record_cancel, bind, lift. cbv zeta.
  destruct (getitem (args ev) "user") as [maker|]; [|done].
  destruct (make_order_hash (args ev)) as [signature|]; [|done].
  rewrite date_of_block_run.
  destruct (block_timestamp (calls w) (blockNumber ev)) as [date|]; [|done].
  destruct (cancel_upsert_args _ _ _ _) as [tuple|]; [|done].
  unfold execute_UPSERT_CANCELED_ORDER, bind, lift.
  destruct (encode_order_row tuple) as [row|]; [|done].
  simpl. destruct (UPSERT_CANCELED_ORDER_STMT row (orders (db w))) as [tbl st].
  simpl. by destruct (bool_of_count (count st)).
Qed.

(** The row a cancellation is recorded as, read off the event. *)
Lemma cancel_row_terms order src hash ts a row :
  cancel_upsert_args order src hash ts = Ok a →
  encode_order_row a = Ok row →
  ∃ amount,
    result_bind (getitem order "amountGet") db_numeric = Ok amount
    ∧ toBytes_hexstr hash = Ok (signature row)
    ∧ result_bind (getitem order "tokenGive") toBytes_hexstr
      = Ok (token_give row)
    ∧ result_bind (getitem order "amountGive") db_numeric
      = Ok (amount_give row)
    ∧ result_bind (getitem order "tokenGet") toBytes_hexstr
      = Ok (token_get row)
    ∧ result_bind (getitem order "expires") db_numeric = Ok (expires row)
    ∧ result_bind (getitem order "nonce") db_numeric = Ok (nonce row)
    ∧ result_bind (getitem order "user") toBytes_hexstr = Ok (user row)
    ∧ result_bind (getitem order "v") int = Ok (sig_v row)
    ∧ result_bind (getitem order "r") toBytes_text = Ok (sig_r row)
    ∧ result_bind (getitem order "s") toBytes_text = Ok (sig_s row)
    ∧ source row = src ∧ state row = CANCELED
    ∧ amount_get row = amount ∧ amount_fill row = amount
    ∧ date row = ts ∧ updated row = ts.
Proof.
  unfold cancel_upsert_args, encode_order_row, result_bind.
  repeat (case_match; try discriminate).
  intros ? ?. simplify_eq. eexists. simpl.
  repeat split; first [eassumption | congruence].
Qed.

(** What a run of [record_cancel] that returns has done. *)
Lemma record_cancel_returns contract n ev w w1 b :
  record_cancel contract n ev w = (w1, Ok b) →
  ∃ hash ts a row,
    make_order_hash (args ev) = Ok hash
    ∧ block_timestamp (calls w) (blockNumber ev) = Ok ts
    ∧ cancel_upsert_args (args ev) (cancel_source (args ev)) hash ts = Ok a
    ∧ encode_order_row a = Ok row
    ∧ calls w1 = calls w ++ [CallBlockTimestamp (blockNumber ev) (Ok ts);
                             ExecUpsertCanceledOrder row]
    ∧ orders (db w1) = (UPSERT_CANCELED_ORDER_STMT row (orders (db w))).1
    ∧ trades (db w1) = trades (db w)
    ∧ transfers (db w1) = transfers (db w)
    ∧ b = bool_of_count (count (UPSERT_CANCELED_ORDER_STMT row
                                  (orders (db w))).2).
Proof.
  rewrite record_cancel_run. cbv zeta.
  destruct (getitem (args ev) "user") as [maker|]; [|done].
  destruct (make_order_hash (args ev)) as [hash|]; [|done].
  destruct (block_timestamp (calls w) (blockNumber ev)) as [ts|]; [|done].
  destruct (cancel_upsert_args _ _ _ _) as [a|] eqn:Ha; [|done].
  destruct (encode_order_row a) as [row|] eqn:Hrow; [|done].
  intros Hrun. exists hash, ts, a, row. do 4 (split; [done|]).
  destruct (bool_of_count _) eqn:Hcount; simplify_eq; simpl;
    by rewrite <- app_assoc.
Qed.

(** Without a signature component the tuple cannot be built. *)
Lemma cancel_upsert_args_onchain order src hash ts :
  order !! "r" = None ∨ order !! "r" = Some PNone →
  ∃ e, cancel_upsert_args order src hash ts = Raise e.
Proof.
  intros Hr.
  assert (∃ e, result_bind (getitem order "r") toBytes_text = Raise e)
    as [e He].
  { unfold getitem. destruct Hr as [-> | ->]; by eexists. }
  unfold cancel_upsert_args.
  repeat match goal with
         | |- ∃ e', result_bind ?r _ = Raise e' =>
             destruct r eqn:?; simpl; [try congruence|by eexists]
         end.
Qed.

(** Where the tuple fails when the eight values before [int(order["v"])]
    can be built. *)
Lemma cancel_upsert_args_onchain_site order src hash ts p2 p3 p4 p5 p6 p7 p8
    p9 :
  order !! "r" = None ∨ order !! "r" = Some PNone →
  toBytes_hexstr hash = Ok p2 →
  result_bind (getitem order "tokenGive") toBytes_hexstr = Ok p3 →
  getitem order "amountGive" = Ok p4 →
  result_bind (getitem order "tokenGet") toBytes_hexstr = Ok p5 →
  getitem order "amountGet" = Ok p6 →
  getitem order "expires" = Ok p7 →
  getitem order "nonce" = Ok p8 →
  result_bind (getitem order "user") toBytes_hexstr = Ok p9 →
  cancel_upsert_args order src hash ts
  = match result_bind (getitem order "v") int with
    | Raise e => Raise e
    | Ok _ => match order !! "r" with
              | None => Raise (KeyError "r")
              | Some _ => Raise (TypeError "toBytes")
              end
    end.
Proof.
  intros Hr H2 H3 H4 H5 H6 H7 H8 H9. unfold cancel_upsert_args.
  rewrite H2. simpl. rewrite H3. simpl. rewrite H4. simpl. rewrite H5. simpl.
  rewrite H6. simpl. rewrite H7. simpl. rewrite H8. simpl. rewrite H9. simpl.
  destruct (result_bind (getitem order "v") int); [simpl|done].
  unfold getitem. by destruct Hr as [-> | ->].
Qed.

Lemma cancel_source_OFFCHAIN order :
  cancel_source order = OFFCHAIN ↔ ∃ r, order !! "r" = Some r ∧ r ≠ PNone.
Proof.
  unfold cancel_source. destruct (order !! "r") as [r|].
  - rewrite bool_decide_true by eauto. simpl. case_bool_decide as Hcase.
    + split; [|done]. intros _. exists r. split; [done|congruence].
    + split; [done|]. intros (r' & [= <-] & Hne). congruence.
  - rewrite bool_decide_false by (by intros [? ?]). simpl.
    split; [done|]. by intros (r & ? & _).
Qed.

Lemma cancel_source_ONCHANIN order :
  cancel_source order = ONCHANIN
  ↔ order !! "r" = None ∨ order !! "r" = Some PNone.
Proof.
  split.
  - intros Hsrc. destruct (order !! "r") as [r|] eqn:Hr; [|by left].
    destruct (decide (r = PNone)) as [->|Hne]; [by right|].
    assert (cancel_source order = OFFCHAIN) as Hoff
      by (apply cancel_source_OFFCHAIN; by exists r).
    congruence.
  - intros Hr. destruct (cancel_source order) eqn:Hsrc; [|done].
    apply cancel_source_OFFCHAIN in Hsrc as (r & Hsome & Hne).
    destruct Hr; congruence.
Qed.

(** C8: the provenance of a cancelled order is decided by the signature
    component [r] alone: OFFCHAIN exactly when the event's arguments have a
    key ["r"] whose value is not [None], the on-chain member otherwise; and
    that classification is the [source] of the row the upsert is executed
    with. *)
Theorem cancel_source_by_signature_component :
  (∀ order, cancel_source order = OFFCHAIN
            ↔ ∃ r, order !! "r" = Some r ∧ r ≠ PNone)
  ∧ (∀ order, cancel_source order = ONCHANIN
              ↔ order !! "r" = None ∨ order !! "r" = Some PNone)
  ∧ (∀ order order', order !! "r" = order' !! "r" →
                     cancel_source order = cancel_source order')
  ∧ (∀ contract n ev w w1 b,
       record_cancel contract n ev w = (w1, Ok b) →
       ∃ ts row,
         calls w1 = calls w ++ [CallBlockTimestamp (blockNumber ev) (Ok ts);
                                ExecUpsertCanceledOrder row]
         ∧ source row = cancel_source (args ev)).
Proof.
  split; [apply cancel_source_OFFCHAIN|].
  split; [apply cancel_source_ONCHANIN|]. split.
  - intros order order' Hr. unfold cancel_source. by rewrite Hr.
  - intros contract n ev w w1 b Hrun.
    destruct (record_cancel_returns _ _ _ _ _ _ Hrun)
      as (hash & ts & a & row & _ & _ & Ha & Hrow & Hcalls & _).
    exists ts, row. split; [done|].
    by destruct (cancel_row_terms _ _ _ _ _ _ Ha Hrow)
      as (? & ? & ? & ? & ? & ? & ? & ? & ? & ? & ? & ? & ? & _).
Qed.

(** C9: a cancellation whose arguments lack ["r"], or carry [r = None], is
    classified on-chain, and for it the tuple of upsert arguments cannot be
    built: [record_cancel] raises with the store as it was and without
    having sent any statement to it.  When the eight values before
    [int(order["v"])] can be built, the exception is that of
    [int(order["v"])] or else that of [order["r"]] (a missing key) or of
    [Web3.toBytes(text=None)]. *)
Theorem onchain_cancel_never_persisted contract n ev w :
  args ev !! "r" = None ∨ args ev !! "r" = Some PNone →
  cancel_source (args ev) = ONCHANIN
  ∧ (∀ src hash ts, ∃ e, cancel_upsert_args (args ev) src hash ts = Raise e)
  ∧ (∃ w1 e, record_cancel contract n ev w = (w1, Raise e)
       ∧ db w1 = db w ∧ logs w1 = logs w
       ∧ ∃ new, calls w1 = calls w ++ new
                ∧ Forall (λ c, store_call c = false) new)
  ∧ (∀ src hash ts p2 p3 p4 p5 p6 p7 p8 p9,
       toBytes_hexstr hash = Ok p2 →
       result_bind (getitem (args ev) "tokenGive") toBytes_hexstr = Ok p3 →
       getitem (args ev) "amountGive" = Ok p4 →
       result_bind (getitem (args ev) "tokenGet") toBytes_hexstr = Ok p5 →
       getitem (args ev) "amountGet" = Ok p6 →
       getitem (args ev) "expires" = Ok p7 →
       getitem (args ev) "nonce" = Ok p8 →
       result_bind (getitem (args ev) "user") toBytes_hexstr = Ok p9 →
       cancel_upsert_args (args ev) src hash ts
       = match result_bind (getitem (args ev) "v") int with
         | Raise e => Raise e
         | Ok _ => match args ev !! "r" with
                   | None => Raise (KeyError "r")
                   | Some _ => Raise (TypeError "toBytes")
                   end
         end).
Proof.
  intros Hr. split; [by apply cancel_source_ONCHANIN|].
  split; [intros; by apply cancel_upsert_args_onchain|].
  split; [|intros; by eapply cancel_upsert_args_onchain_site].
  rewrite record_cancel_run. cbv zeta.
  destruct (getitem (args ev) "user") as [maker|e].
  2:{ exists w, e. do 3 (split; [done|]). exists [].
      split; [by rewrite app_nil_r|done]. }
  destruct (make_order_hash (args ev)) as [hash|e].
  2:{ exists w, e. do 3 (split; [done|]). exists [].
      split; [by rewrite app_nil_r|done]. }
  destruct (block_timestamp (calls w) (blockNumber ev)) as [ts|e].
  2:{ eexists _, e. do 3 (split; [done|]). eexists [_].
      split; [done|by repeat constructor]. }
  destruct (cancel_upsert_args_onchain (args ev) (cancel_source (args ev))
              hash ts Hr) as [e ->].
  eexists _, e. do 3 (split; [done|]). eexists [_].
  split; [done|by repeat constructor].
Qed.

End CancelRuns.

Lemma cancel_source_by_signature_component_witness :
  let w1 := (record_cancel (H := Demo.collaborators) Demo.contract "Cancel"
               Demo.cancel_offchain (Demo.world [])).1 in
  ∃ ts row,
    calls w1 = [CallBlockTimestamp (PInt 802) (Ok ts);
                ExecUpsertCanceledOrder row]
    ∧ source row = OFFCHAIN.
Proof.
  intros w1.
  assert (record_cancel (H := Demo.collaborators) Demo.contract "Cancel"
            Demo.cancel_offchain (Demo.world []) = (w1, Ok true)) as Hrun
    by (vm_compute; reflexivity).
  destruct (proj2 (proj2 (proj2 (cancel_source_by_signature_component
                                   (H := Demo.collaborators))))
              Demo.contract "Cancel" Demo.cancel_offchain (Demo.world [])
              w1 true Hrun) as (ts & row & Hcalls & Hsrc).
  exists ts, row. split; [exact Hcalls|]. rewrite Hsrc.
  vm_compute. reflexivity.
Defined.

Lemma onchain_cancel_never_persisted_witness :
  let w := Demo.world [Demo.order "0x01" "0xbeef" OPEN 100 0] in
  ∃ w1 e, record_cancel (H := Demo.collaborators) Demo.contract "Cancel"
            Demo.cancel_onchain w = (w1, Raise e)
    ∧ db w1 = db w.
Proof.
  intros w.
  assert (args Demo.cancel_onchain !! "r" = Some PNone) as Hr
    by (vm_compute; reflexivity).
  destruct (onchain_cancel_never_persisted (H := Demo.collaborators)
              Demo.contract "Cancel" Demo.cancel_onchain w (or_intror Hr))
    as (_ & _ & (w1 & e & Hrun & Hdb & _) & _).
  exists w1, e. split; [exact Hrun|exact Hdb].
Defined.

(** The exception of the on-chain demo event is that of
    [Web3.toBytes(text=None)]. *)
Example onchain_cancel_site :
  (record_cancel (H := Demo.collaborators) Demo.contract "Cancel"
     Demo.cancel_onchain (Demo.world [])).2
  = Raise (TypeError "toBytes").
Proof. vm_compute. reflexivity. Qed.

(** *** Rows with unique signatures *)

Lemma unique_signature_row (tbl : list order_row) i o o' :
  orders_unique tbl → tbl !! i = Some o → o' ∈ tbl →
  signature o' = signature o → o' = o.
Proof.
  intros Hunique Hi [j Hj]%list_elem_of_lookup Hsig.
  assert (i = j) as ->; [|congruence].
  apply (NoDup_lookup (signature <$> tbl) i j (signature o)); [done| |].
  - by rewrite list_lookup_fmap, Hi.
  - rewrite list_lookup_fmap, Hj. simpl. by rewrite Hsig.
Qed.

Lemma filter_none {A} (P : A → Prop) `{!∀ x, Decision (P x)} (l : list A) :
  (∀ x, x ∈ l → ¬ P x) → filter P l = [].
Proof.
  induction l as [|x l IH]; [done|]. intros Hno.
  rewrite filter_cons_False by (apply Hno; left).
  apply IH. intros y Hy. apply Hno. by right.
Qed.

Lemma filter_some {A} (P : A → Prop) `{!∀ x, Decision (P x)} (l : list A) x :
  x ∈ l → P x → (0 < length (filter P l))%nat.
Proof.
  intros Hx HP.
  assert (x ∈ filter P l) as Hin by (by apply list_elem_of_filter).
  destruct (filter P l); [by apply elem_of_nil in Hin|simpl; lia].
Qed.

Lemma fmap_unchanged {A} (f : A → A) (l : list A) :
  (∀ x, x ∈ l → f x = x) → f <$> l = l.
Proof.
  induction l as [|x l IH]; [done|]. intros Hf. rewrite fmap_cons.
  rewrite Hf by left. f_equal. apply IH. intros y Hy. apply Hf. by right.
Qed.

(** With unique signatures, an upsert that meets a row that is not OPEN
    writes nothing. *)
Lemma UPSERT_CANCELED_ORDER_skips row (tbl : list order_row) i o :
  orders_unique tbl → tbl !! i = Some o →
  signature o = signature row → state o ≠ OPEN →
  UPSERT_CANCELED_ORDER_STMT row tbl
  = (tbl, {| command := "INSERT"; oid := 0; count := 0 |}).
Proof.
  intros Hunique Hi Hsig Hst.
  assert (∀ o', o' ∈ tbl → ¬ upsert_canceled_hits row o') as Hno.
  { intros o' Ho' [Hsig' Hopen].
    assert (o' = o) as -> by (eapply unique_signature_row; [done..|congruence]).
    done. }
  rewrite (UPSERT_CANCELED_ORDER_conflict row tbl i o Hi Hsig). f_equal.
  - apply fmap_unchanged. intros o' Ho'. rewrite decide_False; [done|].
    by apply Hno.
  - by rewrite filter_none.
Qed.

Section CancelClaim.
Context `{Collaborators}.

(** A run of [record_cancel] that raises has not touched the store. *)
Lemma record_cancel_raises contract n ev w w1 e :
  record_cancel contract n ev w = (w1, Raise e) → db w1 = db w.
Proof.
  rewrite record_cancel_run. cbv zeta.
  repeat (case_match; try discriminate); intros ?; by simplify_eq.
Qed.

(** C3: [record_cancel] either raises, leaving the store as it was, or
    executes the upsert with the row built from the event's terms; it does
    the latter exactly when the hash, the date and the upsert arguments can
    be obtained.  That row has status CANCELED and a filled amount equal to
    the event's get-amount.  When no row has its signature, it is appended
    and the recorder returns true.  A row with its signature that is OPEN
    becomes CANCELED with the event's get-amount as filled amount (and the
    cancellation's date as [updated]), its other columns as they were, and
    the recorder returns true.  A row with its signature that is FILLED or
    CANCELED is left as it was; with signatures unique, the whole table is
    left as it was and the recorder returns false, without raising. *)
Theorem record_cancel_reconciles contract n ev w :
  (∀ hash ts a row,
     make_order_hash (args ev) = Ok hash →
     block_timestamp (calls w) (blockNumber ev) = Ok ts →
     cancel_upsert_args (args ev) (cancel_source (args ev)) hash ts = Ok a →
     encode_order_row a = Ok row →
     ∃ w1 b amount,
       record_cancel contract n ev w = (w1, Ok b)
       ∧ result_bind (getitem (args ev) "amountGet") db_numeric = Ok amount
       ∧ toBytes_hexstr hash = Ok (signature row)
       ∧ state row = CANCELED
       ∧ amount_get row = amount ∧ amount_fill row = amount
       ∧ updated row = ts
       ∧ trades (db w1) = trades (db w)
       ∧ transfers (db w1) = transfers (db w)
       ∧ ((∀ o, o ∈ orders (db w) → signature o ≠ signature row) →
          orders (db w1) = orders (db w) ++ [row] ∧ b = true)
       ∧ (∀ i o,
            orders (db w) !! i = Some o → signature o = signature row →
            (state o = OPEN →
             ∃ o', orders (db w1) !! i = Some o'
               ∧ state o' = CANCELED ∧ amount_fill o' = amount
               ∧ updated o' = ts ∧ same_terms o o' ∧ b = true)
            ∧ (terminal (state o) →
               orders (db w1) !! i = Some o
               ∧ (orders_unique (orders (db w)) →
                  orders (db w1) = orders (db w) ∧ b = false))))
  ∧ (∀ w1 r,
       record_cancel contract n ev w = (w1, r) →
       match r with
       | Raise _ => db w1 = db w
       | Ok _ =>
           ∃ hash ts a row,
             make_order_hash (args ev) = Ok hash
             ∧ block_timestamp (calls w) (blockNumber ev) = Ok ts
             ∧ cancel_upsert_args (args ev) (cancel_source (args ev)) hash ts
               = Ok a
             ∧ encode_order_row a = Ok row
       end).
Proof.
  split.
  2:{ intros w1 [b|e] Hrun; [|by eapply record_cancel_raises].
      destruct (record_cancel_returns _ _ _ _ _ _ Hrun)
        as (hash & ts & a & row & ? & ? & ? & ? & _).
      by exists hash, ts, a, row. }
  intros hash ts a row Hhash Hts Ha Hrow.
  destruct (cancel_row_terms _ _ _ _ _ _ Ha Hrow)
    as (amount & Hamount & Hsig & _ & _ & _ & _ & _ & Huser & _ & _ & _ & _
        & Hst & Hget & Hfill & _ & Hupd).
  assert (∃ maker, getitem (args ev) "user" = Ok maker) as [maker Hmaker].
  { destruct (getitem (args ev) "user"); [by eexists|done]. }
  set (ups := UPSERT_CANCELED_ORDER_STMT row (orders (db w))).
  assert (∃ w1, record_cancel contract n ev w
                = (w1, Ok (bool_of_count (count ups.2)))
            ∧ db w1 = with_orders ups.1 (db w)) as (w1 & Hrun & Hdb).
  { rewrite record_cancel_run, Hmaker, Hhash. cbv zeta.
    rewrite Hts, Ha, Hrow. fold ups.
    destruct (bool_of_count (count ups.2)); by eexists. }
  exists w1, (bool_of_count (count ups.2)), amount.
  rewrite Hdb. simpl. do 9 (split; [done|]). split.
  - intros Hfresh. subst ups.
    by rewrite (UPSERT_CANCELED_ORDER_fresh _ _ Hfresh).
  - intros i o Hi Hsigo. split.
    + intros Hopen. exists (upsert_canceled_row row o).
      split; [by apply UPSERT_CANCELED_ORDER_cancels|].
      simpl. rewrite Hst, Hfill, Hupd. do 4 (split; [done|]).
      subst ups. rewrite (UPSERT_CANCELED_ORDER_conflict _ _ _ _ Hi Hsigo).
      simpl. unfold bool_of_count.
      assert (0 < length (filter (upsert_canceled_hits row) (orders (db w))))%nat
        as Hpos.
      { apply (filter_some _ _ o); [by eapply list_elem_of_lookup_2|done]. }
      destruct (length _); [lia|done].
    + intros Hterm%terminal_not_OPEN.
      split; [by apply UPSERT_CANCELED_ORDER_keeps|].
      intros Hunique. subst ups.
      by rewrite (UPSERT_CANCELED_ORDER_skips _ _ _ _ Hunique Hi Hsigo Hterm).
Qed.

End CancelClaim.

Lemma record_cancel_reconciles_witness :
  let o := Demo.order "0xbeef" "0xbeef" FILLED 100 100 in
  let w := Demo.world [o] in
  ∃ w1, record_cancel (H := Demo.collaborators) Demo.contract "Cancel"
          Demo.cancel_offchain w = (w1, Ok false)
    ∧ orders (db w1) = [o].
Proof.
  intros o w.
  pose (outcome := encode_order_row (H := Demo.collaborators)
                     (OFFCHAIN, signature o, token_give o, PInt 5, token_get o,
                      PInt 100, PInt 900, PInt 1, user o, CANCELED, 27,
                      String.list_byte_of_string "rr",
                      String.list_byte_of_string "ss", 1500000802, PInt 100,
                      1500000802)).
  destruct outcome as [row|e] eqn:Hrow; [|by vm_compute in Hrow].
  destruct (proj1 (record_cancel_reconciles (H := Demo.collaborators)
                     Demo.contract "Cancel" Demo.cancel_offchain w)
              (PStr "0xbeef") 1500000802 _ row
              ltac:(vm_compute; reflexivity) ltac:(vm_compute; reflexivity)
              ltac:(vm_compute; reflexivity) Hrow)
    as (w1 & b & amount & Hrun & _ & _ & _ & _ & _ & _ & _ & _ & _ & Hold).
  assert (signature o = signature row) as Hsig.
  { vm_compute in Hrow. injection Hrow as <-. vm_compute. reflexivity. }
  destruct (Hold 0%nat o eq_refl Hsig) as [_ Hterm].
  destruct (Hterm (or_introl eq_refl)) as [_ Hskip].
  destruct Hskip as [Htbl ->].
  { apply NoDup_singleton. }
  exists w1. split; [exact Hrun|exact Htbl].
Defined.

(** ** Refreshing fills *)

Section RefreshRuns.
Context `{Collaborators}.

Lemma update_order_fill_run contract order w :
  update_order_fill contract order w
  = let maker := toHex (user order) in
    let answer1 := block_timestamp (calls w) (PStr "latest") in
    let w1 := traced (CallBlockTimestamp (PStr "latest") answer1) w in
    match answer1 with
    | Raise e => (w1, Raise e)
    | Ok ts =>
      let answer2 := orderFills contract (calls w1) maker (signature order) in
      let w2 := traced (CallOrderFills maker (signature order) answer2) w1 in
      match answer2 with
      | Raise e => (w2, Raise e)
      | Ok amount =>
        (traced (ExecUpdateOrderFill amount ts (signature order))
           (on_db (with_orders
                     (UPDATE_ORDER_FILL_STMT amount ts (signature order)
                        (orders (db w))).1) w2),
         Ok tt)
      end
    end.
Proof.
  unfold update_order_fill, bind. cbv zeta. rewrite date_of_block_run.
  destruct (block_timestamp (calls w) (PStr "latest")) as [ts|]; [|done].
  unfold order_fills, toBytes_primitive.
  by destruct (orderFills contract _ _ _).
Qed.

Lemma update_order_fills_cons contract order rest w :
  update_order_fills contract (order :: rest) w
  = match update_order_fill contract order w with
    | (w1, Ok _) => update_order_fills contract rest w1
    | (w1, Raise e) => (w1, Raise e)
    end.
Proof. reflexivity. Qed.

Lemma fetch_affected_orders_run order_maker coin_addr expiring_at w :
  fetch_affected_orders order_maker coin_addr expiring_at w
  = match toBytes_hexstr order_maker with
    | Raise e => (w, Raise e)
    | Ok p1 =>
      match toBytes_hexstr coin_addr with
      | Raise e => (w, Raise e)
      | Ok p2 =>
        (traced (ExecFetchAffectedOrders p1 p2 expiring_at) w,
         Ok (FETCH_AFFECTED_ORDERS_STMT p1 p2 expiring_at (orders (db w))))
      end
    end.
Proof.
  unfold fetch_affected_orders, bind, lift.
  destruct (toBytes_hexstr order_maker); [|done].
  by destruct (toBytes_hexstr coin_addr).
Qed.

Lemma UPDATE_ORDER_FILL_row p1 p2 p3 (tbl : list order_row) i o :
  tbl !! i = Some o →
  ∃ o', (UPDATE_ORDER_FILL_STMT p1 p2 p3 tbl).1 !! i = Some o'
    ∧ (signature o = p3 →
       updated o' = p2 ∧ same_terms o o'
       ∧ amount_fill o' = Z.max (amount_fill o) p1
       ∧ (terminal (state o) → state o' = state o))
    ∧ (signature o ≠ p3 → o' = o).
Proof.
  intros Hi. destruct (decide (signature o = p3)) as [Hsig|Hsig].
  - exists (update_order_fill_row p1 p2 o).
    split; [by apply UPDATE_ORDER_FILL_hit|]. split; [|done]. intros _.
    split; [done|]. split; [apply update_order_fill_row_terms|].
    split; [done|]. rewrite update_order_fill_row_state.
    by intros [-> | ->].
  - exists o. split; [by apply UPDATE_ORDER_FILL_miss|]. done.
Qed.

(** C10: every execution of the fill update overwrites [updated] with the
    new timestamp on each row whose signature matches, whatever the row's
    status, also when status and filled amount stay as they were; the
    other columns of such a row, apart from [amount_fill], [state] and
    [updated], are as they were; rows with another signature are not
    touched.  In a turn of [update_order_fills] the timestamp written is
    the one looked up for ["latest"]. *)
Theorem update_order_fill_touches_updated :
  (∀ p1 p2 p3 (tbl : list order_row) i o,
     tbl !! i = Some o →
     ∃ o', (UPDATE_ORDER_FILL_STMT p1 p2 p3 tbl).1 !! i = Some o'
       ∧ (signature o = p3 →
          updated o' = p2 ∧ same_terms o o'
          ∧ (terminal (state o) → p1 ≤ amount_fill o →
             state o' = state o ∧ amount_fill o' = amount_fill o))
       ∧ (signature o ≠ p3 → o' = o))
  ∧ (∀ contract order w w1,
       update_order_fill contract order w = (w1, Ok tt) →
       ∃ ts, block_timestamp (calls w) (PStr "latest") = Ok ts
         ∧ trades (db w1) = trades (db w)
         ∧ transfers (db w1) = transfers (db w)
         ∧ ∀ i o, orders (db w) !! i = Some o →
             ∃ o', orders (db w1) !! i = Some o'
               ∧ (signature o = signature order →
                  updated o' = ts ∧ same_terms o o')
               ∧ (signature o ≠ signature order → o' = o)).
Proof.
  split.
  - intros p1 p2 p3 tbl i o Hi.
    destruct (UPDATE_ORDER_FILL_row p1 p2 p3 tbl i o Hi)
      as (o' & Hrow & Hhit & Hmiss).
    exists o'. split; [done|]. split; [|done]. intros Hsig.
    destruct (Hhit Hsig) as (Hupd & Hterms & Hfill & Hst).
    do 2 (split; [done|]). intros Hterm Hle. split; [by apply Hst|]. lia.
  - intros contract order w w1. rewrite update_order_fill_run. cbv zeta.
    destruct (block_timestamp (calls w) (PStr "latest")) as [ts|]; [|done].
    destruct (orderFills contract _ _ _) as [amount|]; [|done].
    intros [= <-]. exists ts. simpl. do 3 (split; [done|]). intros i o Hi.
    destruct (UPDATE_ORDER_FILL_row amount ts (signature order) _ i o Hi)
      as (o' & Hrow & Hhit & Hmiss).
    exists o'. split; [done|]. split; [|done]. intros Hsig.
    by destruct (Hhit Hsig) as (? & ? & _).
Qed.

End RefreshRuns.

Lemma update_order_fill_touches_updated_witness :
  let o := Demo.order "0x01" "0xbeef" FILLED 100 100 in
  ∃ o', (UPDATE_ORDER_FILL_STMT 40 1500000999 (signature o) [o]).1 !! 0%nat
        = Some o'
    ∧ updated o' = 1500000999 ∧ state o' = FILLED ∧ amount_fill o' = 100.
Proof.
  intros o.
  destruct (proj1 (update_order_fill_touches_updated (H := Demo.collaborators))
              40 1500000999 (signature o) [o] 0%nat o eq_refl)
    as (o' & Hrow & Hhit & _).
  destruct (Hhit eq_refl) as (Hupd & _ & Hsame).
  destruct (Hsame (or_introl eq_refl) ltac:(vm_compute; discriminate))
    as [Hst Hfill].
  exists o'. split; [exact Hrow|]. split; [exact Hupd|].
  split; [exact Hst|exact Hfill].
Defined.

Section RefreshClaim.
Context `{Collaborators}.

Lemma refresh_step_calls (history : list call) order ts amount :
  ((history ++ [CallBlockTimestamp (PStr "latest") (Ok ts)])
     ++ [CallOrderFills (toHex (user order)) (signature order) (Ok amount)])
    ++ [ExecUpdateOrderFill amount ts (signature order)]
  = history ++ refresh_calls order ts amount.
Proof. unfold refresh_calls. by rewrite <- !app_assoc. Qed.

(** C7: [update_order_fills] goes through the affected orders in turn.  A
    completed turn makes exactly one fill look-up, keyed by the order's
    maker and signature, and then executes the fill update with the amount
    that look-up returned and the timestamp looked up for ["latest"].  A
    run that returns has completed one turn per order.  A run that raises
    has completed the turns of the orders before the failing one; the turn
    of the failing order ends at the failed look-up, with no statement sent
    to the store, so the rows of its signature are as the completed turns
    left them (as they were at the start when no earlier affected order
    shares its signature). *)
Theorem update_order_fills_refreshes contract affected w w1 r :
  update_order_fills contract affected w = (w1, r) →
  ∃ answers : list (Z * Z),
    (length answers ≤ length affected)%nat
    ∧ orders (db w1) = refresh_rows affected answers (orders (db w))
    ∧ trades (db w1) = trades (db w)
    ∧ transfers (db w1) = transfers (db w)
    ∧ logs w1 = logs w
    ∧ (∀ k order ts amount,
         affected !! k = Some order → answers !! k = Some (ts, amount) →
         let history :=
           calls w ++ refresh_trace (take k affected) (take k answers) in
         block_timestamp history (PStr "latest") = Ok ts
         ∧ orderFills contract
             (history ++ [CallBlockTimestamp (PStr "latest") (Ok ts)])
             (toHex (user order)) (signature order) = Ok amount)
    ∧ match r with
      | Ok _ =>
          length answers = length affected
          ∧ calls w1 = calls w ++ refresh_trace affected answers
      | Raise e =>
          ∃ failing tail,
            affected !! length answers = Some failing
            ∧ calls w1 = calls w ++ refresh_trace affected answers ++ tail
            ∧ (tail = [CallBlockTimestamp (PStr "latest") (Raise e)]
               ∨ ∃ ts, tail = [CallBlockTimestamp (PStr "latest") (Ok ts);
                               CallOrderFills (toHex (user failing))
                                 (signature failing) (Raise e)])
            ∧ (∀ i o,
                 orders (db w) !! i = Some o →
                 signature o = signature failing →
                 Forall (λ o', signature o' ≠ signature failing)
                   (take (length answers) affected) →
                 orders (db w1) !! i = Some o)
      end.
Proof.
  revert w. induction affected as [|order rest IH]; intros w.
  { intros [= <- <-]. exists []. simpl. rewrite app_nil_r.
    repeat split; done. }
  rewrite update_order_fills_cons, update_order_fill_run. cbv zeta.
  destruct (block_timestamp (calls w) (PStr "latest")) as [ts|e] eqn:Hts.
  2:{ intros [= <- <-]. exists []. simpl. do 5 (split; [lia || done|]).
      split; [intros k o ts amount _ Hk; by destruct k|].
      exists order, [CallBlockTimestamp (PStr "latest") (Raise e)].
      do 2 (split; [done|]). split; [by left|]. by intros. }
  destruct (orderFills contract _ _ _) as [amount|e] eqn:Hamount.
  2:{ intros [= <- <-]. exists []. simpl. do 5 (split; [lia || done|]).
      split; [intros k o ts' amount _ Hk; by destruct k|].
      eexists order, [_; _]. split; [done|].
      split; [by rewrite <- app_assoc|]. split; [right; by exists ts|].
      by intros. }
  intros Hrun.
  destruct (IH _ Hrun)
    as (answers & Hlen & Hrows & Htrades & Htransfers & Hlogs & Hanswers & Hr).
  clear IH. simpl in Hrows, Htrades, Htransfers, Hlogs, Hanswers, Hr, Hamount.
  rewrite refresh_step_calls in Hanswers, Hr.
  exists ((ts, amount) :: answers). simpl.
  split; [lia|]. do 4 (split; [done|]). split.
  - intros [|k] o ts' amount' Hk Hanswer; simpl in Hk, Hanswer.
    + simplify_eq. simpl. rewrite app_nil_r. done.
    + destruct (Hanswers k o ts' amount' Hk Hanswer) as [Hts' Hamount'].
      unfold refresh_calls in Hts', Hamount'.
      rewrite <- !app_assoc in Hts'. rewrite <- !app_assoc in Hamount'.
      simpl in Hts', Hamount'. simpl. rewrite <- app_assoc. simpl. done.
  - unfold refresh_calls in Hr. destruct r as [[]|e].
    + destruct Hr as [Hlen' Hcalls]. split; [by f_equal|].
      rewrite Hcalls. by rewrite <- !app_assoc.
    + destruct Hr as (failing & tail & Hfailing & Hcalls & Htail & Hkept).
      exists failing, tail. split; [done|].
      split; [rewrite Hcalls; by rewrite <- !app_assoc|]. split; [done|].
      intros i o Hi Hsig Hdistinct.
      apply Forall_cons in Hdistinct as [Hne Hdistinct].
      apply Hkept; [|done..].
      apply UPDATE_ORDER_FILL_miss; [done|congruence].
Qed.

End RefreshClaim.

Lemma update_order_fills_refreshes_witness :
  let o1 := Demo.order "0x01" "0xbeef" OPEN 100 0 in
  let o2 := Demo.order "0x02" "0xdead" OPEN 100 0 in
  let w := Demo.world [o1; o2] in
  let w1 := (update_order_fills (H := Demo.collaborators) Demo.contract
               [o1; o2] w).1 in
  ∃ answers : list (Z * Z),
    (length answers ≤ 2)%nat
    ∧ orders (db w1) = refresh_rows [o1; o2] answers [o1; o2].
Proof.
  intros o1 o2 w w1.
  destruct (update_order_fills_refreshes (H := Demo.collaborators)
              Demo.contract [o1; o2] w w1 (Raise (OtherError "orderFills"))
              ltac:(vm_compute; reflexivity))
    as (answers & Hlen & Hrows & _).
  exists answers. split; [exact Hlen|exact Hrows].
Defined.

(** A run in which the second look-up fails: the first order is refreshed
    to the looked-up 60, the second is as it was, and the trace ends at the
    failed look-up. *)
Example refresh_stops_at_failed_lookup :
  let o1 := Demo.order "0x01" "0xbeef" OPEN 100 0 in
  let o2 := Demo.order "0x02" "0xdead" OPEN 100 0 in
  let run := update_order_fills (H := Demo.collaborators) Demo.contract
               [o1; o2] (Demo.world [o1; o2]) in
  run.2 = Raise (OtherError "orderFills")
  ∧ (λ o, (amount_fill o, state o, updated o)) <$> orders (db run.1)
    = [(60, OPEN, 1500000000); (0, OPEN, 1500000000)]
  ∧ calls run.1
    = [CallBlockTimestamp (PStr "latest") (Ok 1500000000);
       CallOrderFills "0xbeef" (signature o1) (Ok 60);
       ExecUpdateOrderFill 60 1500000000 (signature o1);
       CallBlockTimestamp (PStr "latest") (Ok 1500000003);
       CallOrderFills "0xdead" (signature o2)
         (Raise (OtherError "orderFills"))].
Proof. vm_compute. done. Qed.

(** ** Locating the affected orders *)

Section LocatorClaim.
Context `{Collaborators}.

Lemma getitem_Ok (d : gmap string pyval) k x :
  getitem d k = Ok x ↔ d !! k = Some x.
Proof. unfold getitem. destruct (d !! k); naive_solver. Qed.

(** What the tuple of a recorded trade says of the event's arguments. *)
Lemma trade_args_decoded ev bn li ts row :
  result_bind (trade_insert_args ev bn li ts) encode_trade_row = Ok row →
  ∃ tokenGive tokenGet maker,
    args ev !! "tokenGive" = Some tokenGive
    ∧ toBytes_hexstr tokenGive = Ok (trade_token_give row)
    ∧ args ev !! "tokenGet" = Some tokenGet
    ∧ toBytes_hexstr tokenGet = Ok (trade_token_get row)
    ∧ args ev !! "get" = Some maker
    ∧ toBytes_hexstr maker = Ok (trade_addr_get row).
Proof.
  unfold trade_insert_args, encode_trade_row, result_bind.
  repeat (case_match; try discriminate). intros ?. simplify_eq.
  eexists _, _, _. rewrite <- !getitem_Ok. by repeat split.
Qed.

Lemma FETCH_AFFECTED_ORDERS_spec p1 p2 p3 (tbl : list order_row) o :
  o ∈ FETCH_AFFECTED_ORDERS_STMT p1 p2 p3 tbl
  ↔ o ∈ tbl ∧ user o = p1 ∧ (token_give o = p2 ∨ token_get o = p2)
    ∧ p3 ≤ expires o.
Proof.
  unfold FETCH_AFFECTED_ORDERS_STMT. rewrite list_elem_of_filter.
  unfold affected_by. split.
  - by intros [(Hu & Ht & He) Hin].
  - by intros (Hin & Hu & Ht & He).
Qed.

(** C6: for a newly inserted trade the affected-order query is made with
    the maker of the trade, with the trade's get-token when its give-token
    is the zero address and with its give-token otherwise, and with the
    trade's block number; the query returns exactly the stored orders of
    that user that give or get that token and expire at or after that
    block.  When none is found, [process_trade] logs a warning and ends:
    the query is its last call and the store is as the insert left it.
    Otherwise it hands the orders found to [update_order_fills]. *)
Theorem affected_orders_located :
  (∀ order_maker coin_addr expiring_at w p1 p2,
     toBytes_hexstr order_maker = Ok p1 →
     toBytes_hexstr coin_addr = Ok p2 →
     ∃ found,
       fetch_affected_orders order_maker coin_addr expiring_at w
       = (traced (ExecFetchAffectedOrders p1 p2 expiring_at) w, Ok found)
       ∧ ∀ o, o ∈ found
              ↔ o ∈ orders (db w) ∧ user o = p1
                ∧ (token_give o = p2 ∨ token_get o = p2)
                ∧ expiring_at ≤ expires o)
  ∧ (∀ contract n ev w w1,
       record_trade contract n ev
         (logged DEBUG "received trade txid=%s" [transactionHash ev] w)
       = (w1, Ok true) →
       ∃ bn li maker tokenGive tokenGet p1 p2,
         coerce_to_int (blockNumber ev) = Ok bn
         ∧ coerce_to_int (logIndex ev) = Ok li
         ∧ args ev !! "get" = Some maker
         ∧ args ev !! "tokenGive" = Some tokenGive
         ∧ args ev !! "tokenGet" = Some tokenGet
         ∧ toBytes_hexstr maker = Ok p1
         ∧ let coin_addr :=
             if decide (tokenGive = PStr ZERO_ADDR)
             then tokenGet else tokenGive in
           toBytes_hexstr coin_addr = Ok p2
           ∧ let w2 :=
               traced (ExecFetchAffectedOrders p1 p2 bn)
                 (logged INFO "recorded trade txid=%s, logidx=%i"
                    [transactionHash ev; PInt li] w1) in
             let affected :=
               FETCH_AFFECTED_ORDERS_STMT p1 p2 bn (orders (db w1)) in
             (affected = [] →
              process_trade contract n ev w
              = (logged DEBUG "done order updates for txid=%s"
                   [transactionHash ev]
                   (logged WARN "No orders found for user='%s' and token='%s'"
                      [maker; coin_addr] w2),
                 Ok tt))
             ∧ (affected ≠ [] →
                process_trade contract n ev w
                = match
                    update_order_fills contract affected
                      (logged DEBUG
                         "updating up to %i orders for trade txid=%s"
                         [PInt (Z.of_nat (length affected));
                          transactionHash ev] w2)
                  with
                  | (w3, Ok _) =>
                      (logged DEBUG "done order updates for txid=%s"
                         [transactionHash ev] w3, Ok tt)
                  | (w3, Raise e) => (w3, Raise e)
                  end)).
Proof.
  split.
  - intros order_maker coin_addr expiring_at w p1 p2 Hp1 Hp2.
    eexists. rewrite fetch_affected_orders_run, Hp1, Hp2.
    split; [done|]. intros o. apply FETCH_AFFECTED_ORDERS_spec.
  - intros contract n ev w w1 Hrun.
    destruct (record_trade_returns _ _ _ _ _ _ Hrun)
      as (bn & li & ts & row & h & Hbn & Hli & Hrow & _).
    destruct (trade_args_decoded _ _ _ _ _ Hrow)
      as (tokenGive & tokenGet & maker & Hgive & Hp4 & Hget & Hp6 & Hmaker
          & Hp9).
    exists bn, li, maker, tokenGive, tokenGet, (trade_addr_get row).
    exists (if decide (tokenGive = PStr ZERO_ADDR)
            then trade_token_get row else trade_token_give row).
    do 6 (split; [done|]). cbv zeta.
    split; [by destruct (decide (tokenGive = PStr ZERO_ADDR))|].
    rewrite process_trade_run. cbv zeta. rewrite Hrun.
    apply getitem_Ok in Hgive, Hget, Hmaker.
    unfold bind, lift, log. rewrite Hli, Hbn, Hmaker, Hgive.
    cbn -[fetch_affected_orders update_order_fills].
    destruct (decide (tokenGive = PStr ZERO_ADDR)) as [Hzero|Hzero].
    + rewrite bool_decide_false by (by intros ?). rewrite Hget.
      rewrite fetch_affected_orders_run, Hp9, Hp6.
      cbn -[update_order_fills FETCH_AFFECTED_ORDERS_STMT]. split.
      * intros ->. by rewrite bool_decide_false by (simpl; lia).
      * intros Hsome. rewrite bool_decide_true; [done|].
        destruct (FETCH_AFFECTED_ORDERS_STMT _ _ _ _); [done|simpl; lia].
    + rewrite bool_decide_true by done.
      rewrite fetch_affected_orders_run, Hp9, Hp4.
      cbn -[update_order_fills FETCH_AFFECTED_ORDERS_STMT]. split.
      * intros ->. by rewrite bool_decide_false by (simpl; lia).
      * intros Hsome. rewrite bool_decide_true; [done|].
        destruct (FETCH_AFFECTED_ORDERS_STMT _ _ _ _); [done|simpl; lia].
Qed.

End LocatorClaim.

Lemma affected_orders_located_witness :
  ∃ w3, process_trade (H := Demo.collaborators) Demo.contract "Trade"
          Demo.trade (Demo.world []) = (w3, Ok tt).
Proof.
  pose (w1 := (record_trade (H := Demo.collaborators) Demo.contract "Trade"
                 Demo.trade
                 (logged DEBUG "received trade txid=%s"
                    [transactionHash Demo.trade] (Demo.world []))).1).
  assert (record_trade (H := Demo.collaborators) Demo.contract "Trade"
            Demo.trade
            (logged DEBUG "received trade txid=%s"
               [transactionHash Demo.trade] (Demo.world []))
          = (w1, Ok true)) as Hrun by (vm_compute; reflexivity).
  destruct (proj2 (affected_orders_located (H := Demo.collaborators))
              Demo.contract "Trade" Demo.trade (Demo.world []) w1 Hrun)
    as (bn & li & maker & tokenGive & tokenGet & p1 & p2 & _ & _ & _ & _ & _
        & _ & _ & Hnone & _).
  eexists. apply Hnone. reflexivity.
Defined.

(** The maker's order in the traded token is found and refreshed; the order
    of another maker is not.  The query is made with the give-token
    ["0xaa"], which is not the zero address. *)
Example trade_refreshes_makers_order :
  let mine := Demo.order "0x01" "0xbeef" OPEN 100 0 in
  let other := Demo.order "0x02" "0xf00d" OPEN 100 0 in
  let run := process_trade (H := Demo.collaborators) Demo.contract "Trade"
               Demo.trade (Demo.world [mine; other]) in
  run.2 = Ok tt
  ∧ (λ o, (amount_fill o, state o)) <$> orders (db run.1)
    = [(60, OPEN); (0, OPEN)]
  ∧ filter (λ c, order_call c = true) (calls run.1)
    = [ExecFetchAffectedOrders (user mine) (token_give mine) 800;
       CallOrderFills "0xbeef" (signature mine) (Ok 60);
       ExecUpdateOrderFill 60 1500000003 (signature mine)].
Proof. vm_compute. done. Qed.

(** When the give-token is the zero address the query is made with the
    get-token. *)
Example trade_in_native_asset_selects_get_token :
  let ev := {| blockNumber := PInt 800;
               transactionHash := PStr "0xabd";
               logIndex := PInt 4;
               args := <["tokenGive" := PStr ZERO_ADDR]>
                       (<["tokenGet" := PStr "0xaa"]> (args Demo.trade)) |} in
  let run := process_trade (H := Demo.collaborators) Demo.contract "Trade"
               ev (Demo.world []) in
  filter (λ c, order_call c = true) (calls run.1)
  = [ExecFetchAffectedOrders (String.list_byte_of_string "0xbeef")
       (String.list_byte_of_string "0xaa") 800].
Proof. vm_compute. done. Qed.

(** ** Terminal states *)

Lemma same_terms_trans o1 o2 o3 :
  same_terms o1 o2 → same_terms o2 o3 → same_terms o1 o3.
Proof. unfold same_terms. intuition congruence. Qed.

Lemma same_terms_refl o : same_terms o o.
Proof. by repeat split. Qed.

Lemma UPDATE_ORDER_FILL_signatures p1 p2 p3 (tbl : list order_row) :
  signature <$> (UPDATE_ORDER_FILL_STMT p1 p2 p3 tbl).1 = signature <$> tbl.
Proof.
  simpl. rewrite <- list_fmap_compose. apply list_fmap_ext.
  intros i o _. simpl. by case_decide.
Qed.

(** The unique constraint on signatures survives both order statements. *)
Lemma orders_unique_preserved row p1 p2 p3 (tbl : list order_row) :
  orders_unique tbl →
  orders_unique (UPDATE_ORDER_FILL_STMT p1 p2 p3 tbl).1
  ∧ orders_unique (UPSERT_CANCELED_ORDER_STMT row tbl).1.
Proof.
  unfold orders_unique. intros Hunique. split.
  - by rewrite UPDATE_ORDER_FILL_signatures.
  - unfold UPSERT_CANCELED_ORDER_STMT. case_decide as Hconflict; simpl.
    + rewrite <- list_fmap_compose.
      erewrite list_fmap_ext; [done|].
      intros i o _. simpl. by case_decide.
    + apply identifier_fresh_unique; [done|].
      intros (o & Hsig & Ho)%list_elem_of_fmap. apply Hconflict.
      apply Exists_exists. by exists o.
Qed.

Section TerminalRuns.
Context `{Collaborators}.

Lemma record_cancel_keeps_terminal contract n ev w w1 r i o :
  record_cancel contract n ev w = (w1, r) →
  orders (db w) !! i = Some o → terminal (state o) →
  orders (db w1) !! i = Some o.
Proof.
  intros Hrun Hi Hterm%terminal_not_OPEN. revert Hrun.
  rewrite record_cancel_run. cbv zeta.
  repeat (case_match; try discriminate); intros ?; simplify_eq; simpl;
    try done.
  all: by apply UPSERT_CANCELED_ORDER_keeps.
Qed.

Lemma update_order_fill_keeps_status contract order w w1 r i o :
  update_order_fill contract order w = (w1, r) →
  orders (db w) !! i = Some o →
  ∃ o', orders (db w1) !! i = Some o'
    ∧ amount_fill o ≤ amount_fill o' ∧ same_terms o o'
    ∧ (terminal (state o) → state o' = state o).
Proof.
  rewrite update_order_fill_run. cbv zeta. intros Hrun Hi.
  assert (∃ o', orders (db w) !! i = Some o'
            ∧ amount_fill o ≤ amount_fill o' ∧ same_terms o o'
            ∧ (terminal (state o) → state o' = state o)) as Hsame.
  { exists o. split; [done|]. split; [lia|]. split; [|done].
    apply same_terms_refl. }
  destruct (block_timestamp (calls w) (PStr "latest")) as [ts|];
    [|by simplify_eq].
  destruct (orderFills contract _ _ _) as [amount|]; [|by simplify_eq].
  simplify_eq. simpl.
  destruct (UPDATE_ORDER_FILL_row amount ts (signature order) _ i o Hi)
    as (o' & Hrow & Hhit & Hmiss).
  exists o'. split; [done|].
  destruct (decide (signature o = signature order)) as [Hsig|Hsig].
  - destruct (Hhit Hsig) as (_ & Hterms & Hfill & Hst).
    split; [lia|]. done.
  - rewrite (Hmiss Hsig). split; [lia|]. split; [|done].
    apply same_terms_refl.
Qed.

Lemma update_order_fills_keeps_status contract affected :
  ∀ w w1 r i o,
    update_order_fills contract affected w = (w1, r) →
    orders (db w) !! i = Some o →
    ∃ o', orders (db w1) !! i = Some o'
      ∧ amount_fill o ≤ amount_fill o' ∧ same_terms o o'
      ∧ (terminal (state o) → state o' = state o).
Proof.
  induction affected as [|order rest IH]; intros w w1 r i o.
  { intros [= <- <-] Hi. exists o. split; [done|]. split; [lia|].
    split; [apply same_terms_refl|done]. }
  rewrite update_order_fills_cons.
  destruct (update_order_fill contract order w) as [w2 [[]|e]] eqn:Hstep;
    intros Hrun Hi;
    destruct (update_order_fill_keeps_status _ _ _ _ _ _ _ Hstep Hi)
      as (o2 & Hi2 & Hfill2 & Hterms2 & Hst2).
  - destruct (IH _ _ _ _ _ Hrun Hi2) as (o' & Hi' & Hfill' & Hterms' & Hst').
    exists o'. split; [done|]. split; [lia|].
    split; [by eapply same_terms_trans|].
    intros Hterm. rewrite Hst'; [by apply Hst2|]. by rewrite Hst2.
  - simplify_eq. by exists o2.
Qed.

(** C1, amended: a FILLED or CANCELED row keeps its status under every fill
    update and every cancellation upsert; the upsert leaves the whole row,
    hence its filled amount, as it was; the fill update sets the filled
    amount of a row it matches to [max (current, new)], so the amount stays
    as it was whenever the new amount does not exceed it.  The same holds
    of the recorders that execute the statements: whatever its outcome,
    [record_cancel] leaves the row as it was, and [update_order_fills]
    keeps its status and does not lower its filled amount. *)
Theorem terminal_rows_keep_status (tbl : list order_row) i o :
  tbl !! i = Some o → terminal (state o) →
  (∀ p1 p2 p3, ∃ o',
      (UPDATE_ORDER_FILL_STMT p1 p2 p3 tbl).1 !! i = Some o'
      ∧ state o' = state o
      ∧ amount_fill o'
        = (if decide (signature o = p3)
           then Z.max (amount_fill o) p1 else amount_fill o)
      ∧ (p1 ≤ amount_fill o → amount_fill o' = amount_fill o))
  ∧ (∀ row, (UPSERT_CANCELED_ORDER_STMT row tbl).1 !! i = Some o)
  ∧ (∀ contract n ev w w1 r,
       orders (db w) = tbl →
       record_cancel contract n ev w = (w1, r) →
       orders (db w1) !! i = Some o)
  ∧ (∀ contract affected w w1 r,
       orders (db w) = tbl →
       update_order_fills contract affected w = (w1, r) →
       ∃ o', orders (db w1) !! i = Some o'
         ∧ state o' = state o ∧ amount_fill o ≤ amount_fill o').
Proof.
  intros Hi Hterm. split; [|split; [|split]].
  - intros p1 p2 p3. destruct (decide (signature o = p3)) as [Hsig|Hsig].
    + eexists. split; [by apply UPDATE_ORDER_FILL_hit|].
      rewrite update_order_fill_row_state. simpl.
      repeat split; [by destruct Hterm as [-> | ->] | lia].
    + exists o. split; [by apply UPDATE_ORDER_FILL_miss|]. done.
  - intros row. apply UPSERT_CANCELED_ORDER_keeps; [done|].
    by apply terminal_not_OPEN.
  - intros contract n ev w w1 r <- Hrun.
    by eapply record_cancel_keeps_terminal.
  - intros contract affected w w1 r <- Hrun.
    destruct (update_order_fills_keeps_status _ _ _ _ _ _ _ Hrun Hi)
      as (o' & Hi' & Hfill & _ & Hst).
    exists o'. split; [done|]. split; [by apply Hst|done].
Qed.

End TerminalRuns.

Lemma terminal_rows_keep_status_witness :
  let o := Demo.order "0x01" "0xbeef" FILLED 100 100 in
  (∃ o', (UPDATE_ORDER_FILL_STMT 40 7 (signature o) [o]).1 !! 0%nat = Some o'
     ∧ state o' = FILLED ∧ amount_fill o' = 100)
  ∧ (UPSERT_CANCELED_ORDER_STMT (Demo.order "0x01" "0xbeef" CANCELED 100 100)
       [o]).1 !! 0%nat = Some o.
Proof.
  intros o.
  destruct (terminal_rows_keep_status (H := Demo.collaborators) [o] 0%nat o
              eq_refl (or_introl eq_refl)) as (Hfill & Hcancel & _).
  split; [|apply Hcancel].
  destruct (Hfill 40 7 (signature o)) as (o' & Hrow & Hst & _ & Hkeep).
  exists o'. split; [exact Hrow|]. split; [exact Hst|].
  apply Hkeep. discriminate.
Defined.

(** * Further properties of the recorders *)

(** ** What a run writes *)

Section Writes.
Context `{Collaborators}.

(** The three ways a run of [process_trade] can go: the insert did not
    report true; a step before the query raised; or the query was made and
    its result handed to the loop of [update_order_fills] (which returns at
    once on an empty result). *)
Lemma process_trade_shape contract n ev w w2 r :
  process_trade contract n ev w = (w2, r) →
  ∃ w1 r1,
    record_trade contract n ev
      (logged DEBUG "received trade txid=%s" [transactionHash ev] w)
    = (w1, r1)
    ∧ ((r1 ≠ Ok true ∧ db w2 = db w1 ∧ calls w2 = calls w1
        ∧ r = match r1 with Raise e => Raise e | Ok _ => Ok tt end)
       ∨ (r1 = Ok true ∧ db w2 = db w1 ∧ calls w2 = calls w1
          ∧ ∃ e, r = Raise e)
       ∨ (r1 = Ok true
          ∧ ∃ bn maker p1 p2 w1' w2' r',
              coerce_to_int (blockNumber ev) = Ok bn
              ∧ args ev !! "get" = Some maker
              ∧ toBytes_hexstr maker = Ok p1
              ∧ db w1' = db w1
              ∧ calls w1' = calls w1 ++ [ExecFetchAffectedOrders p1 p2 bn]
              ∧ update_order_fills contract
                  (FETCH_AFFECTED_ORDERS_STMT p1 p2 bn (orders (db w1))) w1'
                = (w2', r')
              ∧ db w2 = db w2' ∧ calls w2 = calls w2'
              ∧ r = match r' with Raise e => Raise e | Ok _ => Ok tt end)).
Proof.
  rewrite process_trade_run. cbv zeta.
  destruct (record_trade contract n ev _) as [w1 [[|]|e]] eqn:Hrun;
    intros Hproc; exists w1; eexists; (split; [done|]).
  2:{ left. by simplify_eq. }
  2:{ left. by simplify_eq. }
  revert Hproc. unfold bind, lift, log.
  destruct (coerce_to_int (logIndex ev)) as [li|];
    [|intros; simplify_eq; right; left; eauto].
  destruct (coerce_to_int (blockNumber ev)) as [bn|] eqn:Hbn;
    [|intros; simplify_eq; right; left; eauto].
  destruct (getitem (args ev) "get") as [maker|] eqn:Hmaker;
    [|intros; simplify_eq; right; left; eauto].
  destruct (getitem (args ev) "tokenGive") as [tokenGive|];
    [|intros; simplify_eq; right; left; eauto].
  cbn -[fetch_affected_orders update_order_fills].
  set (wi := logged INFO _ _ w1).
  assert (∀ coin w3 r3,
            (let (w'0, r1) := fetch_affected_orders maker coin bn wi in
             match r1 with
             | Ok a0 =>
                 let (w'1, r2) :=
                   (if bool_decide (0 < length a0)%nat
                    then λ w0 : World,
                        update_order_fills contract a0
                          (logged DEBUG
                             "updating up to %i orders for trade txid=%s"
                             [PInt (Z.of_nat (length a0)); transactionHash ev]
                             w0)
                    else λ w0 : World,
                        (logged WARN
                           "No orders found for user='%s' and token='%s'"
                           [maker; coin] w0, Ok ())) w'0 in
                 match r2 with
                 | Ok _ =>
                     (logged DEBUG "done order updates for txid=%s"
                        [transactionHash ev] w'1, Ok ())
                 | Raise e => (w'1, Raise e)
                 end
             | Raise e => (w'0, Raise e)
             end) = (w3, r3) →
            (db w3 = db w1 ∧ calls w3 = calls w1 ∧ ∃ e, r3 = Raise e)
            ∨ ∃ p1 p2 w1' w2' r',
                toBytes_hexstr maker = Ok p1
                ∧ db w1' = db w1
                ∧ calls w1' = calls w1 ++ [ExecFetchAffectedOrders p1 p2 bn]
                ∧ update_order_fills contract
                    (FETCH_AFFECTED_ORDERS_STMT p1 p2 bn (orders (db w1))) w1'
                  = (w2', r')
                ∧ db w3 = db w2' ∧ calls w3 = calls w2'
                ∧ r3 = match r' with Raise e => Raise e | Ok _ => Ok tt end)
    as Hfetch.
  { intros coin w3 r3. rewrite fetch_affected_orders_run.
    destruct (toBytes_hexstr maker) as [p1|];
      [|intros; simplify_eq; left; eauto].
    destruct (toBytes_hexstr coin) as [p2|];
      [|intros; simplify_eq; left; eauto].
    change (orders (db wi)) with (orders (db w1)).
    set (found := FETCH_AFFECTED_ORDERS_STMT p1 p2 bn (orders (db w1))).
    intros Hrest. right. exists p1, p2.
    case_bool_decide as Hlen.
    - destruct (update_order_fills contract found _) as [w2' r'] eqn:Hloop.
      eexists _, w2', r'. split; [done|]. split; [|split; [|split; [done|]]].
      1,2: done.
      destruct r' as [[]|e]; by simplify_eq.
    - assert (found = []) as Hnil.
      { destruct found; [done|simpl in Hlen; lia]. }
      simplify_eq.
      exists (traced (ExecFetchAffectedOrders p1 p2 bn) wi),
        (traced (ExecFetchAffectedOrders p1 p2 bn) wi), (Ok tt).
      rewrite Hnil. by repeat split. }
  apply getitem_Ok in Hmaker.
  case_bool_decide.
  - intros Hrest. destruct (Hfetch _ _ _ Hrest)
      as [(? & ? & ?)|(p1 & p2 & w1' & w2' & r' & ? & ? & ? & ? & ? & ? & ?)].
    + right. left. done.
    + right. right. split; [done|].
      by exists bn, maker, p1, p2, w1', w2', r'.
  - destruct (getitem (args ev) "tokenGet") as [tokenGet|];
      [|intros; simplify_eq; right; left; eauto].
    intros Hrest. destruct (Hfetch _ _ _ Hrest)
      as [(? & ? & ?)|(p1 & p2 & w1' & w2' & r' & ? & ? & ? & ? & ? & ? & ?)].
    + right. left. done.
    + right. right. split; [done|].
      by exists bn, maker, p1, p2, w1', w2', r'.
Qed.

Lemma record_trade_steps contract n ev w w1 r :
  record_trade contract n ev w = (w1, r) → rtc store_step (db w) (db w1).
Proof.
  rewrite record_trade_run. cbv zeta.
  repeat (case_match; try discriminate); intros ?; simplify_eq; simpl;
    try done.
  all: apply rtc_once; constructor.
Qed.

Lemma record_transfer_steps direction ev w w1 r :
  record_transfer direction ev w = (w1, r) → rtc store_step (db w) (db w1).
Proof.
  rewrite record_transfer_run. cbv zeta.
  repeat (case_match; try discriminate); intros ?; simplify_eq; simpl;
    try done.
  all: apply rtc_once; constructor.
Qed.

Lemma record_deposit_db contract n ev w :
  db (record_deposit contract n ev w).1
  = db (record_transfer "DEPOSIT" ev w).1.
Proof.
  rewrite record_deposit_run.
  destruct (record_transfer "DEPOSIT" ev w) as [w1 [[|]|e]]; try done.
  by destruct (coerce_to_int (logIndex ev)).
Qed.

Lemma record_withdraw_db contract n ev w :
  db (record_withdraw contract n ev w).1
  = db (record_transfer "WITHDRAW" ev w).1.
Proof.
  rewrite record_withdraw_run.
  destruct (record_transfer "WITHDRAW" ev w) as [w1 [[|]|e]]; try done.
  by destruct (coerce_to_int (logIndex ev)).
Qed.

Lemma record_cancel_steps contract n ev w w1 r :
  record_cancel contract n ev w = (w1, r) → rtc store_step (db w) (db w1).
Proof.
  rewrite record_cancel_run. cbv zeta.
  repeat (case_match; try discriminate); intros ?; simplify_eq; simpl;
    try done.
  all: apply rtc_once; constructor.
  all: match goal with
       | Ha : cancel_upsert_args _ _ _ _ = Ok _,
         Hrow : encode_order_row _ = Ok _ |- _ =>
           by destruct (cancel_row_terms _ _ _ _ _ _ Ha Hrow)
             as (? & ? & ? & ? & ? & ? & ? & ? & ? & ? & ? & ? & ? & ? & _)
       end.
Qed.

Lemma update_order_fill_steps contract order w w1 r :
  update_order_fill contract order w = (w1, r) →
  rtc store_step (db w) (db w1).
Proof.
  rewrite update_order_fill_run. cbv zeta.
  repeat (case_match; try discriminate); intros ?; simplify_eq; simpl;
    try done.
  apply rtc_once. constructor.
Qed.

Lemma update_order_fills_steps contract affected :
  ∀ w w1 r, update_order_fills contract affected w = (w1, r) →
            rtc store_step (db w) (db w1).
Proof.
  induction affected as [|order rest IH]; intros w w1 r.
  { by intros [= <- <-]. }
  rewrite update_order_fills_cons.
  destruct (update_order_fill contract order w) as [w2 [[]|e]] eqn:Hstep;
    intros Hrun; apply update_order_fill_steps in Hstep.
  - etrans; [done|]. by eapply IH.
  - by simplify_eq.
Qed.

Lemma process_trade_steps contract n ev w w2 r :
  process_trade contract n ev w = (w2, r) → rtc store_step (db w) (db w2).
Proof.
  intros (w1 & r1 & Hrun & Hcases)%process_trade_shape.
  apply record_trade_steps in Hrun. simpl in Hrun.
  destruct Hcases as [(_ & -> & _)|[(_ & -> & _)|(_ & Hloop)]]; [done..|].
  destruct Hloop as (bn & maker & p1 & p2 & w1' & w2' & r' & _ & _ & _ & Hdb
                     & _ & Hloop & -> & _).
  apply update_order_fills_steps in Hloop. rewrite Hdb in Hloop.
  by etrans.
Qed.

(** Every delivery takes the store through a sequence of the four writing
    statements. *)
Lemma deliver_steps d w : rtc store_step (db w) (db (deliver d w)).
Proof.
  destruct d as [contract n ev|contract n ev|contract n ev|contract n ev];
    simpl.
  - destruct (process_trade contract n ev w) as [w1 r] eqn:Hrun.
    by eapply process_trade_steps.
  - rewrite record_deposit_db.
    destruct (record_transfer "DEPOSIT" ev w) as [w1 r] eqn:Hrun.
    by eapply record_transfer_steps.
  - rewrite record_withdraw_db.
    destruct (record_transfer "WITHDRAW" ev w) as [w1 r] eqn:Hrun.
    by eapply record_transfer_steps.
  - destruct (record_cancel contract n ev w) as [w1 r] eqn:Hrun.
    by eapply record_cancel_steps.
Qed.

Lemma deliver_all_steps ds : ∀ w, rtc store_step (db w) (db (deliver_all ds w)).
Proof.
  induction ds as [|d ds IH]; intros w; [done|].
  etrans; [apply (deliver_steps d)|]. apply IH.
Qed.

(** A property of stores kept by each writing statement is kept by every
    sequence of deliveries. *)
Lemma deliver_all_keeps (P : Store → Prop) ds w :
  (∀ s s', store_step s s' → P s → P s') →
  P (db w) → P (db (deliver_all ds w)).
Proof.
  intros Hstep Hw. pose proof (deliver_all_steps ds w) as Hsteps.
  induction Hsteps as [|s1 s2 s3 Hs _ IH]; [done|]. apply IH. by eapply Hstep.
Qed.

End Writes.

(** ** Invariants of the store *)

Lemma INSERT_TRADE_unique row (tbl : list trade_row) :
  trades_unique tbl → trades_unique (INSERT_TRADE_STMT row tbl).1.
Proof.
  intros Hunique. unfold INSERT_TRADE_STMT. case_decide as Hconflict; [done|].
  apply identifier_fresh_unique; [done|].
  by rewrite <- trades_conflict_known.
Qed.

Lemma INSERT_TRANSFER_unique row (tbl : list transfer_row) :
  transfers_unique tbl → transfers_unique (INSERT_TRANSFER_STMT row tbl).1.
Proof.
  intros Hunique. unfold INSERT_TRANSFER_STMT.
  case_decide as Hconflict; [done|].
  apply identifier_fresh_unique; [done|].
  by rewrite <- transfers_conflict_known.
Qed.

Lemma UPDATE_ORDER_FILL_unique p1 p2 p3 (tbl : list order_row) :
  orders_unique tbl → orders_unique (UPDATE_ORDER_FILL_STMT p1 p2 p3 tbl).1.
Proof. unfold orders_unique. by rewrite UPDATE_ORDER_FILL_signatures. Qed.

Lemma store_step_unique s s' :
  store_step s s' →
  trades_unique (trades s) ∧ transfers_unique (transfers s)
  ∧ orders_unique (orders s) →
  trades_unique (trades s') ∧ transfers_unique (transfers s')
  ∧ orders_unique (orders s').
Proof.
  intros Hstep (Htrades & Htransfers & Horders).
  destruct Hstep as [row s|row s|p1 p2 p3 s|row s Hst]; simpl.
  - split; [by apply INSERT_TRADE_unique|done].
  - split; [done|]. split; [by apply INSERT_TRANSFER_unique|done].
  - do 2 (split; [done|]). by apply UPDATE_ORDER_FILL_unique.
  - do 2 (split; [done|]). by apply (orders_unique_preserved row 0 0 []).
Qed.

Lemma update_order_fill_row_agrees p1 p2 o :
  status_agrees o → status_agrees (update_order_fill_row p1 p2 o).
Proof.
  unfold status_agrees. rewrite update_order_fill_row_state. simpl.
  intros [Hfilled Hopen]. destruct (state o).
  - case_bool_decide; split; intros; simplify_eq; lia.
  - split; [|done]. intros _. specialize (Hfilled eq_refl). lia.
  - done.
Qed.

Lemma store_step_agrees s s' :
  store_step s s' →
  Forall status_agrees (orders s) → Forall status_agrees (orders s').
Proof.
  intros Hstep Hagrees.
  destruct Hstep as [row s|row s|p1 p2 p3 s|row s Hst]; simpl; [done..| |].
  - apply Forall_fmap. eapply Forall_impl; [done|]. intros o Ho. simpl.
    case_decide; [by apply update_order_fill_row_agrees|done].
  - assert (status_agrees row) as Hrow.
    { unfold status_agrees. rewrite Hst. done. }
    unfold UPSERT_CANCELED_ORDER_STMT. case_decide; simpl.
    + apply Forall_fmap. eapply Forall_impl; [done|]. intros o Ho. simpl.
      case_decide; [|done]. unfold status_agrees. simpl. by rewrite Hst.
    + apply Forall_app. split; [done|]. by constructor.
Qed.

Lemma evolves_refl s : evolves s s.
Proof.
  do 2 (split; [done|]). intros i o Hi. exists o.
  split; [done|]. split; [apply same_terms_refl|done].
Qed.

Lemma evolves_trans s1 s2 s3 : evolves s1 s2 → evolves s2 s3 → evolves s1 s3.
Proof.
  intros (Ht12 & Hf12 & Ho12) (Ht23 & Hf23 & Ho23).
  split; [by etrans|]. split; [by etrans|]. intros i o Hi.
  destruct (Ho12 i o Hi) as (o2 & Hi2 & Hterms2 & Hst2).
  destruct (Ho23 i o2 Hi2) as (o3 & Hi3 & Hterms3 & Hst3).
  exists o3. split; [done|]. split; [by eapply same_terms_trans|].
  intros Hterm. rewrite Hst3; [by apply Hst2|]. by rewrite Hst2.
Qed.

Lemma store_step_evolves s s' : store_step s s' → evolves s s'.
Proof.
  intros Hstep.
  destruct Hstep as [row s|row s|p1 p2 p3 s|row s Hst]; unfold evolves; simpl.
  - split; [|split; [done|]].
    + unfold INSERT_TRADE_STMT. case_decide; [done|]. by apply prefix_app_r.
    + intros i o Hi. exists o. split; [done|].
      split; [apply same_terms_refl|done].
  - split; [done|]. split.
    + unfold INSERT_TRANSFER_STMT. case_decide; [done|]. by apply prefix_app_r.
    + intros i o Hi. exists o. split; [done|].
      split; [apply same_terms_refl|done].
  - do 2 (split; [done|]). intros i o Hi.
    rewrite list_lookup_fmap, Hi. simpl. eexists. split; [done|].
    case_decide.
    + split; [apply update_order_fill_row_terms|].
      rewrite update_order_fill_row_state. by intros [-> | ->].
    + split; [apply same_terms_refl|done].
  - do 2 (split; [done|]). intros i o Hi.
    unfold UPSERT_CANCELED_ORDER_STMT. case_decide; simpl.
    + rewrite list_lookup_fmap, Hi. simpl. eexists. split; [done|].
      case_decide as Hhit.
      * split; [by repeat split|]. destruct Hhit as [_ Hopen].
        rewrite Hopen. by intros [? | ?].
      * split; [apply same_terms_refl|done].
    + exists o. split; [by apply lookup_app_l_Some|].
      split; [apply same_terms_refl|done].
Qed.

Section Invariants.
Context `{Collaborators}.

(** X1: the three unique constraints, once they hold, hold after every
    sequence of deliveries, whether the recorders returned or raised. *)
Theorem deliveries_keep_unique_constraints ds w :
  trades_unique (trades (db w)) →
  transfers_unique (transfers (db w)) →
  orders_unique (orders (db w)) →
  trades_unique (trades (db (deliver_all ds w)))
  ∧ transfers_unique (transfers (db (deliver_all ds w)))
  ∧ orders_unique (orders (db (deliver_all ds w))).
Proof.
  intros Htrades Htransfers Horders.
  apply (deliver_all_keeps
           (λ s, trades_unique (trades s) ∧ transfers_unique (transfers s)
                 ∧ orders_unique (orders s))); [|done].
  intros s s' Hstep. by apply store_step_unique.
Qed.

(** X2: if in every stored order the status agrees with the filled amount
    (FILLED rows have reached their get-amount, OPEN rows have not), it
    does so after every sequence of deliveries. *)
Theorem deliveries_keep_status_agreeing ds w :
  Forall status_agrees (orders (db w)) →
  Forall status_agrees (orders (db (deliver_all ds w))).
Proof.
  apply (deliver_all_keeps (λ s, Forall status_agrees (orders s))).
  intros s s' Hstep. by apply store_step_agrees.
Qed.

(** X3: through every sequence of deliveries the trade and transfer facts
    are only appended to, no order is removed or moved, no order's terms
    change, and an order that is FILLED or CANCELED keeps that status. *)
Theorem deliveries_evolve_store ds w :
  trades (db w) `prefix_of` trades (db (deliver_all ds w))
  ∧ transfers (db w) `prefix_of` transfers (db (deliver_all ds w))
  ∧ ∀ i o, orders (db w) !! i = Some o →
      ∃ o', orders (db (deliver_all ds w)) !! i = Some o'
        ∧ same_terms o o'
        ∧ (terminal (state o) → state o' = state o).
Proof.
  change (evolves (db w) (db (deliver_all ds w))).
  pose proof (deliver_all_steps ds w) as Hsteps.
  induction Hsteps as [s|s1 s2 s3 Hstep _ IH]; [apply evolves_refl|].
  eapply evolves_trans; [by apply store_step_evolves|done].
Qed.

End Invariants.

(** A trade, a cancellation, the same trade again and a deposit, delivered
    to a store holding one open order of the maker. *)
Lemma deliveries_keep_unique_constraints_witness :
  let ds := [Trade Demo.contract "Trade" Demo.trade;
             Cancel Demo.contract "Cancel" Demo.cancel_offchain;
             Trade Demo.contract "Trade" Demo.trade;
             Deposit Demo.contract "Deposit" Demo.deposit] in
  let w := Demo.world [Demo.order "0x01" "0xbeef" OPEN 100 0] in
  let s := db (deliver_all (H := Demo.collaborators) ds w) in
  (length (trades s) = 1 ∧ length (transfers s) = 1 ∧ length (orders s) = 2)%nat
  ∧ trades_unique (trades s) ∧ transfers_unique (transfers s)
  ∧ orders_unique (orders s).
Proof.
  intros ds w s. split; [by vm_compute|].
  apply (deliveries_keep_unique_constraints (H := Demo.collaborators) ds w).
  - apply NoDup_nil_2.
  - apply NoDup_nil_2.
  - apply NoDup_singleton.
Defined.

Lemma deliveries_keep_status_agreeing_witness :
  let ds := [Trade Demo.contract "Trade" Demo.trade;
             Cancel Demo.contract "Cancel" Demo.cancel_offchain] in
  let w := Demo.world [Demo.order "0x01" "0xbeef" OPEN 100 0] in
  Forall status_agrees
    (orders (db (deliver_all (H := Demo.collaborators) ds w))).
Proof.
  intros ds w.
  apply (deliveries_keep_status_agreeing (H := Demo.collaborators) ds w).
  constructor; [|constructor].
  split; [discriminate|intros _; reflexivity].
Defined.

Lemma deliveries_evolve_store_witness :
  let ds := [Trade Demo.contract "Trade" Demo.trade;
             Cancel Demo.contract "Cancel" Demo.cancel_offchain] in
  let o := Demo.order "0x01" "0xbeef" FILLED 100 100 in
  ∃ o', orders (db (deliver_all (H := Demo.collaborators) ds (Demo.world [o])))
          !! 0%nat = Some o'
    ∧ state o' = FILLED.
Proof.
  intros ds o.
  destruct (deliveries_evolve_store (H := Demo.collaborators) ds
              (Demo.world [o])) as (_ & _ & Horders).
  destruct (Horders 0%nat o eq_refl) as (o' & Hrow & _ & Hst).
  exists o'. split; [exact Hrow|]. apply Hst. by left.
Defined.

(** ** Recording facts *)

Section Facts.
Context `{Collaborators}.

Lemma record_trade_raises contract n ev w w1 e :
  record_trade contract n ev w = (w1, Raise e) →
  db w1 = db w ∧ logs w1 = logs w
  ∧ ∃ new, calls w1 = calls w ++ new ∧ Forall (λ c, store_call c = false) new.
Proof.
  rewrite record_trade_run. cbv zeta.
  repeat (case_match; try discriminate); intros ?; simplify_eq; simpl;
    (do 2 (split; [done|])).
  all: try (exists []; split; [by rewrite app_nil_r | by constructor]).
  all: eexists [_]; split; [done | by repeat constructor].
Qed.

Lemma record_transfer_raises direction ev w w1 e :
  record_transfer direction ev w = (w1, Raise e) →
  db w1 = db w ∧ logs w1 = logs w
  ∧ ∃ new, calls w1 = calls w ++ new ∧ Forall (λ c, store_call c = false) new.
Proof.
  rewrite record_transfer_run. cbv zeta.
  repeat (case_match; try discriminate); intros ?; simplify_eq; simpl;
    (do 2 (split; [done|])).
  all: try (exists []; split; [by rewrite app_nil_r | by constructor]).
  all: eexists [_]; split; [done | by repeat constructor].
Qed.

Lemma record_transfer_coerced direction ev w w1 b :
  record_transfer direction ev w = (w1, Ok b) →
  ∃ li, coerce_to_int (logIndex ev) = Ok li.
Proof.
  intros (bn & li & ts & row & h & _ & Hli & _)%record_transfer_returns.
  by exists li.
Qed.

(** X4: [record_deposit] and [record_withdraw] return what
    [record_transfer] returns, leave the store and the call trace as it
    left them, and add one INFO log entry, carrying the transaction hash
    and the log index, exactly when it returned true; they raise only
    what it raised. *)
Theorem deposit_and_withdraw_wrap_transfer contract n ev w :
  (∀ w1 r, record_transfer "DEPOSIT" ev w = (w1, r) →
     ∃ w2, record_deposit contract n ev w = (w2, r)
       ∧ db w2 = db w1 ∧ calls w2 = calls w1
       ∧ (r = Ok true →
          ∃ li, coerce_to_int (logIndex ev) = Ok li
            ∧ logs w2 = logs w1
                ++ [ {| log_level := INFO;
                        log_format := "recorded deposit txid=%s, logidx=%i";
                        log_args := [transactionHash ev; PInt li] |} ])
       ∧ (r ≠ Ok true → w2 = w1))
  ∧ (∀ w1 r, record_transfer "WITHDRAW" ev w = (w1, r) →
       ∃ w2, record_withdraw contract n ev w = (w2, r)
         ∧ db w2 = db w1 ∧ calls w2 = calls w1
         ∧ (r = Ok true →
            ∃ li, coerce_to_int (logIndex ev) = Ok li
              ∧ logs w2 = logs w1
                  ++ [ {| log_level := INFO;
                          log_format := "recorded withdraw txid=%s, logidx=%i";
                          log_args := [transactionHash ev; PInt li] |} ])
         ∧ (r ≠ Ok true → w2 = w1)).
Proof.
  split; intros w1 r Hrun.
  - rewrite record_deposit_run, Hrun. destruct r as [[|]|e].
    + destruct (record_transfer_coerced _ _ _ _ _ Hrun) as [li Hli].
      rewrite Hli. eexists. split; [done|]. do 2 (split; [done|]).
      split; [|done]. intros _. by exists li.
    + exists w1. by repeat split.
    + exists w1. by repeat split.
  - rewrite record_withdraw_run, Hrun. destruct r as [[|]|e].
    + destruct (record_transfer_coerced _ _ _ _ _ Hrun) as [li Hli].
      rewrite Hli. eexists. split; [done|]. do 2 (split; [done|]).
      split; [|done]. intros _. by exists li.
    + exists w1. by repeat split.
    + exists w1. by repeat split.
Qed.

(** X5: a fact recorder that raises has written nothing: the store and
    the log are as they were and no statement was sent to the store. *)
Theorem raising_fact_recorder_writes_nothing contract n ev w w1 e :
  record_trade contract n ev w = (w1, Raise e)
  ∨ record_deposit contract n ev w = (w1, Raise e)
  ∨ record_withdraw contract n ev w = (w1, Raise e)
  ∨ (∃ direction, record_transfer direction ev w = (w1, Raise e)) →
  db w1 = db w ∧ logs w1 = logs w
  ∧ ∃ new, calls w1 = calls w ++ new ∧ Forall (λ c, store_call c = false) new.
Proof.
  intros [Hrun|[Hrun|[Hrun|[direction Hrun]]]].
  - by eapply record_trade_raises.
  - revert Hrun. rewrite record_deposit_run.
    destruct (record_transfer "DEPOSIT" ev w) as [w2 [[|]|e2]] eqn:Hrun;
      [|done|].
    + destruct (record_transfer_coerced _ _ _ _ _ Hrun) as [li ->]. done.
    + intros [= <- <-]. by eapply record_transfer_raises.
  - revert Hrun. rewrite record_withdraw_run.
    destruct (record_transfer "WITHDRAW" ev w) as [w2 [[|]|e2]] eqn:Hrun;
      [|done|].
    + destruct (record_transfer_coerced _ _ _ _ _ Hrun) as [li ->]. done.
    + intros [= <- <-]. by eapply record_transfer_raises.
  - by eapply record_transfer_raises.
Qed.

End Facts.

(** ** Events that lack an argument *)

Section MissingArguments.
Context `{Collaborators}.

Lemma getitem_missing (d : gmap string pyval) k :
  d !! k = None → getitem d k = Raise (KeyError k).
Proof. unfold getitem. by intros ->. Qed.

Ltac chain_raises :=
  repeat (simpl;
          match goal with
          | |- ∃ e', Raise _ = Raise e' => by eexists
          | |- ∃ e', result_bind ?r _ = Raise e' =>
              destruct r eqn:?; simpl; [|by eexists]
          end).

Ltac missing_key Hk Hnone :=
  repeat (apply elem_of_cons in Hk as [->|Hk];
          [apply getitem_missing in Hnone|]);
  [..|by apply elem_of_nil in Hk].

Lemma trade_insert_args_missing ev k bn li ts :
  k ∈ trade_keys → args ev !! k = None →
  ∃ e, result_bind (trade_insert_args ev bn li ts) encode_trade_row = Raise e.
Proof.
  intros Hk Hnone.
  assert (∃ e, trade_insert_args ev bn li ts = Raise e) as [e ->];
    [|by eexists].
  unfold trade_keys in Hk. missing_key Hk Hnone.
  all: unfold trade_insert_args; rewrite Hnone; chain_raises.
Qed.

Lemma transfer_insert_args_missing direction ev k bn li ts :
  k ∈ transfer_keys → args ev !! k = None →
  ∃ e, result_bind (transfer_insert_args direction ev bn li ts)
         encode_transfer_row = Raise e.
Proof.
  intros Hk Hnone.
  assert (∃ e, transfer_insert_args direction ev bn li ts = Raise e)
    as [e ->]; [|by eexists].
  unfold transfer_keys in Hk. missing_key Hk Hnone.
  all: unfold transfer_insert_args; rewrite Hnone; chain_raises.
Qed.

Lemma cancel_upsert_args_missing order k src hash ts :
  k ∈ cancel_keys → order !! k = None →
  ∃ e, cancel_upsert_args order src hash ts = Raise e.
Proof.
  intros Hk Hnone. unfold cancel_keys in Hk. missing_key Hk Hnone.
  all: unfold cancel_upsert_args; rewrite Hnone; chain_raises.
Qed.

(** X6: an event whose arguments lack one of the keys its recorder reads
    is not recorded: the recorder raises and the store is as it was. *)
Theorem event_missing_argument_not_recorded contract n ev w k :
  args ev !! k = None →
  (k ∈ trade_keys →
   ∃ w1 e, record_trade contract n ev w = (w1, Raise e) ∧ db w1 = db w)
  ∧ (k ∈ transfer_keys →
     ∀ direction,
       ∃ w1 e, record_transfer direction ev w = (w1, Raise e) ∧ db w1 = db w)
  ∧ (k ∈ cancel_keys →
     ∃ w1 e, record_cancel contract n ev w = (w1, Raise e) ∧ db w1 = db w).
Proof.
  intros Hnone. split; [|split].
  - intros Hk. rewrite record_trade_run. cbv zeta.
    destruct (coerce_to_int (blockNumber ev)) as [bn|]; [|by eexists _, _].
    destruct (coerce_to_int (logIndex ev)) as [li|]; [|by eexists _, _].
    destruct (block_timestamp (calls w) (blockNumber ev)) as [ts|];
      [|by eexists _, _].
    destruct (trade_insert_args_missing ev k bn li ts Hk Hnone) as [e ->].
    by eexists _, _.
  - intros Hk direction. rewrite record_transfer_run. cbv zeta.
    destruct (coerce_to_int (blockNumber ev)) as [bn|]; [|by eexists _, _].
    destruct (coerce_to_int (logIndex ev)) as [li|]; [|by eexists _, _].
    destruct (block_timestamp (calls w) (PInt bn)) as [ts|];
      [|by eexists _, _].
    destruct (transfer_insert_args_missing direction ev k bn li ts Hk Hnone)
      as [e ->].
    by eexists _, _.
  - intros Hk. rewrite record_cancel_run. cbv zeta.
    destruct (getitem (args ev) "user") as [maker|]; [|by eexists _, _].
    destruct (make_order_hash (args ev)) as [hash|]; [|by eexists _, _].
    destruct (block_timestamp (calls w) (blockNumber ev)) as [ts|];
      [|by eexists _, _].
    destruct (cancel_upsert_args_missing (args ev) k
                (cancel_source (args ev)) hash ts Hk Hnone) as [e ->].
    by eexists _, _.
Qed.

End MissingArguments.

(** ** The rows of recorded facts *)

Section FactRows.
Context `{Collaborators}.

Lemma trade_row_fields ev bn li ts row :
  result_bind (trade_insert_args ev bn li ts) encode_trade_row = Ok row →
  trade_block_number row = bn ∧ trade_log_index row = li
  ∧ trade_date row = ts
  ∧ toBytes_hexstr (transactionHash ev) = Ok (trade_transaction_hash row)
  ∧ result_bind (getitem (args ev) "tokenGive") toBytes_hexstr
    = Ok (trade_token_give row)
  ∧ result_bind (getitem (args ev) "amountGive") db_numeric
    = Ok (trade_amount_give row)
  ∧ result_bind (getitem (args ev) "tokenGet") toBytes_hexstr
    = Ok (trade_token_get row)
  ∧ result_bind (getitem (args ev) "amountGet") db_numeric
    = Ok (trade_amount_get row)
  ∧ result_bind (getitem (args ev) "give") toBytes_hexstr
    = Ok (trade_addr_give row)
  ∧ result_bind (getitem (args ev) "get") toBytes_hexstr
    = Ok (trade_addr_get row).
Proof.
  unfold trade_insert_args, encode_trade_row, result_bind.
  repeat (case_match; try discriminate). intros ?. simplify_eq. simpl.
  repeat split; first [eassumption | congruence].
Qed.

Lemma transfer_row_fields direction ev bn li ts row :
  result_bind (transfer_insert_args direction ev bn li ts) encode_transfer_row
  = Ok row →
  transfer_block_number row = bn ∧ transfer_log_index row = li
  ∧ transfer_date row = ts ∧ transfer_direction row = direction
  ∧ toBytes_hexstr (transactionHash ev) = Ok (transfer_transaction_hash row)
  ∧ result_bind (getitem (args ev) "token") toBytes_hexstr
    = Ok (transfer_token row)
  ∧ result_bind (getitem (args ev) "user") toBytes_hexstr
    = Ok (transfer_user row)
  ∧ result_bind (getitem (args ev) "amount") db_numeric
    = Ok (transfer_amount row)
  ∧ result_bind (getitem (args ev) "balance") db_numeric
    = Ok (transfer_balance_after row).
Proof.
  unfold transfer_insert_args, encode_transfer_row, result_bind.
  repeat (case_match; try discriminate). intros ?. simplify_eq. simpl.
  repeat split; first [eassumption | congruence].
Qed.

(** X7: a run of [record_trade] that returns true has appended exactly one
    trade row, whose columns are the event's block number, transaction
    hash, log index, the two tokens and amounts, the giving and getting
    addresses (from [give] and [get]) and the timestamp looked up for the
    event's block; orders and transfers are as they were, and the calls
    made are that look-up and the insert. *)
Theorem recorded_trade_row contract n ev w w1 :
  record_trade contract n ev w = (w1, Ok true) →
  ∃ row,
    trades (db w1) = trades (db w) ++ [row]
    ∧ orders (db w1) = orders (db w)
    ∧ transfers (db w1) = transfers (db w)
    ∧ calls w1 = calls w
        ++ [CallBlockTimestamp (blockNumber ev) (Ok (trade_date row));
            ExecInsertTrade row]
    ∧ coerce_to_int (blockNumber ev) = Ok (trade_block_number row)
    ∧ coerce_to_int (logIndex ev) = Ok (trade_log_index row)
    ∧ block_timestamp (calls w) (blockNumber ev) = Ok (trade_date row)
    ∧ toBytes_hexstr (transactionHash ev) = Ok (trade_transaction_hash row)
    ∧ result_bind (getitem (args ev) "tokenGive") toBytes_hexstr
      = Ok (trade_token_give row)
    ∧ result_bind (getitem (args ev) "amountGive") db_numeric
      = Ok (trade_amount_give row)
    ∧ result_bind (getitem (args ev) "tokenGet") toBytes_hexstr
      = Ok (trade_token_get row)
    ∧ result_bind (getitem (args ev) "amountGet") db_numeric
      = Ok (trade_amount_get row)
    ∧ result_bind (getitem (args ev) "give") toBytes_hexstr
      = Ok (trade_addr_give row)
    ∧ result_bind (getitem (args ev) "get") toBytes_hexstr
      = Ok (trade_addr_get row).
Proof.
  rewrite record_trade_run. cbv zeta.
  destruct (coerce_to_int (blockNumber ev)) as [bn|] eqn:Hbn; [|done].
  destruct (coerce_to_int (logIndex ev)) as [li|] eqn:Hli; [|done].
  destruct (block_timestamp (calls w) (blockNumber ev)) as [ts|] eqn:Hts;
    [|done].
  destruct (result_bind _ encode_trade_row) as [row|] eqn:Hrow; [|done].
  destruct (trade_row_fields _ _ _ _ _ Hrow) as (<- & <- & <- & Hfields).
  unfold INSERT_TRADE_STMT. case_decide; simpl; [done|].
  intros [= <-]. exists row. simpl. rewrite <- app_assoc.
  do 7 (split; [done|]). exact Hfields.
Qed.

(** X8: a run of [record_transfer] that returns true has appended exactly
    one transfer row, with the direction it was called with, the event's
    block number, transaction hash, log index, token, user, amount and
    resulting balance, and the timestamp looked up for the coerced block
    number; [record_deposit] and [record_withdraw] store the directions
    DEPOSIT and WITHDRAW. *)
Theorem recorded_transfer_row contract n ev w w1 :
  (∀ direction,
     record_transfer direction ev w = (w1, Ok true) →
     ∃ row,
       transfers (db w1) = transfers (db w) ++ [row]
       ∧ orders (db w1) = orders (db w) ∧ trades (db w1) = trades (db w)
       ∧ transfer_direction row = direction
       ∧ coerce_to_int (blockNumber ev) = Ok (transfer_block_number row)
       ∧ coerce_to_int (logIndex ev) = Ok (transfer_log_index row)
       ∧ block_timestamp (calls w) (PInt (transfer_block_number row))
         = Ok (transfer_date row)
       ∧ toBytes_hexstr (transactionHash ev)
         = Ok (transfer_transaction_hash row)
       ∧ result_bind (getitem (args ev) "token") toBytes_hexstr
         = Ok (transfer_token row)
       ∧ result_bind (getitem (args ev) "user") toBytes_hexstr
         = Ok (transfer_user row)
       ∧ result_bind (getitem (args ev) "amount") db_numeric
         = Ok (transfer_amount row)
       ∧ result_bind (getitem (args ev) "balance") db_numeric
         = Ok (transfer_balance_after row))
  ∧ (record_deposit contract n ev w = (w1, Ok true) →
     ∃ row, transfers (db w1) = transfers (db w) ++ [row]
       ∧ transfer_direction row = "DEPOSIT")
  ∧ (record_withdraw contract n ev w = (w1, Ok true) →
     ∃ row, transfers (db w1) = transfers (db w) ++ [row]
       ∧ transfer_direction row = "WITHDRAW").
Proof.
  assert (∀ direction w2,
            record_transfer direction ev w = (w2, Ok true) →
            ∃ row,
              transfers (db w2) = transfers (db w) ++ [row]
              ∧ orders (db w2) = orders (db w) ∧ trades (db w2) = trades (db w)
              ∧ transfer_direction row = direction
              ∧ coerce_to_int (blockNumber ev) = Ok (transfer_block_number row)
              ∧ coerce_to_int (logIndex ev) = Ok (transfer_log_index row)
              ∧ block_timestamp (calls w) (PInt (transfer_block_number row))
                = Ok (transfer_date row)
              ∧ toBytes_hexstr (transactionHash ev)
                = Ok (transfer_transaction_hash row)
              ∧ result_bind (getitem (args ev) "token") toBytes_hexstr
                = Ok (transfer_token row)
              ∧ result_bind (getitem (args ev) "user") toBytes_hexstr
                = Ok (transfer_user row)
              ∧ result_bind (getitem (args ev) "amount") db_numeric
                = Ok (transfer_amount row)
              ∧ result_bind (getitem (args ev) "balance") db_numeric
                = Ok (transfer_balance_after row)) as Htransfer.
  { intros direction w2. rewrite record_transfer_run. cbv zeta.
    destruct (coerce_to_int (blockNumber ev)) as [bn|] eqn:Hbn; [|done].
    destruct (coerce_to_int (logIndex ev)) as [li|] eqn:Hli; [|done].
    destruct (block_timestamp (calls w) (PInt bn)) as [ts|] eqn:Hts; [|done].
    destruct (result_bind _ encode_transfer_row) as [row|] eqn:Hrow; [|done].
    destruct (transfer_row_fields _ _ _ _ _ _ Hrow)
      as (Hbn' & <- & Hts' & Hdir & Hfields).
    unfold INSERT_TRANSFER_STMT. case_decide; simpl; [done|].
    intros [= <-]. exists row. simpl. rewrite Hbn', Hts'.
    do 7 (split; [done|]). exact Hfields. }
  split; [intros direction; apply Htransfer|]. split.
  - rewrite record_deposit_run.
    destruct (record_transfer "DEPOSIT" ev w) as [w2 [[|]|e]] eqn:Hrun;
      [|done..].
    destruct (coerce_to_int (logIndex ev)); [|done]. intros [= <-].
    destruct (Htransfer _ _ Hrun) as (row & ? & _ & _ & ? & _).
    by exists row.
  - rewrite record_withdraw_run.
    destruct (record_transfer "WITHDRAW" ev w) as [w2 [[|]|e]] eqn:Hrun;
      [|done..].
    destruct (coerce_to_int (logIndex ev)); [|done]. intros [= <-].
    destruct (Htransfer _ _ Hrun) as (row & ? & _ & _ & ? & _).
    by exists row.
Qed.

End FactRows.

(** ** Sequences of fill updates *)

Lemma max_amount_ge start amounts : start ≤ max_amount start amounts.
Proof.
  revert start. induction amounts as [|a amounts IH]; intros start; [done|].
  simpl. etrans; [|apply IH]. lia.
Qed.

Lemma max_amount_permutation start amounts amounts' :
  amounts ≡ₚ amounts' → max_amount start amounts = max_amount start amounts'.
Proof.
  intros Hperm. revert start.
  induction Hperm as [|a l l' _ IH|a b l|l1 l2 l3 _ IH1 _ IH2]; intros start.
  - done.
  - simpl. apply IH.
  - simpl. f_equal. lia.
  - by rewrite IH1.
Qed.

(** The status the fill update leaves on a row that is not terminal. *)
Lemma apply_fills_state p3 fills : ∀ (tbl : list order_row) i o,
  tbl !! i = Some o → signature o = p3 → fills ≠ [] →
  ∃ o', apply_fills p3 fills tbl !! i = Some o'
    ∧ amount_fill o' = max_amount (amount_fill o) fills.*1
    ∧ state o'
      = match state o with
        | OPEN =>
            if bool_decide (amount_get o
                            ≤ max_amount (amount_fill o) fills.*1)
            then FILLED else OPEN
        | st => st
        end.
Proof.
  induction fills as [|[a t] fills IH]; intros tbl i o Hi Hsig Hfills; [done|].
  rewrite apply_fills_cons.
  pose proof (UPDATE_ORDER_FILL_hit a t p3 tbl i o Hi Hsig) as Hrow.
  destruct (decide (fills = [])) as [->|Hrest].
  { eexists. split; [done|]. split; [done|].
    by rewrite update_order_fill_row_state. }
  destruct (IH _ _ _ Hrow Hsig Hrest) as (o' & Hi' & Hfill & Hst).
  exists o'. split; [done|]. split; [done|]. rewrite Hst.
  rewrite update_order_fill_row_state.
  change (amount_get (update_order_fill_row a t o)) with (amount_get o).
  change (amount_fill (update_order_fill_row a t o))
    with (Z.max (amount_fill o) a).
  change (max_amount (amount_fill o) ((a, t) :: fills).*1)
    with (max_amount (Z.max (amount_fill o) a) fills.*1).
  pose proof (max_amount_ge (Z.max (amount_fill o) a) fills.*1) as Hge.
  set (m := max_amount (Z.max (amount_fill o) a) fills.*1) in *.
  destruct (state o); [|done..].
  repeat case_bool_decide; try done; lia.
Qed.

(** X9: after any non-empty sequence of fill updates for an order's
    signature, an order that was OPEN is FILLED exactly when the largest of
    the amounts and its initial filled amount reaches its get-amount, and a
    FILLED or CANCELED order has kept its status; so the filled amount and
    the status reached do not depend on the order in which the updates
    arrive. *)
Theorem fill_updates_commute (tbl : list order_row) i o fills :
  tbl !! i = Some o → fills ≠ [] →
  ∃ o', apply_fills (signature o) fills tbl !! i = Some o'
    ∧ amount_fill o' = max_amount (amount_fill o) fills.*1
    ∧ state o'
      = match state o with
        | OPEN =>
            if bool_decide (amount_get o
                            ≤ max_amount (amount_fill o) fills.*1)
            then FILLED else OPEN
        | st => st
        end
    ∧ ∀ fills', fills ≡ₚ fills' →
        ∃ o'', apply_fills (signature o) fills' tbl !! i = Some o''
          ∧ amount_fill o'' = amount_fill o' ∧ state o'' = state o'.
Proof.
  intros Hi Hfills.
  destruct (apply_fills_state (signature o) fills tbl i o Hi eq_refl Hfills)
    as (o' & Hi' & Hfill & Hst).
  exists o'. do 3 (split; [done|]). intros fills' Hperm.
  assert (fills' ≠ []) as Hfills'.
  { intros ->. by apply Permutation_nil_r in Hperm. }
  destruct (apply_fills_state (signature o) fills' tbl i o Hi eq_refl Hfills')
    as (o'' & Hi'' & Hfill' & Hst').
  exists o''. split; [done|].
  assert (max_amount (amount_fill o) fills'.*1
          = max_amount (amount_fill o) fills.*1) as Hmax.
  { apply max_amount_permutation. by rewrite Hperm. }
  rewrite Hfill', Hst', Hfill, Hst, Hmax. done.
Qed.

Lemma fill_updates_commute_witness :
  let o := Demo.order "0x01" "0xbeef" OPEN 100 0 in
  ∃ o' o'',
    apply_fills (signature o) [(60, 11); (100, 12); (40, 13)] [o] !! 0%nat
    = Some o'
    ∧ apply_fills (signature o) [(40, 13); (100, 12); (60, 11)] [o] !! 0%nat
      = Some o''
    ∧ amount_fill o'' = amount_fill o' ∧ state o'' = state o'
    ∧ state o' = FILLED.
Proof.
  intros o.
  destruct (fill_updates_commute [o] 0%nat o [(60, 11); (100, 12); (40, 13)]
              eq_refl ltac:(discriminate))
    as (o' & Hrow & _ & Hst & Hperm).
  destruct (Hperm [(40, 13); (100, 12); (60, 11)]) as (o'' & Hrow' & Hsame).
  { etrans; [apply Permutation_swap|].
    etrans; [apply Permutation_skip, Permutation_swap|].
    etrans; [apply Permutation_swap|]. done. }
  exists o', o''. do 2 (split; [done|]).
  destruct Hsame as [Hfill Hstate]. do 2 (split; [done|]).
  rewrite Hst. reflexivity.
Defined.

Lemma update_order_fill_row_idempotent p1 p2 o :
  update_order_fill_row p1 p2 (update_order_fill_row p1 p2 o)
  = update_order_fill_row p1 p2 o.
Proof.
  destruct o as [src sig tg ag tq get exp non usr st v r s' dt fill upd].
  unfold update_order_fill_row. simpl.
  assert (Z.max (Z.max fill p1) p1 = Z.max fill p1) as -> by lia.
  f_equal. destruct st; [|done..].
  by destruct (get <=? Z.max fill p1).
Qed.

Lemma signature_count p3 (tbl tbl' : list order_row) :
  signature <$> tbl = signature <$> tbl' →
  length (filter (λ o, signature o = p3) tbl)
  = length (filter (λ o, signature o = p3) tbl').
Proof.
  revert tbl'. induction tbl as [|o tbl IH]; intros [|o' tbl'] Heq;
    try done.
  rewrite !fmap_cons in Heq. injection Heq as Hsig Hrest.
  rewrite !filter_cons. rewrite Hsig.
  case_decide; simpl; by rewrite (IH tbl').
Qed.

(** X10: executing the fill update a second time with the same arguments
    changes nothing more: the table is the one the first execution left and
    the same number of rows is reported. *)
Theorem update_order_fill_replayed p1 p2 p3 (tbl : list order_row) :
  UPDATE_ORDER_FILL_STMT p1 p2 p3 (UPDATE_ORDER_FILL_STMT p1 p2 p3 tbl).1
  = UPDATE_ORDER_FILL_STMT p1 p2 p3 tbl.
Proof.
  unfold UPDATE_ORDER_FILL_STMT at 1 3. f_equal.
  - simpl. rewrite <- list_fmap_compose. apply list_fmap_ext.
    intros i o _. simpl. destruct (decide (signature o = p3)) as [Hsig|Hsig].
    + rewrite decide_True by done. apply update_order_fill_row_idempotent.
    + by rewrite decide_False.
  - f_equal. apply signature_count, UPDATE_ORDER_FILL_signatures.
Qed.

(** ** Cancellations, again *)

Section CancelAgain.
Context `{Collaborators}.

Lemma cancel_row_any_date order src hash ts ts' a row :
  cancel_upsert_args order src hash ts = Ok a →
  encode_order_row a = Ok row →
  ∃ a' row',
    cancel_upsert_args order src hash ts' = Ok a'
    ∧ encode_order_row a' = Ok row'
    ∧ signature row' = signature row.
Proof.
  unfold cancel_upsert_args, encode_order_row, result_bind.
  repeat (case_match; try discriminate).
  all: intros ? ?; simplify_eq; try congruence.
  all: eexists _, _; split; [done|]; simpl.
  all: repeat (case_match; try congruence).
  all: by simplify_eq.
Qed.

(** After the upsert, the rows of the upserted signature are not OPEN. *)
Lemma UPSERT_CANCELED_ORDER_closes row (tbl : list order_row) o :
  state row = CANCELED →
  o ∈ (UPSERT_CANCELED_ORDER_STMT row tbl).1 →
  signature o = signature row → state o ≠ OPEN.
Proof.
  intros Hst Ho Hsig. unfold UPSERT_CANCELED_ORDER_STMT in Ho.
  case_decide as Hconflict; simpl in Ho.
  - apply list_elem_of_fmap in Ho as (o0 & -> & Ho0).
    case_decide as Hhit; simpl; [by rewrite Hst|].
    intros Hopen. by apply Hhit.
  - apply elem_of_app in Ho as [Ho|Ho%list_elem_of_singleton].
    + exfalso. apply Hconflict. apply Exists_exists. by exists o.
    + subst o. by rewrite Hst.
Qed.

Lemma UPSERT_CANCELED_ORDER_present row (tbl : list order_row) :
  ∃ i o, (UPSERT_CANCELED_ORDER_STMT row tbl).1 !! i = Some o
         ∧ signature o = signature row.
Proof.
  unfold UPSERT_CANCELED_ORDER_STMT. case_decide as Hconflict; simpl.
  - apply Exists_exists in Hconflict as (o & [i Hi]%list_elem_of_lookup & Hsig).
    exists i. eexists. rewrite list_lookup_fmap, Hi. split; [done|].
    simpl. by case_decide.
  - exists (length tbl), row. split; [|done].
    by rewrite lookup_app_r, Nat.sub_diag.
Qed.

(** X11: a cancellation delivered again is absorbed.  Once [record_cancel]
    has returned for an event, on a table with unique signatures, a later
    run for the same event on that table leaves the store as it was and
    returns false (or raises what the timestamp look-up raised). *)
Theorem cancel_redelivery_absorbed contract n ev w w1 b :
  record_cancel contract n ev w = (w1, Ok b) →
  orders_unique (orders (db w)) →
  ∀ contract' n' w2,
    orders (db w2) = orders (db w1) →
    ∃ w3, record_cancel contract' n' ev w2
          = (w3, match block_timestamp (calls w2) (blockNumber ev) with
                 | Ok _ => Ok false
                 | Raise e => Raise e
                 end)
      ∧ db w3 = db w2.
Proof.
  intros Hrun Hunique contract' n' w2 Hsame.
  destruct (record_cancel_returns _ _ _ _ _ _ Hrun)
    as (hash & ts & a & row & Hhash & _ & Ha & Hrow & _ & Horders & _).
  destruct (cancel_row_terms _ _ _ _ _ _ Ha Hrow)
    as (amount & _ & _ & _ & _ & _ & _ & _ & Huser & _ & _ & _ & _ & Hst & _).
  assert (∃ maker, getitem (args ev) "user" = Ok maker) as [maker Hmaker].
  { destruct (getitem (args ev) "user"); [by eexists|done]. }
  rewrite record_cancel_run, Hmaker, Hhash. cbv zeta.
  destruct (block_timestamp (calls w2) (blockNumber ev)) as [ts'|e];
    [|by eexists].
  destruct (cancel_row_any_date _ _ _ _ ts' _ _ Ha Hrow)
    as (a' & row' & -> & -> & Hsig).
  destruct (UPSERT_CANCELED_ORDER_present row (orders (db w)))
    as (i & o & Hi & Hsigo).
  rewrite <- Horders, <- Hsame in Hi.
  rewrite (UPSERT_CANCELED_ORDER_skips row' (orders (db w2)) i o).
  - simpl. eexists. split; [done|]. simpl. by destruct (db w2).
  - rewrite Hsame, Horders. by apply (orders_unique_preserved row 0 0 []).
  - done.
  - congruence.
  - apply (UPSERT_CANCELED_ORDER_closes row (orders (db w))); [done| |done].
    rewrite <- Horders, <- Hsame. by eapply list_elem_of_lookup_2.
Qed.

(** X12: [record_cancel] touches only the orders: trades and transfers are
    as they were; the table of orders keeps its rows in place and grows by
    at most one; and a row whose signature is not the event's is left as it
    was. *)
Theorem cancel_touches_only_its_signature contract n ev w w1 r :
  record_cancel contract n ev w = (w1, r) →
  trades (db w1) = trades (db w)
  ∧ transfers (db w1) = transfers (db w)
  ∧ (length (orders (db w)) ≤ length (orders (db w1))
                            ≤ S (length (orders (db w))))%nat
  ∧ ∀ i o sig,
      orders (db w) !! i = Some o →
      result_bind (make_order_hash (args ev)) toBytes_hexstr = Ok sig →
      signature o ≠ sig →
      orders (db w1) !! i = Some o.
Proof.
  rewrite record_cancel_run. cbv zeta.
  destruct (getitem (args ev) "user") as [maker|];
    [|intros [= <- <-]; repeat split; (lia || done)].
  destruct (make_order_hash (args ev)) as [hash|];
    [|intros [= <- <-]; repeat split; (lia || done)].
  destruct (block_timestamp (calls w) (blockNumber ev)) as [ts|];
    [|intros [= <- <-]; repeat split; (simpl; lia) || done].
  destruct (cancel_upsert_args _ _ _ _) as [a|] eqn:Ha;
    [|intros [= <- <-]; repeat split; (simpl; lia) || done].
  destruct (encode_order_row a) as [row|] eqn:Hrow;
    [|intros [= <- <-]; repeat split; (simpl; lia) || done].
  destruct (cancel_row_terms _ _ _ _ _ _ Ha Hrow) as (_ & _ & Hsig & _).
  intros Hrun.
  assert (db w1 = with_orders (UPSERT_CANCELED_ORDER_STMT row
                                 (orders (db w))).1 (db w)) as ->.
  { by destruct (bool_of_count _); simplify_eq. }
  simpl. do 2 (split; [done|]). split.
  - unfold UPSERT_CANCELED_ORDER_STMT. case_decide; simpl.
    + rewrite length_fmap. lia.
    + rewrite length_app. simpl. lia.
  - intros i o sig Hi Hsig' Hne. simpl in Hsig'. rewrite Hsig in Hsig'.
    injection Hsig' as <-.
    unfold UPSERT_CANCELED_ORDER_STMT. case_decide; simpl.
    + rewrite list_lookup_fmap, Hi. simpl. rewrite decide_False; [done|].
      by intros [? _].
    + by apply lookup_app_l_Some.
Qed.

End CancelAgain.

(** ** Trades, again *)

Section TradeAgain.
Context `{Collaborators}.

(** One turn of the refreshing loop writes to the orders only, and only to
    rows with the signature of the order it was given. *)
Lemma update_order_fill_others contract order w w1 r :
  update_order_fill contract order w = (w1, r) →
  trades (db w1) = trades (db w)
  ∧ transfers (db w1) = transfers (db w)
  ∧ ∀ i o, orders (db w) !! i = Some o →
           signature o ≠ signature order →
           orders (db w1) !! i = Some o.
Proof.
  rewrite update_order_fill_run. cbv zeta.
  repeat (case_match; try discriminate); intros ?; simplify_eq; simpl;
    try done.
  do 2 (split; [done|]). intros i o Hi Hne. by apply UPDATE_ORDER_FILL_miss.
Qed.

Lemma update_order_fills_others contract affected :
  ∀ w w1 r,
    update_order_fills contract affected w = (w1, r) →
    trades (db w1) = trades (db w)
    ∧ transfers (db w1) = transfers (db w)
    ∧ ∀ i o, orders (db w) !! i = Some o →
             (∀ o', o' ∈ affected → signature o' ≠ signature o) →
             orders (db w1) !! i = Some o.
Proof.
  induction affected as [|order rest IH]; intros w w1 r.
  { by intros [= <- <-]. }
  rewrite update_order_fills_cons.
  destruct (update_order_fill contract order w) as [w2 [[]|e]] eqn:Hstep;
    intros Hrun;
    destruct (update_order_fill_others _ _ _ _ _ Hstep) as (Ht & Hf & Ho).
  - destruct (IH _ _ _ Hrun) as (Ht' & Hf' & Ho').
    split; [congruence|]. split; [congruence|].
    intros i o Hi Hne. apply Ho'.
    + apply Ho; [done|]. intros Heq. eapply Hne; [|by symmetry].
      apply list_elem_of_here.
    + intros o' Ho'in. apply Hne. by apply list_elem_of_further.
  - simplify_eq. do 2 (split; [done|]).
    intros i o Hi Hne. apply Ho; [done|]. intros Heq.
    eapply Hne; [|by symmetry]. apply list_elem_of_here.
Qed.

Lemma process_trade_transfers contract n ev w w2 r :
  process_trade contract n ev w = (w2, r) →
  transfers (db w2) = transfers (db w).
Proof.
  intros Hrun.
  destruct (process_trade_shape _ _ _ _ _ _ Hrun)
    as (w1 & r1 & Hrec & Hshape).
  destruct (record_trade_frame _ _ _ _ _ _ Hrec) as (_ & Hf1 & _).
  simpl in Hf1.
  destruct Hshape as [(_ & -> & _)|[(_ & -> & _)|
    (_ & ? & ? & ? & ? & w1' & w2' & r' & _ & _ & _ & Hdb1 & _ & Hfills
       & -> & _)]]; [done|done|].
  destruct (update_order_fills_others _ _ _ _ _ Hfills) as (_ & -> & _).
  by rewrite Hdb1.
Qed.

(** X13: a trade touches only the orders it selected.  With unique
    signatures, whatever the outcome of [process_trade], an order that is
    not of the event's maker ([args.get]), or that expired before the
    event's block, is left exactly as it was. *)
Theorem trade_touches_only_the_makers_orders contract n ev w w2 r :
  process_trade contract n ev w = (w2, r) →
  orders_unique (orders (db w)) →
  ∀ i o,
    orders (db w) !! i = Some o →
    ¬ (result_bind (getitem (args ev) "get") toBytes_hexstr = Ok (user o)
       ∧ ∃ bn, coerce_to_int (blockNumber ev) = Ok bn ∧ bn ≤ expires o) →
    orders (db w2) !! i = Some o.
Proof.
  intros Hrun Hunique.
  destruct (process_trade_shape _ _ _ _ _ _ Hrun)
    as (w1 & r1 & Hrec & Hshape).
  destruct (record_trade_frame _ _ _ _ _ _ Hrec) as (Ho1 & _).
  simpl in Ho1.
  destruct Hshape as [(_ & Hdb & _)|[(_ & Hdb & _)|
    (_ & bn & maker & p1 & p2 & w1' & w2' & r' & Hbn & Hget & Hp1 & Hdb1
       & _ & Hfills & Hdb & _)]].
  - by rewrite Hdb, Ho1.
  - by rewrite Hdb, Ho1.
  - destruct (update_order_fills_others _ _ _ _ _ Hfills) as (_ & _ & Ho).
    rewrite Hdb.
    intros i o Hi Hnot. apply Ho; [by rewrite Hdb1, Ho1|].
    intros o' [Hin (Huser & _ & Hexp)]%FETCH_AFFECTED_ORDERS_spec Hsig.
    rewrite Ho1 in Hin.
    assert (o' = o) as -> by by eapply unique_signature_row.
    apply Hnot. split.
    + apply getitem_Ok in Hget. rewrite Hget. simpl. by rewrite Hp1, Huser.
    + by exists bn.
Qed.

(** X14: a refresh that failed is not made up for.  When [process_trade]
    raised after the insert reported true, the trade stays on record, so a
    later delivery of the event finds it, writes nothing and makes no call
    that concerns the orders. *)
Theorem failed_refresh_not_retried contract n ev w w1 w2 e :
  record_trade contract n ev
    (logged DEBUG "received trade txid=%s" [transactionHash ev] w)
  = (w1, Ok true) →
  process_trade contract n ev w = (w2, Raise e) →
  (∃ row, trades (db w2) = trades (db w) ++ [row])
  ∧ ∀ contract' n' w3,
      trades (db w3) = trades (db w2) →
      ∃ w4 r,
        process_trade contract' n' ev w3 = (w4, r)
        ∧ db w4 = db w3
        ∧ ∃ new, calls w4 = calls w3 ++ new
                 ∧ Forall (λ c, order_call c = false) new.
Proof.
  intros Hrec Hrun.
  destruct (record_trade_returns _ _ _ _ _ _ Hrec)
    as (bn & li & ts & row & h & Hbn & Hli & Hrow & _ & _ & _ & Htrades).
  simpl in Htrades.
  assert (trades (db w2) = trades (db w1)) as Hkept.
  { destruct (process_trade_shape _ _ _ _ _ _ Hrun)
      as (w1' & r1 & Hrec' & Hshape).
    rewrite Hrec in Hrec'. injection Hrec' as <- <-.
    destruct Hshape as [(_ & -> & _)|[(_ & -> & _)|
      (_ & ? & ? & ? & ? & w1' & w2' & r' & _ & _ & _ & Hdb1 & _ & Hfills
         & -> & _)]]; [done|done|].
    destruct (update_order_fills_others _ _ _ _ _ Hfills) as (-> & _).
    by rewrite Hdb1. }
  split; [exists row; congruence|].
  intros contract' n' w3 Hsame.
  destruct (process_trade_known contract' n' ev w3 bn li ts row Hbn Hli Hrow)
    as (w4 & r & Hrun' & Hdb & Hcalls & _).
  { rewrite Hsame, Hkept, Htrades, fmap_app. apply elem_of_app. right.
    apply list_elem_of_singleton. done. }
  by exists w4, r.
Qed.

(** X15: a trade that was processed is on record.  When [process_trade]
    returns, the table of trades holds a row with the event's transaction
    hash and log index. *)
Theorem processed_trade_on_record contract n ev w w2 :
  process_trade contract n ev w = (w2, Ok tt) →
  ∃ h li row,
    toBytes_hexstr (transactionHash ev) = Ok h
    ∧ coerce_to_int (logIndex ev) = Ok li
    ∧ row ∈ trades (db w2)
    ∧ trade_identifier row = (h, li).
Proof.
  intros Hrun.
  destruct (process_trade_shape _ _ _ _ _ _ Hrun)
    as (w1 & r1 & Hrec & Hshape).
  assert (∃ b, r1 = Ok b ∧ trades (db w2) = trades (db w1)) as (b & -> & ->).
  { destruct Hshape as [(_ & -> & _ & Hr)|[(_ & _ & _ & e & Hr)|
      (-> & ? & ? & ? & ? & w1' & w2' & r' & _ & _ & _ & Hdb1 & _ & Hfills
         & -> & _)]].
    - destruct r1 as [b|]; [|done]. by exists b.
    - done.
    - exists true. split; [done|].
      destruct (update_order_fills_others _ _ _ _ _ Hfills) as (-> & _).
      by rewrite Hdb1. }
  destruct (record_trade_returns _ _ _ _ _ _ Hrec)
    as (bn & li & ts & row & h & _ & Hli & _ & Hh & Hid & Hb).
  simpl in Hb. destruct b.
  - destruct Hb as [_ ->]. exists h, li, row. do 2 (split; [done|]).
    split; [|done]. apply elem_of_app. right. by apply list_elem_of_singleton.
  - destruct Hb as [Hin ->]. simpl.
    apply list_elem_of_fmap in Hin as (row' & Hid' & Hin).
    exists h, li, row'. do 2 (split; [done|]). split; [done|]. congruence.
Qed.


(** X17: what each recorder never writes.  A trade leaves the transfers as
    they were; a deposit or a withdrawal leaves the orders and the trades
    as they were; a cancellation leaves the trades and the transfers as
    they were. *)
Theorem deliveries_write_their_own_tables d w :
  match d with
  | Trade _ _ _ => transfers (db (deliver d w)) = transfers (db w)
  | Deposit _ _ _ | Withdraw _ _ _ =>
      orders (db (deliver d w)) = orders (db w)
      ∧ trades (db (deliver d w)) = trades (db w)
  | Cancel _ _ _ =>
      trades (db (deliver d w)) = trades (db w)
      ∧ transfers (db (deliver d w)) = transfers (db w)
  end.
Proof.
  destruct d as [contract n ev|contract n ev|contract n ev|contract n ev];
    simpl.
  - destruct (process_trade contract n ev w) as [w1 r] eqn:Hrun.
    by eapply process_trade_transfers.
  - rewrite record_deposit_db.
    destruct (record_transfer "DEPOSIT" ev w) as [w1 r] eqn:Hrun.
    by destruct (record_transfer_frame _ _ _ _ _ Hrun) as (? & ? & _).
  - rewrite record_withdraw_db.
    destruct (record_transfer "WITHDRAW" ev w) as [w1 r] eqn:Hrun.
    by destruct (record_transfer_frame _ _ _ _ _ Hrun) as (? & ? & _).
  - destruct (record_cancel contract n ev w) as [w1 r] eqn:Hrun. simpl.
    revert Hrun. rewrite record_cancel_run. cbv zeta.
    repeat (case_match; try discriminate); intros ?; by simplify_eq.
Qed.

End TradeAgain.

(** ** Worked examples *)

Lemma deposit_and_withdraw_wrap_transfer_witness :
  let w := Demo.world [] in
  let w1 :=
    (record_transfer (H := Demo.collaborators) "DEPOSIT" Demo.deposit w).1 in
  ∃ w2,
    record_deposit (H := Demo.collaborators) Demo.contract "Deposit"
      Demo.deposit w = (w2, Ok true)
    ∧ db w2 = db w1
    ∧ logs w2
      = logs w1
          ++ [ {| log_level := INFO;
                  log_format := "recorded deposit txid=%s, logidx=%i";
                  log_args := [PStr "0xdef"; PInt 0] |} ].
Proof.
  intros w w1.
  destruct (deposit_and_withdraw_wrap_transfer (H := Demo.collaborators)
              Demo.contract "Deposit" Demo.deposit w) as [Hdeposit _].
  destruct (Hdeposit w1 (Ok true)) as (w2 & Hrun & Hdb & _ & Hlog & _).
  { vm_compute; reflexivity. }
  exists w2. do 2 (split; [done|]).
  destruct (Hlog eq_refl) as (li & [= <-] & ->). reflexivity.
Defined.

Lemma raising_fact_recorder_writes_nothing_witness :
  let ev := {| blockNumber := PInt 800;
               transactionHash := PStr "0xabc";
               logIndex := PInt 3;
               args := delete "get" (args Demo.trade) |} in
  let w := Demo.world [Demo.order "0x01" "0xbeef" OPEN 100 0] in
  let w1 :=
    (record_trade (H := Demo.collaborators) Demo.contract "Trade" ev w).1 in
  db w1 = db w ∧ logs w1 = logs w
  ∧ ∃ new, calls w1 = calls w ++ new ∧ Forall (λ c, store_call c = false) new.
Proof.
  intros ev w w1.
  apply (raising_fact_recorder_writes_nothing (H := Demo.collaborators)
           Demo.contract "Trade" ev w w1 (KeyError "get")).
  left. vm_compute; reflexivity.
Defined.

Lemma event_missing_argument_not_recorded_witness :
  let ev := {| blockNumber := PInt 800;
               transactionHash := PStr "0xabc";
               logIndex := PInt 3;
               args := delete "get" (args Demo.trade) |} in
  let w := Demo.world [Demo.order "0x01" "0xbeef" OPEN 100 0] in
  ∃ w1 e,
    record_trade (H := Demo.collaborators) Demo.contract "Trade" ev w
    = (w1, Raise e)
    ∧ db w1 = db w.
Proof.
  intros ev w.
  destruct (event_missing_argument_not_recorded (H := Demo.collaborators)
              Demo.contract "Trade" ev w "get") as [Htrade _].
  { vm_compute; reflexivity. }
  apply Htrade. unfold trade_keys.
  repeat first [apply list_elem_of_here | apply list_elem_of_further].
Defined.

Lemma recorded_trade_row_witness :
  let w := Demo.world [] in
  let w1 :=
    (record_trade (H := Demo.collaborators) Demo.contract "Trade"
       Demo.trade w).1 in
  ∃ row,
    trades (db w1) = [row]
    ∧ trade_block_number row = 800 ∧ trade_log_index row = 3
    ∧ trade_date row = 1500000800.
Proof.
  intros w w1.
  destruct (recorded_trade_row (H := Demo.collaborators) Demo.contract
              "Trade" Demo.trade w w1)
    as (row & Htrades & _ & _ & _ & [= Hbn] & [= Hli] & [= Hts] & _).
  { vm_compute; reflexivity. }
  by exists row.
Defined.

Lemma recorded_transfer_row_witness :
  let w := Demo.world [] in
  let w1 :=
    (record_transfer (H := Demo.collaborators) "DEPOSIT" Demo.deposit w).1 in
  ∃ row,
    transfers (db w1) = [row]
    ∧ transfer_direction row = "DEPOSIT"
    ∧ transfer_block_number row = 801.
Proof.
  intros w w1.
  destruct (recorded_transfer_row (H := Demo.collaborators) Demo.contract
              "Deposit" Demo.deposit w w1) as [Htransfer _].
  destruct (Htransfer "DEPOSIT")
    as (row & Htransfers & _ & _ & Hdir & [= Hbn] & _).
  { vm_compute; reflexivity. }
  by exists row.
Defined.

Lemma cancel_redelivery_absorbed_witness :
  let w := Demo.world [Demo.order "0xbeef" "0xbeef" OPEN 100 0] in
  let w1 :=
    (record_cancel (H := Demo.collaborators) Demo.contract "Cancel"
       Demo.cancel_offchain w).1 in
  ∃ w3,
    record_cancel (H := Demo.collaborators) Demo.contract "Cancel"
      Demo.cancel_offchain w1 = (w3, Ok false)
    ∧ db w3 = db w1.
Proof.
  intros w w1.
  apply (cancel_redelivery_absorbed (H := Demo.collaborators) Demo.contract
           "Cancel" Demo.cancel_offchain w w1 true).
  - vm_compute; reflexivity.
  - apply NoDup_singleton.
  - reflexivity.
Defined.

Lemma cancel_touches_only_its_signature_witness :
  let o := Demo.order "0x01" "0xbeef" OPEN 100 0 in
  let w := Demo.world [o] in
  let w1 :=
    (record_cancel (H := Demo.collaborators) Demo.contract "Cancel"
       Demo.cancel_offchain w).1 in
  orders (db w1) !! 0%nat = Some o.
Proof.
  intros o w w1.
  destruct (cancel_touches_only_its_signature (H := Demo.collaborators)
              Demo.contract "Cancel" Demo.cancel_offchain w w1 (Ok true))
    as (_ & _ & _ & Hkept).
  { vm_compute; reflexivity. }
  apply (Hkept 0%nat o (String.list_byte_of_string "0xbeef")).
  - reflexivity.
  - vm_compute; reflexivity.
  - vm_compute. discriminate.
Defined.

Lemma trade_touches_only_the_makers_orders_witness :
  let o1 := Demo.order "0x01" "0xbeef" OPEN 100 0 in
  let o2 := Demo.order "0x02" "0xcafe" OPEN 100 0 in
  let w := Demo.world [o1; o2] in
  let w2 :=
    (process_trade (H := Demo.collaborators) Demo.contract "Trade"
       Demo.trade w).1 in
  orders (db w2) !! 1%nat = Some o2.
Proof.
  intros o1 o2 w w2.
  apply (trade_touches_only_the_makers_orders (H := Demo.collaborators)
           Demo.contract "Trade" Demo.trade w w2 (Ok tt)).
  - vm_compute; reflexivity.
  - apply NoDup_cons_2; [|apply NoDup_singleton].
    intros Hin%list_elem_of_singleton. vm_compute in Hin. discriminate.
  - reflexivity.
  - intros [Huser _]. vm_compute in Huser. discriminate.
Defined.

Lemma failed_refresh_not_retried_witness :
  let ev := {| blockNumber := PInt 800;
               transactionHash := PStr "0xabc";
               logIndex := PInt 3;
               args := <["get" := PStr "0xdead"]> (args Demo.trade) |} in
  let w := Demo.world [Demo.order "0x01" "0xdead" OPEN 100 0] in
  let w2 :=
    (process_trade (H := Demo.collaborators) Demo.contract "Trade" ev w).1 in
  (length (trades (db w2)) = 1 ∧ orders (db w2) = orders (db w))%nat
  ∧ ∃ w4 r,
      process_trade (H := Demo.collaborators) Demo.contract "Trade" ev w2
      = (w4, r)
      ∧ db w4 = db w2
      ∧ ∃ new, calls w4 = calls w2 ++ new
               ∧ Forall (λ c, order_call c = false) new.
Proof.
  intros ev w w2. split; [by vm_compute|].
  set (w1 := (record_trade (H := Demo.collaborators) Demo.contract "Trade" ev
                (logged DEBUG "received trade txid=%s" [transactionHash ev]
                   w)).1).
  destruct (failed_refresh_not_retried (H := Demo.collaborators)
              Demo.contract "Trade" ev w w1 w2 (OtherError "orderFills"))
    as [_ Hlater].
  - vm_compute; reflexivity.
  - vm_compute; reflexivity.
  - by apply (Hlater Demo.contract "Trade" w2).
Defined.

Lemma processed_trade_on_record_witness :
  let w := Demo.world [] in
  let w2 :=
    (process_trade (H := Demo.collaborators) Demo.contract "Trade"
       Demo.trade w).1 in
  ∃ h li row,
    toBytes_hexstr (H := Demo.collaborators) (transactionHash Demo.trade)
    = Ok h
    ∧ coerce_to_int (Collaborators := Demo.collaborators)
        (logIndex Demo.trade) = Ok li
    ∧ row ∈ trades (db w2)
    ∧ trade_identifier row = (h, li).
Proof.
  intros w w2.
  apply (processed_trade_on_record (H := Demo.collaborators) Demo.contract
           "Trade" Demo.trade w w2).
  vm_compute; reflexivity.
Defined.
